(** * Talent Sift (lite): the submission view and the results view

    A shallow embedding of [src/App.jsx] (the submission view) and of the
    results view [ResumeList], with the properties of their local logic:
    URL defaults, validation, HTML stripping, the cached response, its
    mapping into display rows and the client-side filters.

    Conventions of the model:
    - a JavaScript value is a tree ([JS.value]); a function that can throw
      returns an [option], [None] being the exception, and [handleSubmit]
      runs in a monad of state and exceptions;
    - a string is the sequence of its UTF-8 bytes;
    - a number is a rational, an infinity or NaN;
    - a [localStorage] entry holds a JSON text, kept as the value that
      [JSON.parse] returns for it; what [JSON.stringify] loses of a value
      (a number that is not finite, [undefined], a function) is lost when
      the entry is written;
    - the network is an input of [handleSubmit], what the user can observe
      of a run (toasts, requests, navigation) is a list of events, and a
      run goes from start to end with nothing else happening in between;
    - the functions of the browser that the program calls without defining
      them ([Number] on strings and objects, the case mapping behind
      [toLowerCase], the HTML parser behind [innerHTML]) are the fields of
      the class [Engine]. *)

From Stdlib Require Import ZArith QArith String Ascii List.
From Stdlib Require Import Decimal DecimalString.
From stdpp Require Import base option list gmap strings.

Local Open Scope string_scope.
Local Open Scope list_scope.
Local Set Warnings "-register-all".

(** ** JavaScript values *)

Module JS.

(** A JavaScript number: a finite value, one of the infinities, or NaN.
    Finite doubles are rationals, and the program only compares numbers
    and tests them for truthiness, so a finite number is kept as the
    rational it denotes (the two zeros are not told apart). *)
Inductive number : Type :=
  | NaN
  | NegInf
  | Fin (q : Q)
  | PosInf.

Definition num_of_nat (n : nat) : number := Fin (inject_Z (Z.of_nat n)).

(** [a <= b] on numbers; every comparison with NaN is false. *)
Definition num_le (a b : number) : bool :=
  match a, b with
  | NaN, _ | _, NaN => false
  | NegInf, _ => true
  | _, PosInf => true
  | Fin x, Fin y => Qle_bool x y
  | _, _ => false
  end.

(** [a >= b]. *)
Definition num_ge (a b : number) : bool := num_le b a.

(** ToBoolean on a number. *)
Definition num_truthy (n : number) : bool :=
  match n with
  | NaN => false
  | Fin q => negb (Qeq_bool q 0)
  | NegInf | PosInf => true
  end.

(** The values the program handles: what [JSON.parse] and [response.json()]
    build, [undefined], and the built-in objects that a property read on an
    object literal can reach through its prototype. *)
Inductive value : Type :=
  | VUndef
  | VNull
  | VBool (b : bool)
  | VNum (n : number)
  | VStr (s : string)
  | VArr (items : list value)
  | VObj (props : list (string * value))
  | VNative (name : string).

(** ToBoolean. *)
Definition truthy (v : value) : bool :=
  match v with
  | VUndef | VNull => false
  | VBool b => b
  | VNum n => num_truthy n
  | VStr s => negb (String.eqb s "")
  | VArr _ | VObj _ | VNative _ => true
  end.

(** [a || b] and [a && b] on values. *)
Definition or_ (a b : value) : value := if truthy a then a else b.
Definition and_ (a b : value) : value := if truthy a then b else a.

(** [v === "s"] for a string literal [s]. *)
Definition str_eq (v : value) (s : string) : bool :=
  match v with VStr t => String.eqb t s | _ => false end.

(** Own property of an object: the first entry under the key. *)
Fixpoint own (props : list (string * value)) (k : string) : option value :=
  match props with
  | [] => None
  | (k', v) :: rest => if String.eqb k' k then Some v else own rest k
  end.

(** What a read of [k] finds on [Object.prototype], the end of the
    prototype chain of every object literal and parsed JSON object. *)
Definition Object_prototype (k : string) : option value :=
  if String.eqb k "constructor" then Some (VNative "Object")
  else if String.eqb k "__proto__" then Some (VNative "Object.prototype")
  else if existsb (String.eqb k)
            ["hasOwnProperty"; "isPrototypeOf"; "propertyIsEnumerable";
             "toLocaleString"; "toString"; "valueOf";
             "__defineGetter__"; "__defineSetter__";
             "__lookupGetter__"; "__lookupSetter__"]
       then Some (VNative ("Object.prototype." ++ k))
  else None.

(** The built-in class of a value that is not a plain object. *)
Definition class_of (v : value) : string :=
  match v with
  | VBool _ => "Boolean"
  | VNum _ => "Number"
  | VStr _ => "String"
  | VArr _ => "Array"
  | VNative _ => "Function"
  | _ => "Object"
  end.

(** The property read [v.k] (or [v[k]]).  [None] is the TypeError of a read
    on [null] or [undefined].  On an object the own properties come first,
    then [Object.prototype].  On an array or a primitive a name that
    [Object.prototype] defines resolves to a built-in of the class of the
    value, and every other name to [undefined]: the program reads no
    index, [length] or method of these classes through this function. *)
Definition get (v : value) (k : string) : option value :=
  match v with
  | VUndef | VNull => None
  | VObj props =>
      match own props k with
      | Some x => Some x
      | None => Some (default VUndef (Object_prototype k))
      end
  | _ =>
      match Object_prototype k with
      | Some _ => Some (VNative (class_of v ++ ".prototype." ++ k))
      | None => Some VUndef
      end
  end.

(** ** JSON

    The text [JSON.stringify(v)] is kept as the value that [JSON.parse]
    returns for it. *)

(** The numbers JSON can write. *)
Definition finite (n : number) : bool :=
  match n with
  | Fin _ => true
  | _ => false
  end.

(** The properties of an object as they are written: each name once, with
    the value that a read of it finds, and a property whose value has no
    text ([undefined], a function) left out. *)
Fixpoint write_props (f : value -> option value) (seen : list string)
    (props : list (string * value)) : list (string * value) :=
  match props with
  | [] => []
  | (k, x) :: rest =>
      if existsb (String.eqb k) seen then write_props f seen rest
      else match f x with
           | Some y => (k, y) :: write_props f (k :: seen) rest
           | None => write_props f (k :: seen) rest
           end
  end.

(** [JSON.stringify(v)].  [None] is the [undefined] it returns for
    [undefined] and for a function.  A number that is not finite is
    written as [null]; in an array, an item that has no text is written as
    [null].  No value that [JSON.parse] builds has a [toJSON] method, and
    none is called here. *)
Fixpoint stringify (v : value) : option value :=
  match v with
  | VUndef | VNative _ => None
  | VNull => Some VNull
  | VBool b => Some (VBool b)
  | VNum n => Some (if finite n then VNum n else VNull)
  | VStr s => Some (VStr s)
  | VArr items => Some (VArr (map (fun x => default VNull (stringify x)) items))
  | VObj props => Some (VObj (write_props stringify [] props))
  end.

Fixpoint unique (l : list string) : bool :=
  match l with
  | [] => true
  | k :: rest => negb (existsb (String.eqb k) rest) && unique rest
  end.

(** A value that a JSON text denotes as it is: it holds no [undefined], no
    function and no number that is not finite, and its objects have one
    property per name. *)
Fixpoint plain (v : value) : bool :=
  match v with
  | VUndef | VNative _ => false
  | VNull | VBool _ | VStr _ => true
  | VNum n => finite n
  | VArr items => forallb plain items
  | VObj props => forallb (fun '(k, x) => plain x) props && unique (map fst props)
  end.

(** ** Strings *)

(** The white space and the line terminators that [trim] removes, each
    as its UTF-8 bytes: the ASCII ones, U+00A0, U+1680, U+2000 to U+200A,
    U+2028, U+2029, U+202F, U+205F, U+3000 and U+FEFF. *)
Definition white_space : list (list nat) :=
  [[9]; [10]; [11]; [12]; [13]; [32]; [194; 160]; [225; 154; 128]]
  ++ map (fun b => [226; 128; b]) (seq 128 11)
  ++ [[226; 128; 168]; [226; 128; 169]; [226; 128; 175]; [226; 129; 159];
      [227; 128; 128]; [239; 187; 191]].

(** [s] without its prefix [p], when it starts with [p]. *)
Fixpoint strip (p : list nat) (s : string) : option string :=
  match p, s with
  | [], _ => Some s
  | _ :: _, EmptyString => None
  | b :: p', String c s' =>
      if (nat_of_ascii c =? b)%nat then strip p' s' else None
  end.

(** [s] without one leading sequence of [seqs]. *)
Definition strip_one (seqs : list (list nat)) (s : string) : option string :=
  fold_right (fun p found =>
                match strip p s with
                | Some r => Some r
                | None => found
                end) None seqs.

(** Leading sequences of [seqs] removed, at most [fuel] of them. *)
Fixpoint strip_all (fuel : nat) (seqs : list (list nat)) (s : string) : string :=
  match fuel with
  | O => s
  | S fuel' =>
      match strip_one seqs s with
      | Some r => strip_all fuel' seqs r
      | None => s
      end
  end.

Fixpoint reverse_onto (acc s : string) : string :=
  match s with
  | EmptyString => acc
  | String c r => reverse_onto (String c acc) r
  end.

Definition reverse (s : string) : string := reverse_onto EmptyString s.

Definition trimStart (s : string) : string :=
  strip_all (String.length s) white_space s.

Definition trimEnd (s : string) : string :=
  reverse (strip_all (String.length s) (map (@rev nat) white_space) (reverse s)).

(** [s.trim()]. *)
Definition trim (s : string) : string := trimEnd (trimStart s).

Fixpoint startsWith (s p : string) : bool :=
  match p, s with
  | EmptyString, _ => true
  | String _ _, EmptyString => false
  | String a p', String b s' => Ascii.eqb a b && startsWith s' p'
  end.

(** [s.includes(q)]. *)
Fixpoint includes (s q : string) : bool :=
  startsWith s q ||
  match s with
  | EmptyString => false
  | String _ r => includes r q
  end.

(** [s.split(sep)] for a one-character separator: the pieces between the
    separators, empty pieces included; the empty string gives one empty
    piece. *)
Fixpoint split (sep : ascii) (s : string) : list string :=
  match s with
  | EmptyString => [EmptyString]
  | String c r =>
      if Ascii.eqb c sep then EmptyString :: split sep r
      else match split sep r with
           | [] => [String c EmptyString]
           | p :: ps => String c p :: ps
           end
  end.

(** The decimal digits of a natural number, as a template literal prints
    an integer. *)
Definition digits (n : nat) : string :=
  NilEmpty.string_of_uint (Nat.to_uint n).

(** *** decodeURIComponent

    Strings are kept as their UTF-8 bytes.  An escape [%XX] yields one
    byte; an escaped byte with the high bit set must start a well-formed
    UTF-8 sequence whose other bytes are escaped too.  [None] is the
    URIError. *)

Definition hex_digit (c : ascii) : option nat :=
  let n := nat_of_ascii c in
  if (48 <=? n)%nat && (n <=? 57)%nat then Some (n - 48)
  else if (65 <=? n)%nat && (n <=? 70)%nat then Some (n - 55)
  else if (97 <=? n)%nat && (n <=? 102)%nat then Some (n - 87)
  else None.

(** A unit of the input: a character standing for itself, or the byte of
    one escape. *)
Inductive unit_ : Type :=
  | Plain (c : ascii)
  | Escaped (b : nat).

Fixpoint unescape (s : string) : option (list unit_) :=
  match s with
  | EmptyString => Some []
  | String c r =>
      if Ascii.eqb c "%" then
        match r with
        | String h1 (String h2 r') =>
            match hex_digit h1, hex_digit h2, unescape r' with
            | Some a, Some b, Some us => Some (Escaped (16 * a + b) :: us)
            | _, _, _ => None
            end
        | _ => None
        end
      else
        match unescape r with
        | Some us => Some (Plain c :: us)
        | None => None
        end
  end.

Definition between (lo hi b : nat) : bool := (lo <=? b)%nat && (b <=? hi)%nat.
Definition cont (b : nat) : bool := between 128 191 b.

(** Well-formed UTF-8 sequences of two, three and four bytes. *)
Definition utf8_2 (b0 b1 : nat) : bool := between 194 223 b0 && cont b1.

Definition utf8_3 (b0 b1 b2 : nat) : bool :=
  ((b0 =? 224)%nat && between 160 191 b1 && cont b2)
  || (between 225 236 b0 && cont b1 && cont b2)
  || ((b0 =? 237)%nat && between 128 159 b1 && cont b2)
  || (between 238 239 b0 && cont b1 && cont b2).

Definition utf8_4 (b0 b1 b2 b3 : nat) : bool :=
  ((b0 =? 240)%nat && between 144 191 b1 && cont b2 && cont b3)
  || (between 241 243 b0 && cont b1 && cont b2 && cont b3)
  || ((b0 =? 244)%nat && between 128 143 b1 && cont b2 && cont b3).

Definition bytes (bs : list nat) : string :=
  fold_right (fun b s => String (ascii_of_nat b) s) EmptyString bs.

Fixpoint assemble (us : list unit_) : option string :=
  match us with
  | [] => Some EmptyString
  | Plain c :: r => String c <$> assemble r
  | Escaped b0 :: r =>
      if (b0 <? 128)%nat then String (ascii_of_nat b0) <$> assemble r
      else if (b0 <? 224)%nat then
        match r with
        | Escaped b1 :: r' =>
            if utf8_2 b0 b1
            then String.append (bytes [b0; b1]) <$> assemble r'
            else None
        | _ => None
        end
      else if (b0 <? 240)%nat then
        match r with
        | Escaped b1 :: Escaped b2 :: r' =>
            if utf8_3 b0 b1 b2
            then String.append (bytes [b0; b1; b2]) <$> assemble r'
            else None
        | _ => None
        end
      else
        match r with
        | Escaped b1 :: Escaped b2 :: Escaped b3 :: r' =>
            if utf8_4 b0 b1 b2 b3
            then String.append (bytes [b0; b1; b2; b3]) <$> assemble r'
            else None
        | _ => None
        end
  end.

Definition decodeURIComponent (s : string) : option string :=
  match unescape s with
  | Some us => assemble us
  | None => None
  end.

End JS.

Import JS.

(** ** The document tree behind [stripHtml] *)

Module Dom.

(** A node of the tree that the assignment to [innerHTML] builds.  Tag
    names are the lower-case names the HTML parser gives to elements. *)
Inductive node : Type :=
  | Text (data : string)
  | Comment (data : string)
  | Element (tag : string) (children : list node).

(** [el.textContent]: the data of the text nodes below [el], in tree
    order. *)
Fixpoint textContent (n : node) : string :=
  match n with
  | Text d => d
  | Comment _ => EmptyString
  | Element _ cs =>
      fold_right (fun c acc => String.append (textContent c) acc) EmptyString cs
  end.

(** One pass of the loop over [getElementsByTagName(tag)] on the subtree
    [n]: every element named [tag] gets a text node [' '] as last child. *)
Fixpoint appendSpace (tag : string) (n : node) : node :=
  match n with
  | Element t cs =>
      let cs' := map (appendSpace tag) cs in
      Element t (if String.eqb t tag then cs' ++ [Text " "] else cs')
  | other => other
  end.

(** The same pass started at [root]: [getElementsByTagName] returns the
    descendants of [root], never [root] itself. *)
Definition appendSpaceBelow (tag : string) (root : node) : node :=
  match root with
  | Element t cs => Element t (map (appendSpace tag) cs)
  | other => other
  end.

End Dom.

Import Dom.

(** ** What the browser provides

    The functions of the JavaScript engine and of the browser that the
    program calls and whose definition is outside the repository. *)
Class Engine : Type := {
  (** [Number(s)] on a string. *)
  StringToNumber : string -> number;
  (** [Number(o)] on an array or object; [None] when the conversion
      throws. *)
  ObjectToNumber : value -> option number;
  (** The children of an element after [el.innerHTML = html]. *)
  parseFragment : string -> list node;
  (** The lower-case mapping of Unicode that [toLowerCase] applies to a
      string with at least one character. *)
  lowerCase : string -> string;
}.

(** [s.toLowerCase()]. *)
Definition toLowerCase `{Engine} (s : string) : string :=
  match s with
  | EmptyString => EmptyString
  | _ => lowerCase s
  end.

(** [Number(v)]. *)
Definition Number_ `{Engine} (v : value) : option number :=
  match v with
  | VUndef => Some NaN
  | VNull => Some (num_of_nat 0)
  | VBool b => Some (num_of_nat (if b then 1 else 0))
  | VNum n => Some n
  | VStr s => Some (StringToNumber s)
  | VArr _ | VObj _ | VNative _ => ObjectToNumber v
  end.

(** ** The submission view, [App] *)

Module App.

(** An entry of [formData.resumeFiles]; only a [File] is appended to the
    request. *)
Inductive upload : Type :=
  | File (name : string)
  | NotFile (v : value).

Definition instanceof_File (u : upload) : bool :=
  match u with File _ => true | NotFile _ => false end.

(** The form state.  [jobType] is whatever the lookup in [jobTypeMap]
    returned, or the value chosen in the form. *)
Record formData : Type := {
  jobTitle : string;
  yearsOfExperience : string;
  jobType : value;
  industry : string;
  requiredSkills : string;
  jobDescription : string;
  resumeFiles : list upload;
  source : string;
}.

Definition initialFormData : formData := {|
  jobTitle := ""; yearsOfExperience := ""; jobType := VStr "";
  industry := ""; requiredSkills := ""; jobDescription := "";
  resumeFiles := []; source := "";
|}.

(** *** Defaults from the URL *)

(** [decodeSafe]: the decoded string, or [''] when decoding throws. *)
Definition decodeSafe (str : string) : string :=
  match decodeURIComponent str with
  | Some s => s
  | None => ""
  end.

(** [params.get(k) || '']: [None] is the [null] of an absent parameter. *)
Definition param_or_empty (p : option string) : string :=
  match p with
  | Some s => s
  | None => ""
  end.

Definition jobTypeMap : value :=
  VObj [("Full time", VStr "fulltime");
        ("Part time", VStr "parttime");
        ("Contract", VStr "contract");
        ("Freelance", VStr "freelance");
        ("Internship", VStr "internship")].

Definition jobTypeLabel (jobtype : option string) : string :=
  trim (decodeSafe (param_or_empty jobtype)).

(** [jobTypeMap[jobTypeLabel] || '']. *)
Definition mappedJobType (jobtype : option string) : value :=
  or_ (default VUndef (get jobTypeMap (jobTypeLabel jobtype))) (VStr "").

(** The query parameters the effect reads. *)
Record params : Type := {
  p_skills : option string;
  p_job : option string;
  p_yoe : option string;
  p_jobtitle : option string;
  p_jobtype : option string;
  p_source : option string;
}.

(** The state update of the effect that runs once on mount. *)
Definition populateFromUrl (q : params) (prev : formData) : formData := {|
  jobTitle := decodeSafe (param_or_empty (p_jobtitle q));
  yearsOfExperience := decodeSafe (param_or_empty (p_yoe q));
  jobType := mappedJobType (p_jobtype q);
  industry := industry prev;
  requiredSkills := decodeSafe (param_or_empty (p_skills q));
  jobDescription := decodeSafe (param_or_empty (p_job q));
  resumeFiles := resumeFiles prev;
  source := decodeSafe (param_or_empty (p_source q));
|}.

(** *** stripHtml *)

Definition blockTags : list string := ["p"; "div"; "br"; "li"].

(** A string is truthy when it is not empty. *)
Definition nonempty (s : string) : bool := negb (String.eqb s "").

(** [a || b] on strings. *)
Definition sor (a b : string) : string := if nonempty a then a else b.

(** [innerText] of an element that is not rendered is its [textContent];
    the [div] made by [stripHtml] is never attached to the document. *)
Definition innerText (n : node) : string := textContent n.

Definition stripHtml `{Engine} (html : string) : string :=
  let div := Element "div" (parseFragment html) in
  let div := fold_left (fun d tag => appendSpaceBelow tag d) blockTags div in
  trim (sor (textContent div) (sor (innerText div) "")).

(** *** The world [handleSubmit] acts on *)

Module Payload.
(** [jobPayload], the object sent as the [data] part. *)
Record t : Type := {
  org_id : number;
  exe_name : string;
  workflow_id : string;
  job_description : string;
  source : string;
}.
End Payload.

(** The multipart request: the [data] part holds [JSON.stringify(jobPayload)],
    kept as the payload itself (in the text an [org_id] that is NaN is
    written as [null]), and one [resumes] part per file. *)
Record request : Type := {
  url : string;
  method : string;
  data : Payload.t;
  resumes : list upload;
}.

(** What [fetch] resolves to: the status and the value the body parses to
    as JSON ([None] when the body is not JSON). *)
Record response : Type := {
  status : nat;
  body : option value;
}.

(** [response.ok]. *)
Definition ok (r : response) : bool :=
  (200 <=? status r)%nat && (status r <=? 299)%nat.

Inductive fetch_outcome : Type :=
  | Rejects (reason : string)
  | Resolves (r : response).

(** What can be thrown inside the [try] block.  [Error_ m] is
    [new Error(m)], with the operand [m] kept before its conversion to a
    string. *)
Inductive error : Type :=
  | FetchError (reason : string)
  | Error_ (message : value)
  | TypeError_.

(** The text of a toast: a literal, or [error.message || dflt]. *)
Inductive descr : Type :=
  | Lit (s : string)
  | MessageOr (e : error) (dflt : string).

Record toast_ : Type := {
  title : string;
  description : descr;
  variant : string;
}.

(** What the outside sees of a run, in order. *)
Inductive event : Type :=
  | Toasted (t : toast_)
  | Fetched (r : request)
  | Navigated (path : string)
  | ConsoleError (e : error).

(** [localStorage] and the observable events so far.  An entry holds a
    JSON text, kept as the value [JSON.parse] returns for it. *)
Record world : Type := {
  localStorage : gmap string value;
  events : list event;
}.

(** Computations on the world that may throw. *)
Inductive outcome (A : Type) : Type :=
  | Ok (a : A)
  | Throw (e : error).
Arguments Ok {A} a.
Arguments Throw {A} e.

Definition M (A : Type) : Type := world -> outcome A * world.

Definition ret {A} (a : A) : M A := fun w => (Ok a, w).

Definition bind {A B} (m : M A) (k : A -> M B) : M B :=
  fun w =>
    match m w with
    | (Ok a, w') => k a w'
    | (Throw e, w') => (Throw e, w')
    end.

Definition throw {A} (e : error) : M A := fun w => (Throw e, w).

(** [try { m } catch (error) { h error }]. *)
Definition try_catch {A} (m : M A) (h : error -> M A) : M A :=
  fun w =>
    match m w with
    | (Ok a, w') => (Ok a, w')
    | (Throw e, w') => h e w'
    end.

Declare Scope submit_scope.
Delimit Scope submit_scope with submit.
Notation "x <- m ;; k" := (bind m (fun x => k))
  (at level 100, m at next level, right associativity) : submit_scope.
Notation "m ;; k" := (bind m (fun _ => k))
  (at level 100, right associativity) : submit_scope.

Definition emit (e : event) : M unit :=
  fun w => (Ok tt, {| localStorage := localStorage w; events := events w ++ [e] |}).

Definition toast (t : toast_) : M unit := emit (Toasted t).
Definition navigate (path : string) : M unit := emit (Navigated path).
Definition console_error (e : error) : M unit := emit (ConsoleError e).

Definition getItem (k : string) : M (option value) :=
  fun w => (Ok (localStorage w !! k), w).

(** [localStorage.setItem(k, JSON.stringify(v))], [text] being what
    [JSON.stringify] returned.  For the [undefined] that it returns for a
    function, [setItem] stores the text ["undefined"], which is no JSON
    text; it is kept as [null], from which no reader of the two entries
    written this way tells it: the effect of the results view keeps its
    rows when [JSON.parse] throws as it does when the entry is [null].  No
    body that [response.json()] parsed holds a function. *)
Definition setItem (k : string) (text : option value) : M unit :=
  fun w => (Ok tt, {| localStorage := <[k := default VNull text]> (localStorage w);
                      events := events w |}).

(** A property read that throws on [null] and [undefined]. *)
Definition read (v : value) (k : string) : M value :=
  match get v k with
  | Some x => ret x
  | None => throw TypeError_
  end.

(** [await fetch(url, {method, body})]: the request leaves, then the call
    resolves or rejects as the network decides. *)
Definition fetch (r : request) (net : fetch_outcome) : M response :=
  bind (emit (Fetched r)) (fun _ =>
    match net with
    | Rejects reason => throw (FetchError reason)
    | Resolves resp => ret resp
    end).

(** [await response.json()], with the inner [catch] that rethrows. *)
Definition json (resp : response) : M value :=
  match body resp with
  | Some v => ret v
  | None => throw (Error_ (VStr "Server did not return JSON"))
  end.

(** [Number(localStorage.getItem("orgId") || 1)].  The text of an entry
    that holds [JSON.stringify(v)] converts to a number only when [v] is a
    finite number. *)
Definition orgIdFromStorage (entry : option value) : number :=
  match entry with
  | None => num_of_nat 1
  | Some (VNum (Fin q)) => Fin q
  | Some _ => NaN
  end.

(** [o?.k]. *)
Definition optional_read (o : value) (k : string) : value :=
  match o with
  | VUndef | VNull => VUndef
  | _ => default VUndef (get o k)
  end.

Definition endpoint : string :=
  "https://agentic-ai.co.in/api/agentic-ai/workflow-exe".

Definition jobPayload `{Engine} (orgId : number) (f : formData) : Payload.t := {|
  Payload.org_id := orgId;
  Payload.exe_name := requiredSkills f;
  Payload.workflow_id := "resume_ranker";
  Payload.job_description := sor (stripHtml (jobDescription f)) "No description";
  Payload.source := sor (source f) "";
|}.

(** The first guard of [handleSubmit]. *)
Definition missingInformation (f : formData) : bool :=
  negb (nonempty (jobTitle f)) || negb (truthy (jobType f))
  || negb (nonempty (jobDescription f)).

(** The second guard. *)
Definition missingResume (f : formData) : bool :=
  (length (resumeFiles f) =? 0)%nat.

Local Open Scope submit_scope.

Definition handleSubmit `{Engine} (f : formData) (net : fetch_outcome) : M unit :=
  if missingInformation f then
    toast {| title := "Missing Information";
             description := Lit "Please fill in all required fields before submitting.";
             variant := "destructive" |}
  else if missingResume f then
    toast {| title := "Missing Resume";
             description := Lit "Please upload at least one resume before submitting.";
             variant := "destructive" |}
  else
    try_catch
      (entry <- getItem "orgId" ;;
       let form := {| url := endpoint; method := "POST";
                      data := jobPayload (orgIdFromStorage entry) f;
                      resumes := List.filter instanceof_File (resumeFiles f) |} in
       resp <- fetch form net ;;
       result <- json resp ;;
       (if negb (ok resp) then
          m <- read result "message" ;;
          throw (Error_ (or_ m (VStr ("Upload failed with status "
                                        ++ digits (status resp)))))
        else ret tt) ;;
       d <- read result "data" ;;
       setItem "resumeResults"
         (stringify (or_ (optional_read d "result") (VArr []))) ;;
       setItem "keySkills"
         (stringify (VArr (map VStr (split "," (requiredSkills f))))) ;;
       navigate "/resumes" ;;
       toast {| title := "Success";
                description := Lit "Job submitted and resumes processed successfully.";
                variant := "default" |})
      (fun error =>
         console_error error ;;
         toast {| title := "Submission Error";
                  description := MessageOr error "An unexpected error occurred";
                  variant := "destructive" |}).

End App.

(** ** The results view, [ResumeList] *)

Module ResumeList.

(** A row of the list.  [experience] is a number by construction; the other
    fields hold whatever the upstream payload held when it was truthy. *)
Record resume : Type := {
  orgId : value;
  exeName : value;
  candidateId : nat;
  name : value;
  Rank : value;
  justification : value;
  experience : number;
  email : value;
  phone : value;
}.

(** The state of the component; the variables that are set nowhere and
    read nowhere but in a log ([storedSkills], [storedResumes], [error],
    [loading]) are left out. *)
Record state : Type := {
  resumes : list resume;
  searchQuery : string;
  scoreRange : number * number;
  experienceRange : number * number;
  filterEmail : bool;
  filterPhone : bool;
  userKeySkills : list value;
  caseId : value;
}.

Definition initialState : state := {|
  resumes := [];
  searchQuery := "";
  scoreRange := (num_of_nat 1, num_of_nat 10);
  experienceRange := (num_of_nat 0, num_of_nat 35);
  filterEmail := false;
  filterPhone := false;
  userKeySkills := [];
  caseId := VNull;
|}.

(** *** Loading the cached entries *)

(** The callback of [parsedResumes.result.map]; [None] is the TypeError of
    a property read on a [null] item. *)
Definition mapItem (parsedResumes : value) (index : nat) (item : value)
  : option resume :=
  id ← get parsedResumes "id";
  exe ← get parsedResumes "exe_name";
  n ← get item "name";
  sc ← get item "score";
  j ← get item "justification";
  ex ← get item "experience";
  em ← get item "email";
  ph ← get item "phone";
  Some {|
    orgId := id;
    exeName := exe;
    candidateId := index + 1;
    name := or_ n (VStr ("Candidate " ++ digits (index + 1)));
    Rank := or_ sc (VNum (num_of_nat 0));
    justification := or_ j (VStr "");
    experience := match ex with VNum x => x | _ => num_of_nat 0 end;
    email := if str_eq em "xxx" || negb (truthy em) then VStr "No email" else em;
    phone := if str_eq ph "xxx" || negb (truthy ph) then VStr "No phone" else ph;
  |}.

(** [items.map(f)] with the index passed to [f], from index [index] on;
    the first callback that throws ends the loop. *)
Fixpoint map_from (f : nat -> value -> option resume) (index : nat)
    (items : list value) : option (list resume) :=
  match items with
  | [] => Some []
  | item :: rest =>
      r ← f index item;
      rs ← map_from f (S index) rest;
      Some (r :: rs)
  end.

(** [stored ? JSON.parse(stored) : dflt] on an entry of the storage. *)
Definition parsed_or (entry : option value) (dflt : value) : value :=
  match entry with
  | Some v => v
  | None => dflt
  end.

(** The effect that runs once on mount, with its [try]/[catch]: what was
    set before a throw stays set. *)
Definition load (ls : gmap string value) (s : state) : state :=
  let parsedSkills := parsed_or (ls !! "keySkills") (VArr []) in
  let s1 := {|
    resumes := resumes s; searchQuery := searchQuery s;
    scoreRange := scoreRange s; experienceRange := experienceRange s;
    filterEmail := filterEmail s; filterPhone := filterPhone s;
    userKeySkills := match parsedSkills with VArr l => l | _ => [] end;
    caseId := caseId s |} in
  let parsedResumes := parsed_or (ls !! "resumeResults") VNull in
  if truthy parsedResumes then
    match get parsedResumes "result" with
    | Some (VArr items) =>
        match map_from (mapItem parsedResumes) 0 items with
        | Some mapped => {|
            resumes := mapped; searchQuery := searchQuery s1;
            scoreRange := scoreRange s1; experienceRange := experienceRange s1;
            filterEmail := filterEmail s1; filterPhone := filterPhone s1;
            userKeySkills := userKeySkills s1;
            caseId := default VUndef (get parsedResumes "id") |}
        | None => s1
        end
    | _ => s1
    end
  else s1.

(** *** The filters *)

(** [v.toLowerCase()]: a method of strings only; on any other value the
    call throws. *)
Definition lower `{Engine} (v : value) : option string :=
  match v with
  | VStr s => Some (toLowerCase s)
  | _ => None
  end.

(** [a || b] and [a && b] where evaluating an operand may throw; the
    right operand is evaluated only when the left one does not decide. *)
Definition orElse (a b : option value) : option value :=
  x ← a; if truthy x then Some x else b.
Definition andThen (a : value) (b : option value) : option value :=
  if truthy a then b else Some a.

(** [v && v.toLowerCase().includes(query)]. *)
Definition field_includes `{Engine} (v : value) (query : string) : option value :=
  andThen v (s ← lower v; Some (VBool (includes s query))).

Definition matchesSearch `{Engine} (query : string) (r : resume) : option value :=
  orElse (orElse (s ← lower (name r); Some (VBool (includes s query)))
                 (field_includes (email r) query))
         (field_includes (justification r) query).

(** [Number(resume.Rank) || 0]. *)
Definition rank `{Engine} (r : resume) : option number :=
  n ← Number_ (Rank r);
  Some (if num_truthy n then n else num_of_nat 0).

Definition in_range (x : number) (range : number * number) : bool :=
  num_ge x (fst range) && num_le x (snd range).

(** [toggle ? v && v !== placeholder : true]. *)
Definition has_contact (toggle : bool) (v : value) (placeholder : string) : value :=
  if toggle then and_ v (VBool (negb (str_eq v placeholder))) else VBool true.

(** The callback of [resumes.filter]; [None] when it throws. *)
Definition keep `{Engine} (st : state) (r : resume) : option bool :=
  let query := trim (toLowerCase (searchQuery st)) in
  rk ← rank r;
  ms ← matchesSearch query r;
  let inScoreRange := in_range rk (scoreRange st) in
  let inExperienceRange := in_range (experience r) (experienceRange st) in
  let hasEmail := has_contact (filterEmail st) (email r) "No email" in
  let hasPhone := has_contact (filterPhone st) (phone r) "No phone" in
  Some (truthy (and_ (and_ (and_ (and_ ms (VBool inScoreRange))
                                 (VBool inExperienceRange)) hasEmail) hasPhone)).

(** [l.filter(f)]: the elements kept, in the order of [l]; a callback that
    throws ends the call. *)
Fixpoint filter_ (f : resume -> option bool) (l : list resume)
  : option (list resume) :=
  match l with
  | [] => Some []
  | r :: rest =>
      b ← f r;
      rs ← filter_ f rest;
      Some (if (b : bool) then r :: rs else rs)
  end.

(** The value the [useMemo] callback computes from the state. *)
Definition filteredResumes `{Engine} (st : state) : option (list resume) :=
  filter_ (keep st) (resumes st).

(** *** The memo and the renders

    [useMemo] keeps the value of the callback with the dependencies it was
    computed for, and computes it again when a dependency has changed. *)

(** The dependency array: [scoreRange, experienceRange, filterEmail,
    filterPhone, resumes]. *)
Record deps : Type := {
  d_scoreRange : number * number;
  d_experienceRange : number * number;
  d_filterEmail : bool;
  d_filterPhone : bool;
  d_resumes : list resume;
}.

Definition deps_of (st : state) : deps := {|
  d_scoreRange := scoreRange st;
  d_experienceRange := experienceRange st;
  d_filterEmail := filterEmail st;
  d_filterPhone := filterPhone st;
  d_resumes := resumes st;
|}.

Record memo : Type := {
  memo_deps : deps;
  memo_value : option (list resume);
}.

(** One call of [useMemo] during a render.  The dependencies are compared
    by identity, which the model does not track: the kept value may be
    used again only when the dependencies have the same content, and the
    callback may run in any case. *)
Inductive useMemo `{Engine} (prev : option memo) (st : state) : memo -> Prop :=
  | memo_compute :
      useMemo prev st {| memo_deps := deps_of st;
                         memo_value := filteredResumes st |}
  | memo_reuse (m : memo) :
      prev = Some m -> memo_deps m = deps_of st -> useMemo prev st m.

(** The state changes the component can make: the effect on mount, the two
    sliders and the two check boxes.  Nothing in the component calls
    [setSearchQuery]. *)
Inductive action : Type :=
  | Mount (ls : gmap string value)
  | SetScoreRange (values : number * number)
  | SetExperienceRange (values : number * number)
  | ToggleEmail
  | TogglePhone.

Definition update (a : action) (s : state) : state :=
  match a with
  | Mount ls => load ls s
  | SetScoreRange values => {|
      resumes := resumes s; searchQuery := searchQuery s;
      scoreRange := values; experienceRange := experienceRange s;
      filterEmail := filterEmail s; filterPhone := filterPhone s;
      userKeySkills := userKeySkills s; caseId := caseId s |}
  | SetExperienceRange values => {|
      resumes := resumes s; searchQuery := searchQuery s;
      scoreRange := scoreRange s; experienceRange := values;
      filterEmail := filterEmail s; filterPhone := filterPhone s;
      userKeySkills := userKeySkills s; caseId := caseId s |}
  | ToggleEmail => {|
      resumes := resumes s; searchQuery := searchQuery s;
      scoreRange := scoreRange s; experienceRange := experienceRange s;
      filterEmail := negb (filterEmail s); filterPhone := filterPhone s;
      userKeySkills := userKeySkills s; caseId := caseId s |}
  | TogglePhone => {|
      resumes := resumes s; searchQuery := searchQuery s;
      scoreRange := scoreRange s; experienceRange := experienceRange s;
      filterEmail := filterEmail s; filterPhone := negb (filterPhone s);
      userKeySkills := userKeySkills s; caseId := caseId s |}
  end.

(** The states and memos the component goes through, render after
    render. *)
Inductive rendered `{Engine} : state -> memo -> Prop :=
  | first_render (m : memo) :
      useMemo None initialState m -> rendered initialState m
  | next_render (s : state) (m : memo) (a : action) (m' : memo) :
      rendered s m -> useMemo (Some m) (update a s) m' ->
      rendered (update a s) m'.

(** *** The key-skill chips *)

Inductive chip : Type :=
  | Skill (text : value)
  | NoKeySkills.

Definition renderKeySkills (skills : list value) : list chip :=
  if (0 <? length skills)%nat then map Skill skills else [NoKeySkills].

End ResumeList.

(** ** An engine to run the examples on

    A small stand-in for the browser.  Of the strings it converts the
    unsigned decimal integers and takes every other string as not numeric;
    it lower-cases the ASCII letters; of the markup it parses text and
    well-nested tags, skipping attributes, and of the character references
    it decodes [&lt;], [&gt;] and [&amp;], leaving any other as text.  The
    theorems hold for every engine; this one evaluates the program on the
    inputs of the examples, which stay within these limits. *)

Module Sample.

Definition lower_char (c : ascii) : ascii :=
  let n := nat_of_ascii c in
  if (65 <=? n)%nat && (n <=? 90)%nat then ascii_of_nat (n + 32) else c.

Fixpoint ascii_lower (s : string) : string :=
  match s with
  | EmptyString => EmptyString
  | String c r => String (lower_char c) (ascii_lower r)
  end.

Definition is_letter (c : ascii) : bool :=
  let n := nat_of_ascii c in
  between 65 90 n || between 97 122 n.

Definition is_digit (c : ascii) : bool := between 48 57 (nat_of_ascii c).

(** The white space of HTML. *)
Definition is_space (c : ascii) : bool :=
  existsb (Nat.eqb (nat_of_ascii c)) [9; 10; 12; 13; 32].

Inductive token : Type :=
  | TChar (c : ascii)
  | TOpen (name : string)
  | TClose (name : string).

(** The states of the tokenizer: in text, after ["<"], after ["</"], in a
    tag name, in the rest of a tag, in markup that is skipped up to [">"],
    in a character reference after ["&"]. *)
Inductive lexer : Type :=
  | Data
  | TagOpen
  | EndTagOpen
  | TagName (closing : bool) (acc : string)
  | Attrs (closing : bool) (name : string)
  | Skip
  | Reference (acc : string).

(** The character that a reference names. *)
Definition named (name : string) : option ascii :=
  if String.eqb name "lt" then Some "<"%char
  else if String.eqb name "gt" then Some ">"%char
  else if String.eqb name "amp" then Some "&"%char
  else None.

Definition tag_token (closing : bool) (name : string) : token :=
  if closing then TClose name else TOpen name.

Definition snoc (s : string) (c : ascii) : string :=
  String.append s (String c EmptyString).

(** The characters of a string, as text. *)
Definition literal (s : string) : list token :=
  map TChar (list_ascii_of_string s).

Fixpoint lex (st : lexer) (s : string) : list token :=
  match s with
  | EmptyString =>
      match st with
      | TagOpen => [TChar "<"]
      | EndTagOpen => [TChar "<"; TChar "/"]
      | Reference acc => literal (String "&" acc)
      | _ => []
      end
  | String c r =>
      match st with
      | Data =>
          if Ascii.eqb c "<" then lex TagOpen r
          else if Ascii.eqb c "&" then lex (Reference EmptyString) r
          else TChar c :: lex Data r
      | Reference acc =>
          if Ascii.eqb c ";" then
            match named acc with
            | Some ch => TChar ch :: lex Data r
            | None => literal (String "&" (snoc acc c)) ++ lex Data r
            end
          else if is_letter c then lex (Reference (snoc acc c)) r
          else
            literal (String "&" acc)
            ++ (if Ascii.eqb c "<" then lex TagOpen r
                else if Ascii.eqb c "&" then lex (Reference EmptyString) r
                else TChar c :: lex Data r)
      | TagOpen =>
          if is_letter c then lex (TagName false (String (lower_char c) EmptyString)) r
          else if Ascii.eqb c "/" then lex EndTagOpen r
          else if Ascii.eqb c "!" then lex Skip r
          else if Ascii.eqb c "<" then TChar "<" :: lex TagOpen r
          else TChar "<" :: TChar c :: lex Data r
      | EndTagOpen =>
          if is_letter c then lex (TagName true (String (lower_char c) EmptyString)) r
          else if Ascii.eqb c ">" then lex Data r
          else lex Skip r
      | TagName closing acc =>
          if Ascii.eqb c ">" then tag_token closing acc :: lex Data r
          else if is_space c || Ascii.eqb c "/" then lex (Attrs closing acc) r
          else lex (TagName closing (snoc acc (lower_char c))) r
      | Attrs closing name =>
          if Ascii.eqb c ">" then tag_token closing name :: lex Data r
          else lex (Attrs closing name) r
      | Skip =>
          if Ascii.eqb c ">" then lex Data r else lex Skip r
      end
  end.

Definition void_elements : list string :=
  ["area"; "base"; "br"; "col"; "embed"; "hr"; "img"; "input"; "link";
   "meta"; "source"; "track"; "wbr"].

Definition is_void (name : string) : bool :=
  existsb (String.eqb name) void_elements.

(** An open element: its name and, last first, the nodes before it in its
    parent. *)
Definition frame : Type := string * list node.

(** Add a character to the children built so far (last first). *)
Definition add_char (c : ascii) (cur : list node) : list node :=
  match cur with
  | Text d :: r => Text (snoc d c) :: r
  | _ => Text (String c EmptyString) :: cur
  end.

(** Close open elements up to and including the innermost one named
    [name]. *)
Fixpoint close_to (name : string) (stack : list frame) (cur : list node)
  : list frame * list node :=
  match stack with
  | [] => ([], cur)
  | (t, before) :: rest =>
      let cur' := Element t (rev cur) :: before in
      if String.eqb t name then (rest, cur') else close_to name rest cur'
  end.

Fixpoint close_all (stack : list frame) (cur : list node) : list node :=
  match stack with
  | [] => cur
  | (t, before) :: rest => close_all rest (Element t (rev cur) :: before)
  end.

Fixpoint build (ts : list token) (stack : list frame) (cur : list node)
  : list node :=
  match ts with
  | [] => rev (close_all stack cur)
  | TChar c :: r => build r stack (add_char c cur)
  | TOpen n :: r =>
      if is_void n then build r stack (Element n [] :: cur)
      else build r ((n, cur) :: stack) []
  | TClose n :: r =>
      if existsb (String.eqb n) (map fst stack)
      then let '(stack', cur') := close_to n stack cur in build r stack' cur'
      else build r stack cur
  end.

Definition parse (html : string) : list node := build (lex Data html) [] [].

(** Decimal digits to a natural number. *)
Fixpoint number_of_digits (acc : nat) (s : string) : option nat :=
  match s with
  | EmptyString => Some acc
  | String c r =>
      if is_digit c then number_of_digits (10 * acc + (nat_of_ascii c - 48)) r
      else None
  end.

Definition integer (s : string) : number :=
  match number_of_digits 0 (trim s) with
  | Some n => num_of_nat n
  | None => NaN
  end.

(** The conversion of [v] to a string throws: an own [toString], which
    no parsed value can make callable, hides the built-in one. *)
Fixpoint unprintable (v : value) : bool :=
  match v with
  | VObj props =>
      match own props "toString" with
      | Some _ => true
      | None => false
      end
  | VArr items => existsb unprintable items
  | _ => false
  end.

(** [Number] on the arrays and objects of parsed JSON: an array converts
    as its elements joined by commas do, so only an array of at most one
    element can give a number; an object converts as ["[object Object]"]
    does. *)
Fixpoint of_object (v : value) : option number :=
  if unprintable v then None
  else
    match v with
    | VArr [] => Some (num_of_nat 0)
    | VArr [item] =>
        match item with
        | VUndef | VNull => Some (num_of_nat 0)
        | VNum n => Some n
        | VStr s => Some (integer s)
        | VArr _ => of_object item
        | _ => Some NaN
        end
    | _ => Some NaN
    end.

Definition engine : Engine := {|
  StringToNumber := integer;
  ObjectToNumber := of_object;
  parseFragment := parse;
  lowerCase := ascii_lower;
|}.

(** A complete form, an empty world, and two upstream bodies: one whose
    [data.result] wraps the candidates in an object, one whose
    [data.result] is the bare list. *)
Definition form : App.formData := {|
  App.jobTitle := "Engineer";
  App.yearsOfExperience := "3";
  App.jobType := VStr "fulltime";
  App.industry := "";
  App.requiredSkills := "";
  App.jobDescription := "<p>Build <b>things</b></p>";
  App.resumeFiles := [App.File "cv.pdf"];
  App.source := "";
|}.

(** The same form with a description that is markup only. *)
Definition form_br : App.formData := {|
  App.jobTitle := "Engineer";
  App.yearsOfExperience := "3";
  App.jobType := VStr "fulltime";
  App.industry := "";
  App.requiredSkills := "";
  App.jobDescription := "<p><br></p>";
  App.resumeFiles := [App.File "cv.pdf"];
  App.source := "";
|}.

(** The same form with a description whose markup is written with
    character references, as a rich-text editor keeps markup that was typed
    as text. *)
Definition form_typed : App.formData := {|
  App.jobTitle := "Engineer";
  App.yearsOfExperience := "3";
  App.jobType := VStr "fulltime";
  App.industry := "";
  App.requiredSkills := "";
  App.jobDescription := "<p>&lt;b&gt;bold&lt;/b&gt;</p>";
  App.resumeFiles := [App.File "cv.pdf"];
  App.source := "";
|}.

Definition world : App.world := {|
  App.localStorage := ∅;
  App.events := [];
|}.

Definition candidates : list value :=
  [VObj [("name", VStr "Ann"); ("score", VNum (num_of_nat 9));
         ("email", VStr "xxx")];
   VObj [("experience", VStr "five"); ("phone", VStr "555")]].

Definition wrapped : value :=
  VObj [("data", VObj [("result",
     VObj [("id", VNum (num_of_nat 7)); ("exe_name", VStr "sql");
           ("result", VArr candidates)])])].

Definition bare : value :=
  VObj [("data", VObj [("result", VArr candidates)])].

(** The entry the first body leaves in the storage, and the results view
    after loading it. *)
Definition entry : value :=
  VObj [("id", VNum (num_of_nat 7)); ("exe_name", VStr "sql");
        ("result", VArr candidates)].

Definition loaded : ResumeList.state :=
  ResumeList.load (<["resumeResults" := entry]> ∅) ResumeList.initialState.

Definition respond (result : value) : App.fetch_outcome :=
  App.Resolves {| App.status := 200; App.body := Some result |}.

End Sample.

Import App ResumeList.

(** ** The vocabulary of the properties *)

Module Spec.

(** The required fields are filled in and a file is uploaded. *)
Definition complete (f : formData) : Prop :=
  jobTitle f <> "" /\ truthy (jobType f) = true
  /\ jobDescription f <> "" /\ resumeFiles f <> [].

(** The request [handleSubmit] builds from the form and the storage. *)
Definition request_of `{Engine} (w : world) (f : formData) : request := {|
  url := endpoint;
  method := "POST";
  data := jobPayload (orgIdFromStorage (localStorage w !! "orgId")) f;
  App.resumes := List.filter instanceof_File (resumeFiles f);
|}.

(** The toast of the [catch] branch. *)
Definition submissionError (e : error) : toast_ := {|
  title := "Submission Error";
  description := MessageOr e "An unexpected error occurred";
  variant := "destructive";
|}.

(** The call to [fetch] throws, or the body is not JSON, or the status is
    not ok. *)
Definition failed (net : fetch_outcome) : Prop :=
  match net with
  | Rejects _ => True
  | Resolves r => body r = None \/ ok r = false
  end.

(** The error a failed call ends with. *)
Definition failure (net : fetch_outcome) : error :=
  match net with
  | Rejects reason => FetchError reason
  | Resolves r =>
      match body r with
      | None => Error_ (VStr "Server did not return JSON")
      | Some result =>
          match get result "message" with
          | Some m =>
              Error_ (or_ m (VStr ("Upload failed with status "
                                     ++ digits (status r))))
          | None => TypeError_
          end
      end
  end.

(** The response is ok and its body is the JSON value [result]. *)
Definition succeeded (net : fetch_outcome) (result : value) : Prop :=
  exists r, net = Resolves r /\ ok r = true /\ body r = Some result.

(** The entry that [setItem(k, JSON.stringify(v))] leaves under [k]. *)
Definition cached (v : value) : value := default VNull (stringify v).

(** What a run appended to the events. *)
Definition emitted `{Engine} (f : formData) (net : fetch_outcome) (w : world)
  : list event :=
  drop (length (events w)) (events (snd (handleSubmit f net w))).

(** The pieces put back together with the separator between them. *)
Fixpoint join (sep : ascii) (l : list string) : string :=
  match l with
  | [] => EmptyString
  | [x] => x
  | x :: rest => String.append x (String sep (join sep rest))
  end.

(** The number of occurrences of a character. *)
Fixpoint occurrences (c : ascii) (s : string) : nat :=
  match s with
  | EmptyString => 0
  | String a r => (if Ascii.eqb a c then 1 else 0) + occurrences c r
  end.

(** The order of the numbers: NaN is related to nothing. *)
Inductive le : number -> number -> Prop :=
  | le_fin (x y : Q) : (x <= y)%Q -> le (Fin x) (Fin y)
  | le_neg (b : number) : b <> NaN -> le NegInf b
  | le_pos (a : number) : a <> NaN -> le a PosInf.

(** [x] lies in the range, bounds included. *)
Definition within (x : number) (range : number * number) : Prop :=
  le (fst range) x /\ le x (snd range).

(** The text field holds a string which, in lower case, has the trimmed
    lower-case query somewhere inside. *)
Definition contains `{Engine} (field : value) (searchQuery : string) : Prop :=
  exists s before after : string,
    field = VStr s
    /\ toLowerCase s
       = String.append before
           (String.append (trim (toLowerCase searchQuery)) after).

(** The same with the field taken as it is, in whatever case. *)
Definition contains_verbatim `{Engine} (field : value) (searchQuery : string) : Prop :=
  exists s before after : string,
    field = VStr s
    /\ s = String.append before
             (String.append (trim (toLowerCase searchQuery)) after).

(** A contact field is present: it is not empty and not the placeholder
    that stands for a missing one. *)
Definition present (v : value) (placeholder : string) : Prop :=
  truthy v = true /\ v <> VStr placeholder.

(** The numeric score of a row: the number its [Rank] converts to, and 0
    when that is not a number.  There is none when the conversion
    throws. *)
Definition score `{Engine} (r : resume) : option number :=
  n ← Number_ (Rank r);
  Some (match n with
        | NaN => num_of_nat 0
        | _ => n
        end).

(** A row as the data model has it: name, justification and email are
    text and the score is a number. *)
Definition typed (r : resume) : Prop :=
  (exists s, name r = VStr s)
  /\ (exists x, Rank r = VNum x /\ x <> NaN)
  /\ (exists s, justification r = VStr s)
  /\ (exists s, email r = VStr s).

(** An upstream field that holds text, or a number, when it is there. *)
Definition text_or_absent (o : option value) : Prop :=
  o = Some VUndef \/ o = Some VNull \/ exists s, o = Some (VStr s).

Definition number_or_absent (o : option value) : Prop :=
  o = Some VUndef \/ o = Some VNull \/ exists x, o = Some (VNum x).

(** An upstream item as the data model has it. *)
Definition well_formed (item : value) : Prop :=
  text_or_absent (get item "name")
  /\ number_or_absent (get item "score")
  /\ text_or_absent (get item "justification")
  /\ text_or_absent (get item "email").

(** A row on which the filter callback does not throw: its name is text,
    its score converts to a number, and its email and its justification are
    text when they are truthy. *)
Definition searchable `{Engine} (r : resume) : Prop :=
  (exists s, name r = VStr s)
  /\ (exists n, Number_ (Rank r) = Some n)
  /\ (truthy (email r) = true -> exists s, email r = VStr s)
  /\ (truthy (justification r) = true -> exists s, justification r = VStr s).

(** The four filters. *)
Definition matches_text `{Engine} (st : state) (r : resume) : Prop :=
  contains (name r) (searchQuery st)
  \/ contains (email r) (searchQuery st)
  \/ contains (justification r) (searchQuery st).

Definition score_in_range `{Engine} (st : state) (r : resume) : Prop :=
  exists x, score r = Some x /\ within x (scoreRange st).

Definition experience_in_range (st : state) (r : resume) : Prop :=
  within (experience r) (experienceRange st).

Definition contacts_present (st : state) (r : resume) : Prop :=
  (filterEmail st = true -> present (email r) "No email")
  /\ (filterPhone st = true -> present (phone r) "No phone").

Definition passes `{Engine} (st : state) (r : resume) : Prop :=
  matches_text st r /\ score_in_range st r
  /\ experience_in_range st r /\ contacts_present st r.

(** The stripping as the specification words it, in one pass: every [p],
    [div], [br] and [li] element gets a space after its content, and the
    text of the tree is what is left when the tags are removed. *)
Fixpoint spaced (n : node) : node :=
  match n with
  | Element t cs =>
      Element t (map spaced cs
                 ++ (if existsb (String.eqb t) blockTags then [Text " "] else []))
  | other => other
  end.

Definition stripped `{Engine} (html : string) : string :=
  trim (textContent (Element "div" (map spaced (parseFragment html)))).

Definition is_fetch (e : event) : bool :=
  match e with Fetched _ => true | _ => false end.

Definition is_navigation (e : event) : bool :=
  match e with Navigated _ => true | _ => false end.

End Spec.

Import Spec.

(** ** The rows as they are displayed *)

Module Display.

Definition getRankLabel (score : value) : string := "".

(** The experience cell: [`${experience} yrs`], or the word ["null"]. *)
Inductive experience_text : Type :=
  | Years (e : number)
  | NullWord.

(** What the [li] of a row shows, cell by cell, and its React key. *)
Record row : Type := {
  key : nat;
  name_cell : value;
  score_cell : value * string;
  experience_cell : experience_text;
  phone_cell : value;
  email_cell : value;
  justification_cell : value;
}.

Definition renderRow (r : resume) : row := {|
  key := candidateId r;
  name_cell := name r;
  score_cell := (Rank r, getRankLabel (Rank r));
  experience_cell :=
    if num_truthy (experience r) then Years (experience r) else NullWord;
  phone_cell := or_ (phone r) (VStr "No phone");
  email_cell := or_ (email r) (VStr "No email");
  justification_cell := justification r;
|}.

(** The list: ["No resumes found."] or one [li] per row of the view. *)
Inductive list_view : Type :=
  | NoResumesFound
  | Rows (rows : list row).

Definition renderList (view : list resume) : list_view :=
  if (length view =? 0)%nat then NoResumesFound else Rows (map renderRow view).

(** ["Showing N of M resumes"]. *)
Definition showing (view all : list resume) : nat * nat :=
  (length view, length all).

(** [{caseId && <div>Case ID: {caseId}</div>}]: the badge, or the falsy
    value itself. *)
Inductive badge : Type :=
  | CaseId (id : value)
  | NoBadge (falsy : value).

Definition renderCaseId (caseId : value) : badge :=
  if truthy caseId then CaseId caseId else NoBadge caseId.

(** What React does with a value that it is given as a child: text and
    numbers are shown; [null], [undefined], a boolean and a function show
    nothing; the items of an array are children in their turn; any other
    object makes the render throw. *)
Fixpoint renders (v : value) : bool :=
  match v with
  | VObj _ => false
  | VArr items => forallb renders items
  | _ => true
  end.

(** The values a row gives to React as children; the experience cell and
    the rank label are text. *)
Definition cells (c : row) : list value :=
  [name_cell c; fst (score_cell c); phone_cell c; email_cell c;
   justification_cell c].

(** The values among the children of what the component returns: the key
    skills, the case id and the cells of the rows; the others are numbers
    and literal text. *)
Definition children (s : state) (view : list resume) : list value :=
  userKeySkills s ++ caseId s :: flat_map (fun r => cells (renderRow r)) view.

(** What is on the screen after a render. *)
Record screen : Type := {
  key_skills : list chip;
  case_id : badge;
  stats : nat * nat;
  resume_list : list_view;
}.

(** The render of the component with the filtered view [view]; [None] when
    React throws on a child. *)
Definition render (s : state) (view : list resume) : option screen :=
  if forallb renders (children s view) then
    Some {| key_skills := renderKeySkills (userKeySkills s);
            case_id := renderCaseId (caseId s);
            stats := showing view (resumes s);
            resume_list := renderList view |}
  else None.

End Display.

Import Display.

(** ** More vocabulary *)

Module Behaviour.

(** The toasts among the events. *)
Definition is_toast (e : event) : bool :=
  match e with Toasted _ => true | _ => false end.

(** A string starts, or ends, with a white-space character. *)
Definition starts_white (s : string) : Prop :=
  strip_one white_space s <> None.

Definition ends_white (s : string) : Prop :=
  strip_one (map (@rev nat) white_space) (reverse s) <> None.

(** The character occurs in the string. *)
Fixpoint occurs (c : ascii) (s : string) : bool :=
  match s with
  | EmptyString => false
  | String a r => Ascii.eqb a c || occurs c r
  end.

(** The [p], [div], [br] and [li] elements in a tree. *)
Fixpoint blocks (n : node) : nat :=
  match n with
  | Element t cs =>
      (if existsb (String.eqb t) blockTags then 1 else 0)
      + fold_right (fun c acc => blocks c + acc) 0 cs
  | _ => 0
  end.

(** [stripHtml] with the loop run over [tags] instead of [blockTags]. *)
Definition stripHtml_over `{Engine} (tags : list string) (html : string) : string :=
  let div := Element "div" (parseFragment html) in
  let div := fold_left (fun d tag => appendSpaceBelow tag d) tags div in
  trim (sor (textContent div) (sor (innerText div) "")).

(** The text of a list of sibling nodes. *)
Definition text_of (cs : list node) : string :=
  fold_right (fun c acc => String.append (textContent c) acc) EmptyString cs.

Definition blocks_of (cs : list node) : nat :=
  fold_right (fun c acc => blocks c + acc) 0 cs.

(** The characters of a string. *)
Fixpoint chars (s : string) : list ascii :=
  match s with
  | EmptyString => []
  | String c r => c :: chars r
  end.

(** The filters of [s2] are at least as strict as those of [s1], on the
    same rows and query: every check box ticked in [s1] is ticked in [s2]
    and each range of [s2] lies inside the one of [s1]. *)
Definition narrower (s1 s2 : state) : Prop :=
  resumes s2 = resumes s1
  /\ searchQuery s2 = searchQuery s1
  /\ (filterEmail s1 = true -> filterEmail s2 = true)
  /\ (filterPhone s1 = true -> filterPhone s2 = true)
  /\ le (fst (scoreRange s1)) (fst (scoreRange s2))
  /\ le (snd (scoreRange s2)) (snd (scoreRange s1))
  /\ le (fst (experienceRange s1)) (fst (experienceRange s2))
  /\ le (snd (experienceRange s2)) (snd (experienceRange s1)).

(** The React keys of a list of rows. *)
Definition keys (l : list resume) : list nat := map candidateId l.

(** The score range of the state starts at 1 or above. *)
Definition from_one (s : state) : Prop :=
  le (num_of_nat 1) (fst (scoreRange s)).

(** A state change that does not take the score range below 1: every one
    but a [setScoreRange] with a lower value under 1. *)
Definition keeps_from_one (a : action) : Prop :=
  match a with
  | SetScoreRange values => le (num_of_nat 1) (fst values)
  | _ => True
  end.

End Behaviour.

Import Behaviour.

(** * Properties *)

(** ** The functions of the model on small inputs *)

Section Examples.

Example decode_escape : decodeURIComponent "Full%20time" = Some "Full time".
Proof. reflexivity. Qed.

Example decode_malformed : decodeURIComponent "100%" = None.
Proof. reflexivity. Qed.

Example decode_utf8 :
  decodeURIComponent "caf%C3%A9" = Some (String.append "caf" (bytes [195; 169])).
Proof. reflexivity. Qed.

Example decode_truncated_utf8 : decodeURIComponent "%C3" = None.
Proof. reflexivity. Qed.

Example decodeSafe_malformed : decodeSafe "%zz" = "".
Proof. reflexivity. Qed.

Example split_empty : split "," "" = [""].
Proof. reflexivity. Qed.

Example split_keeps_empty_pieces :
  split "," "react, node,,sql," = ["react"; " node"; ""; "sql"; ""].
Proof. reflexivity. Qed.

Example trim_both_ends : trim "  Full time  " = "Full time".
Proof. reflexivity. Qed.

Example trim_no_break_space :
  trim (String.append (bytes [194; 160]) (String.append "a b" (bytes [32; 226; 128; 137; 10])))
  = "a b".
Proof. reflexivity. Qed.

Example trim_all_white : trim "   " = "".
Proof. reflexivity. Qed.

Example digits_12 : digits 12 = "12".
Proof. reflexivity. Qed.

Example includes_inside : includes "no email" "ema" = true.
Proof. reflexivity. Qed.

Example includes_absent : includes "ann" "bob" = false.
Proof. reflexivity. Qed.

Example toLowerCase_letters :
  @toLowerCase Sample.engine "Ann@X.org" = "ann@x.org".
Proof. reflexivity. Qed.

Example stringify_not_finite :
  stringify (VObj [("score", VNum PosInf); ("experience", VNum (num_of_nat 3));
                   ("tags", VArr [VUndef; VStr "a"]); ("note", VUndef)])
  = Some (VObj [("score", VNull); ("experience", VNum (num_of_nat 3));
                ("tags", VArr [VNull; VStr "a"])]).
Proof. reflexivity. Qed.

Example stringify_function : stringify (VNative "Object") = None.
Proof. reflexivity. Qed.

Example get_own : get (VObj [("id", VNum (num_of_nat 7))]) "id" = Some (VNum (num_of_nat 7)).
Proof. reflexivity. Qed.

Example get_absent : get (VObj [("id", VNum (num_of_nat 7))]) "name" = Some VUndef.
Proof. reflexivity. Qed.

Example get_on_array : get (VArr [VNull]) "result" = Some VUndef.
Proof. reflexivity. Qed.

Example get_on_null : get VNull "data" = None.
Proof. reflexivity. Qed.

Example mappedJobType_full_time : mappedJobType (Some " Full%20time ") = VStr "fulltime".
Proof. reflexivity. Qed.

Example mappedJobType_unknown : mappedJobType (Some "Remote") = VStr "".
Proof. reflexivity. Qed.

Example mappedJobType_absent : mappedJobType None = VStr "".
Proof. reflexivity. Qed.

Example parse_rich_text :
  Sample.parse "<p>Hello <b>world</b></p><p><br></p><ul><li>a</li><li>b</li></ul>"
  = [Element "p" [Text "Hello "; Element "b" [Text "world"]];
     Element "p" [Element "br" []];
     Element "ul" [Element "li" [Text "a"]; Element "li" [Text "b"]]].
Proof. reflexivity. Qed.

Example stripHtml_rich_text :
  @stripHtml Sample.engine
    "<p>Hello <b>world</b></p><p><br></p><ul><li>a</li><li>b</li></ul>"
  = "Hello world   a b".
Proof. reflexivity. Qed.

Example stripHtml_empty_editor : @stripHtml Sample.engine "<p><br></p>" = "".
Proof. reflexivity. Qed.

Example parse_references :
  Sample.parse "<p>a &amp; b &lt;i&gt; &copy; &</p>"
  = [Element "p" [Text "a & b <i> &copy; &"]].
Proof. reflexivity. Qed.

Example loaded_rows :
  resumes Sample.loaded
  = [ {| orgId := VNum (num_of_nat 7); exeName := VStr "sql";
         candidateId := 1; name := VStr "Ann";
         Rank := VNum (num_of_nat 9); justification := VStr "";
         experience := num_of_nat 0; email := VStr "No email";
         phone := VStr "No phone" |};
      {| orgId := VNum (num_of_nat 7); exeName := VStr "sql";
         candidateId := 2; name := VStr "Candidate 2";
         Rank := VNum (num_of_nat 0); justification := VStr "";
         experience := num_of_nat 0; email := VStr "No email";
         phone := VStr "555" |} ].
Proof. vm_compute. reflexivity. Qed.

End Examples.

(** ** The defaults taken from the URL *)

Section UrlDefaults.

(** The five labels map to their enum values. *)
Lemma mappedJobType_labels (p : option string) :
  (jobTypeLabel p = "Full time" -> mappedJobType p = VStr "fulltime")
  /\ (jobTypeLabel p = "Part time" -> mappedJobType p = VStr "parttime")
  /\ (jobTypeLabel p = "Contract" -> mappedJobType p = VStr "contract")
  /\ (jobTypeLabel p = "Freelance" -> mappedJobType p = VStr "freelance")
  /\ (jobTypeLabel p = "Internship" -> mappedJobType p = VStr "internship").
Proof.
  unfold mappedJobType.
  repeat split; intros ->; reflexivity.
Qed.

(** A label that is neither one of the five nor a property name of
    [Object.prototype] maps to the empty string. *)
Lemma mappedJobType_other (p : option string) :
  ~ In (jobTypeLabel p)
       ["Full time"; "Part time"; "Contract"; "Freelance"; "Internship"] ->
  Object_prototype (jobTypeLabel p) = None ->
  mappedJobType p = VStr "".
Proof.
  intros Hnot Hproto. unfold mappedJobType, jobTypeMap, get.
  assert (Hown : forall k v rest,
             k <> jobTypeLabel p ->
             own ((k, v) :: rest) (jobTypeLabel p) = own rest (jobTypeLabel p)).
  { intros k v rest Hne. simpl.
    destruct (String.eqb_spec k (jobTypeLabel p)); [contradiction | reflexivity]. }
  rewrite !Hown by (intros Heq; apply Hnot; rewrite <- Heq; simpl; tauto).
  simpl. rewrite Hproto. reflexivity.
Qed.

(** C7, at [?jobtype=constructor]: the lookup in the object literal
    [jobTypeMap] finds the inherited property [constructor], a truthy
    value, so the job type put into the form state is the built-in
    function [Object], neither one of the five enum values nor the empty
    string. *)
Theorem C7_jobtype_inherited_property :
  jobTypeLabel (Some "constructor") = "constructor"
  /\ mappedJobType (Some "constructor") = VNative "Object"
  /\ jobType (populateFromUrl
                {| p_skills := None; p_job := None; p_yoe := None;
                   p_jobtitle := None; p_jobtype := Some "constructor";
                   p_source := None |} initialFormData)
     = VNative "Object"
  /\ ~ In (mappedJobType (Some "constructor"))
         [VStr "fulltime"; VStr "parttime"; VStr "contract";
          VStr "freelance"; VStr "internship"; VStr ""].
Proof.
  repeat split; try reflexivity.
  simpl. intros H.
  repeat (destruct H as [H | H]; [discriminate H |]). exact H.
Qed.

End UrlDefaults.

(** ** What is written to the storage *)

Section Json.

(** Induction on a value, with the hypothesis for every item of an array
    and for the value of every property of an object. *)
Lemma value_induction (P : value -> Prop) :
  P VUndef -> P VNull -> (forall b, P (VBool b)) -> (forall n, P (VNum n)) ->
  (forall s, P (VStr s)) ->
  (forall items, Forall P items -> P (VArr items)) ->
  (forall props, Forall (fun kv => P (snd kv)) props -> P (VObj props)) ->
  (forall nm, P (VNative nm)) ->
  forall v, P v.
Proof.
  intros H1 H2 H3 H4 H5 H6 H7 H8.
  fix IH 1. intros [| | b | n | s | items | props | nm].
  - exact H1.
  - exact H2.
  - apply H3.
  - apply H4.
  - apply H5.
  - apply H6. induction items as [| x items IHi]; constructor; [apply IH | exact IHi].
  - apply H7. induction props as [| [k x] props IHp]; constructor; [apply IH | exact IHp].
  - apply H8.
Qed.

Lemma unique_spec (l : list string) : unique l = true <-> NoDup l.
Proof.
  induction l as [| k rest IH]; simpl.
  - split; [constructor | reflexivity].
  - rewrite andb_true_iff, negb_true_iff, IH, NoDup_cons.
    assert (Hin : existsb (String.eqb k) rest = false <-> k ∉ rest).
    { rewrite <- not_true_iff_false, existsb_exists. split.
      - intros Hn Hin. apply Hn. exists k. split; [apply list_elem_of_In; exact Hin | apply String.eqb_refl].
      - intros Hn (x & Hx & He). apply String.eqb_eq in He as ->. apply Hn, list_elem_of_In. exact Hx. }
    rewrite Hin. reflexivity.
Qed.

Lemma seen_spec (k : string) (seen : list string) :
  existsb (String.eqb k) seen = false <-> k ∉ seen.
Proof.
  rewrite <- not_true_iff_false, existsb_exists. split.
  - intros Hn Hin. apply Hn. exists k. split; [apply list_elem_of_In; exact Hin | apply String.eqb_refl].
  - intros Hn (x & Hx & He). apply String.eqb_eq in He as ->. apply Hn, list_elem_of_In. exact Hx.
Qed.

(** What is written has one property per name, none of them seen before. *)
Lemma write_props_keys (f : value -> option value) (seen : list string)
    (props : list (string * value)) :
  NoDup (map fst (write_props f seen props))
  /\ forall k, k ∈ map fst (write_props f seen props) -> k ∉ seen.
Proof.
  revert seen. induction props as [| [k x] rest IH]; intros seen; simpl.
  - split; [constructor | intros k Hk; inversion Hk].
  - destruct (existsb (String.eqb k) seen) eqn:Hs; [apply IH |].
    apply seen_spec in Hs.
    destruct (IH (k :: seen)) as [Hnd Hout].
    assert (Hrest : forall k', k' ∈ map fst (write_props f (k :: seen) rest) -> k' ∉ seen).
    { intros k' Hk' Hin. apply (Hout k' Hk'). right. exact Hin. }
    destruct (f x) as [y |]; [| split; assumption].
    simpl. split.
    + constructor; [| exact Hnd]. intros Hin. apply (Hout k Hin). left.
    + intros k' Hk'. apply elem_of_cons in Hk' as [-> | Hk']; [exact Hs | apply Hrest; exact Hk'].
Qed.

Lemma write_props_values (f : value -> option value) (P : value -> Prop)
    (seen : list string) (props : list (string * value)) :
  Forall (fun kv => forall y, f (snd kv) = Some y -> P y) props ->
  Forall (fun kv => P (snd kv)) (write_props f seen props).
Proof.
  intros Hall. revert seen. induction Hall as [| [k x] rest Hx _ IH]; intros seen; simpl.
  - constructor.
  - destruct (existsb (String.eqb k) seen); [apply IH |].
    destruct (f x) as [y |] eqn:Hy; [| apply IH].
    constructor; [apply Hx; exact Hy | apply IH].
Qed.

Lemma write_props_fixed (f : value -> option value) (seen : list string)
    (props : list (string * value)) :
  Forall (fun kv => f (snd kv) = Some (snd kv)) props ->
  NoDup (map fst props) ->
  (forall k, k ∈ map fst props -> k ∉ seen) ->
  write_props f seen props = props.
Proof.
  intros Hall. revert seen. induction Hall as [| [k x] rest Hx _ IH]; intros seen Hnd Hout; simpl.
  - reflexivity.
  - simpl in *. apply NoDup_cons in Hnd as [Hk Hnd].
    assert (Hs : existsb (String.eqb k) seen = false).
    { apply seen_spec. apply Hout. left. }
    rewrite Hs, Hx. f_equal. apply IH; [exact Hnd |].
    intros k' Hk' Hin. apply elem_of_cons in Hin as [-> | Hin]; [contradiction |].
    apply (Hout k'); [right; exact Hk' | exact Hin].
Qed.

Lemma forallb_props (props : list (string * value)) :
  forallb (fun '(k, x) => plain x) props = true
  <-> Forall (fun kv => plain (snd kv) = true) props.
Proof.
  induction props as [| [k x] rest IH]; simpl.
  - split; [constructor | reflexivity].
  - rewrite andb_true_iff, IH, Forall_cons. reflexivity.
Qed.

(** What [JSON.stringify] writes is read back as a plain value. *)
Lemma stringify_plain (v v' : value) : stringify v = Some v' -> plain v' = true.
Proof.
  revert v'. induction v as [| | b | n | s | items IH | props IH | nm] using value_induction;
    intros v' Hv; simpl in Hv; try discriminate Hv; injection Hv as <-; try reflexivity.
  - destruct n; reflexivity.
  - simpl. induction IH as [| x items Hx _ IHi]; simpl; [reflexivity |].
    rewrite IHi, andb_true_r.
    destruct (stringify x) as [y |] eqn:Hy; [apply Hx; reflexivity | reflexivity].
  - simpl. apply andb_true_iff. split.
    + apply forallb_props.
      apply (write_props_values stringify (fun y => plain y = true)).
      eapply Forall_impl; [exact IH |]. intros [k x] Hx y Hy. apply Hx. exact Hy.
    + apply unique_spec. apply write_props_keys.
Qed.

(** A plain value is written and read back as it is. *)
Lemma stringify_fixed (v : value) : plain v = true -> stringify v = Some v.
Proof.
  induction v as [| | b | n | s | items IH | props IH | nm] using value_induction;
    intros Hp; simpl in Hp; try discriminate Hp; try reflexivity.
  - simpl. rewrite Hp. reflexivity.
  - simpl. do 2 f_equal.
    induction IH as [| x items Hx _ IHi]; simpl; [reflexivity |].
    simpl in Hp. apply andb_true_iff in Hp as [Hpx Hpi].
    rewrite (Hx Hpx), (IHi Hpi). reflexivity.
  - simpl. do 2 f_equal.
    apply andb_true_iff in Hp as [Hvals Hkeys].
    apply forallb_props in Hvals. apply unique_spec in Hkeys.
    apply write_props_fixed; [| exact Hkeys | intros k _ Hin; inversion Hin].
    clear Hkeys. induction IH as [| [k x] rest Hx _ IHr]; [constructor |].
    apply Forall_cons in Hvals as [Hpx Hpr].
    constructor; [apply Hx; exact Hpx | apply IHr; exact Hpr].
Qed.

(** An array of strings is cached as it is. *)
Lemma stringify_strings (l : list string) :
  stringify (VArr (map VStr l)) = Some (VArr (map VStr l)).
Proof.
  apply stringify_fixed. simpl. induction l as [| s l IH]; simpl; [reflexivity | exact IH].
Qed.

Lemma cached_strings (l : list string) :
  cached (VArr (map VStr l)) = VArr (map VStr l).
Proof. unfold cached. rewrite stringify_strings. reflexivity. Qed.

(** What is cached is a plain value, and a plain value is cached as it
    is. *)
Lemma cached_plain (v : value) :
  plain (cached v) = true /\ (plain v = true -> cached v = v).
Proof.
  unfold cached. split.
  - destruct (stringify v) as [v' |] eqn:Hv; [| reflexivity].
    apply (stringify_plain v v' Hv).
  - intros Hp. rewrite (stringify_fixed v Hp). reflexivity.
Qed.

(** An array is cached as an array of the same length. *)
Lemma cached_array (items : list value) :
  cached (VArr items) = VArr (map cached items).
Proof. reflexivity. Qed.

Lemma own_plain (props : list (string * value)) (k : string) (x : value) :
  forallb (fun '(k, x) => plain x) props = true ->
  own props k = Some x -> plain x = true.
Proof.
  induction props as [| [k' y] rest IH]; simpl; [discriminate |].
  intros Hall Hown. apply andb_true_iff in Hall as [Hy Hrest].
  destruct (String.eqb k' k); [congruence | apply IH; assumption].
Qed.

(** An array read from a plain value holds plain items: none of them is
    [undefined]. *)
Lemma get_array_plain (v : value) (k : string) (items : list value) :
  plain v = true -> get v k = Some (VArr items) ->
  Forall (fun item => plain item = true) items.
Proof.
  intros Hp Hg. apply Forall_forall. intros item Hin.
  assert (Hitems : plain (VArr items) = true).
  { destruct v as [| | b | n | s | l | props | nm]; simpl in Hg;
      try discriminate Hg;
      try (destruct (Object_prototype k); discriminate Hg).
    simpl in Hp. apply andb_true_iff in Hp as [Hvals _].
    destruct (own props k) as [x |] eqn:Hown.
    - injection Hg as ->. apply (own_plain props k _ Hvals Hown).
    - exfalso. unfold Object_prototype in Hg.
      repeat (destruct (_ : bool) in Hg; [discriminate Hg |]).
      discriminate Hg. }
  simpl in Hitems. rewrite forallb_forall in Hitems.
  apply Hitems, list_elem_of_In. exact Hin.
Qed.

End Json.

(** ** Submitting the form *)

Section Submission.

Context `{Engine}.

Lemma nonempty_false (s : string) : nonempty s = false <-> s = "".
Proof.
  unfold nonempty. destruct (String.eqb_spec s ""); simpl; split; congruence.
Qed.

Lemma nonempty_true (s : string) : nonempty s = true <-> s <> "".
Proof.
  unfold nonempty. destruct (String.eqb_spec s ""); simpl; split; congruence.
Qed.

Lemma missingResume_true (f : formData) :
  missingResume f = true <-> resumeFiles f = [].
Proof.
  unfold missingResume. destruct (resumeFiles f); simpl; split; congruence.
Qed.

(** Both guards pass exactly on the complete forms. *)
Lemma guards_complete (f : formData) :
  missingInformation f = false /\ missingResume f = false <-> complete f.
Proof.
  unfold missingInformation, complete.
  rewrite !orb_false_iff, !negb_false_iff, !nonempty_true.
  split.
  - intros [[[Ht Hj] Hd] Hr]. repeat split; try assumption.
    intros Hnil. apply missingResume_true in Hnil. congruence.
  - intros (Ht & Hj & Hd & Hr). repeat split; try assumption.
    destruct (missingResume f) eqn:E; [| reflexivity].
    apply missingResume_true in E. contradiction.
Qed.

(** The first guard: one destructive toast, nothing else. *)
Lemma handleSubmit_missingInformation f net w :
  missingInformation f = true ->
  handleSubmit f net w =
    (Ok tt, {| localStorage := localStorage w;
               events := events w ++
                 [Toasted {| title := "Missing Information";
                             description := Lit "Please fill in all required fields before submitting.";
                             variant := "destructive" |}] |}).
Proof. intros Hm. unfold handleSubmit. rewrite Hm. reflexivity. Qed.

(** The second guard. *)
Lemma handleSubmit_missingResume f net w :
  missingInformation f = false ->
  missingResume f = true ->
  handleSubmit f net w =
    (Ok tt, {| localStorage := localStorage w;
               events := events w ++
                 [Toasted {| title := "Missing Resume";
                             description := Lit "Please upload at least one resume before submitting.";
                             variant := "destructive" |}] |}).
Proof. intros Hi Hr. unfold handleSubmit. rewrite Hi, Hr. reflexivity. Qed.

(** A failed submission of a complete form: the request leaves, the error
    is logged and shown, and the storage is as before. *)
Lemma handleSubmit_failed f net w :
  complete f -> failed net ->
  handleSubmit f net w =
    (Ok tt, {| localStorage := localStorage w;
               events := events w ++
                 [Fetched (request_of w f); ConsoleError (failure net);
                  Toasted (submissionError (failure net))] |}).
Proof.
  intros Hc Hf. apply guards_complete in Hc as [Hi Hr].
  unfold handleSubmit. rewrite Hi, Hr.
  unfold try_catch, bind, getItem, fetch, bind, emit, json, read,
    console_error, toast, emit, throw, ret, request_of, submissionError,
    failure.
  simpl.
  destruct net as [reason | r]; simpl.
  - rewrite <- !app_assoc. reflexivity.
  - destruct Hf as [Hb | Hok].
    + rewrite Hb. simpl. rewrite <- !app_assoc. reflexivity.
    + destruct (body r) as [result |]; simpl.
      * rewrite Hok. simpl.
        destruct (get result "message"); simpl;
          rewrite <- !app_assoc; reflexivity.
      * rewrite <- !app_assoc. reflexivity.
Qed.

(** A successful submission of a complete form whose body is not [null]:
    both entries are written, then the view changes. *)
Lemma handleSubmit_succeeded f net w result d :
  complete f -> succeeded net result -> get result "data" = Some d ->
  handleSubmit f net w =
    (Ok tt, {| localStorage :=
                 <["keySkills" := VArr (map VStr (split "," (requiredSkills f)))]>
                   (<["resumeResults" :=
                        cached (or_ (optional_read d "result") (VArr []))]>
                      (localStorage w));
               events := events w ++
                 [Fetched (request_of w f); Navigated "/resumes";
                  Toasted {| title := "Success";
                             description := Lit "Job submitted and resumes processed successfully.";
                             variant := "default" |}] |}).
Proof.
  intros Hc (r & -> & Hok & Hb) Hd. apply guards_complete in Hc as [Hi Hr].
  rewrite <- (cached_strings (split "," (requiredSkills f))) at 1.
  unfold handleSubmit. rewrite Hi, Hr.
  unfold try_catch, bind, getItem, fetch, bind, emit, json, read,
    console_error, toast, navigate, setItem, emit, throw, ret, request_of, cached.
  cbn -[stringify]. rewrite Hb. cbn -[stringify]. rewrite Hok. cbn -[stringify].
  rewrite Hd. cbn -[stringify].
  rewrite <- !app_assoc. reflexivity.
Qed.

(** Whatever the network does, a complete form sends its request first. *)
Lemma handleSubmit_sends f net w :
  complete f ->
  exists l rest,
    handleSubmit f net w =
      (Ok tt, {| localStorage := l;
                 events := events w ++ Fetched (request_of w f) :: rest |}).
Proof.
  intros Hc. apply guards_complete in Hc as [Hi Hr].
  unfold handleSubmit. rewrite Hi, Hr.
  unfold try_catch, bind, getItem, fetch, bind, emit, json, read,
    console_error, toast, navigate, setItem, emit, throw, ret, request_of.
  simpl.
  destruct net as [reason | r]; simpl.
  { do 2 eexists. rewrite <- !app_assoc. reflexivity. }
  destruct (body r) as [result |]; simpl.
  2: { do 2 eexists. rewrite <- !app_assoc. reflexivity. }
  destruct (ok r); simpl.
  - destruct (get result "data"); simpl;
      do 2 eexists; rewrite <- !app_assoc; reflexivity.
  - destruct (get result "message"); simpl;
      do 2 eexists; rewrite <- !app_assoc; reflexivity.
Qed.

Lemma emitted_app f net w l new :
  handleSubmit f net w = (Ok tt, {| localStorage := l; events := events w ++ new |}) ->
  emitted f net w = new.
Proof.
  intros Hrun. unfold emitted. rewrite Hrun. simpl. apply drop_app_length.
Qed.

(** C3. When the job title, the job type or the job description is empty,
    or no resume file is uploaded, [handleSubmit] returns after one
    destructive toast: no request is sent, the storage is untouched, no
    navigation happens.  A request is sent only for a form with every
    required field filled in and at least one uploaded file. *)
Theorem C3_validation_guards (f : formData) (net : fetch_outcome) (w : world) :
  (jobTitle f = "" \/ jobType f = VStr "" \/ jobDescription f = ""
   \/ resumeFiles f = [] ->
   exists t,
     variant t = "destructive"
     /\ handleSubmit f net w =
          (Ok tt, {| localStorage := localStorage w;
                     events := events w ++ [Toasted t] |}))
  /\ (existsb is_fetch (emitted f net w) = true ->
      jobTitle f <> "" /\ jobType f <> VStr "" /\ jobDescription f <> ""
      /\ resumeFiles f <> []).
Proof.
  split.
  - intros Hempty.
    destruct (missingInformation f) eqn:Hi.
    + eexists. split; [| apply handleSubmit_missingInformation; assumption].
      reflexivity.
    + destruct (missingResume f) eqn:Hr.
      * eexists. split; [| apply handleSubmit_missingResume; assumption].
        reflexivity.
      * exfalso.
        destruct (proj1 (guards_complete f) (conj Hi Hr)) as (Ht & Hj & Hd & Hf).
        destruct Hempty as [He | [He | [He | He]]]; try contradiction.
        rewrite He in Hj. discriminate Hj.
  - intros Hsent.
    destruct (missingInformation f) eqn:Hi.
    + rewrite (emitted_app _ _ _ _ _ (handleSubmit_missingInformation f net w Hi))
        in Hsent. discriminate Hsent.
    + destruct (missingResume f) eqn:Hr.
      * rewrite (emitted_app _ _ _ _ _ (handleSubmit_missingResume f net w Hi Hr))
          in Hsent. discriminate Hsent.
      * destruct (proj1 (guards_complete f) (conj Hi Hr)) as (Ht & Hj & Hd & Hf).
        repeat split; try assumption.
        intros He. rewrite He in Hj. discriminate Hj.
Qed.

(** C4. When the call to [fetch] throws, or the body is not JSON, or the
    status is not ok, the [catch] branch logs the error and shows the
    destructive "Submission Error" toast; the entries [resumeResults] and
    [keySkills] (and the rest of the storage) are as before, and nothing
    navigates. *)
Theorem C4_failure_atomic (f : formData) (net : fetch_outcome) (w : world) :
  complete f -> failed net ->
  let w' := snd (handleSubmit f net w) in
  emitted f net w =
    [Fetched (request_of w f); ConsoleError (failure net);
     Toasted (submissionError (failure net))]
  /\ localStorage w' !! "resumeResults" = localStorage w !! "resumeResults"
  /\ localStorage w' !! "keySkills" = localStorage w !! "keySkills"
  /\ localStorage w' = localStorage w
  /\ existsb is_navigation (emitted f net w) = false.
Proof.
  intros Hc Hf w'.
  pose proof (handleSubmit_failed f net w Hc Hf) as Hrun.
  pose proof (emitted_app _ _ _ _ _ Hrun) as Hem.
  subst w'. rewrite Hem, Hrun. simpl.
  repeat split; reflexivity.
Qed.

End Submission.

Lemma C3_witness :
  let f := initialFormData in
  let sent := @emitted Sample.engine Sample.form
                (Sample.respond Sample.wrapped) Sample.world in
  (jobTitle f = "" \/ jobType f = VStr "" \/ jobDescription f = ""
   \/ resumeFiles f = [])
  /\ (exists t,
        variant t = "destructive"
        /\ @handleSubmit Sample.engine f (Sample.respond Sample.wrapped) Sample.world =
             (Ok tt, {| localStorage := localStorage Sample.world;
                        events := events Sample.world ++ [Toasted t] |}))
  /\ existsb is_fetch sent = true
  /\ jobTitle Sample.form <> "" /\ jobType Sample.form <> VStr ""
  /\ jobDescription Sample.form <> "" /\ resumeFiles Sample.form <> [].
Proof.
  intros f sent.
  assert (Hempty : jobTitle f = "" \/ jobType f = VStr "" \/ jobDescription f = ""
                   \/ resumeFiles f = []) by (left; reflexivity).
  assert (Hsent : existsb is_fetch sent = true) by (vm_compute; reflexivity).
  split; [exact Hempty |].
  split; [exact (proj1 (@C3_validation_guards Sample.engine f
                          (Sample.respond Sample.wrapped) Sample.world) Hempty) |].
  split; [exact Hsent |].
  exact (proj2 (@C3_validation_guards Sample.engine Sample.form
                  (Sample.respond Sample.wrapped) Sample.world) Hsent).
Defined.

Lemma sample_form_complete : complete Sample.form.
Proof. repeat split; discriminate. Qed.

Lemma C4_witness :
  complete Sample.form /\ failed (Rejects "offline")
  /\ localStorage (snd (@handleSubmit Sample.engine Sample.form (Rejects "offline") Sample.world))
     = localStorage Sample.world.
Proof.
  split; [exact sample_form_complete |]. split; [exact I |].
  apply (@C4_failure_atomic Sample.engine Sample.form (Rejects "offline") Sample.world
           sample_form_complete I).
Defined.

(** ** Reading the cached entries back *)

Section Loading.

Lemma get_is_Some (v : value) (k : string) :
  v <> VNull -> v <> VUndef -> exists x, get v k = Some x.
Proof.
  intros Hn Hu. destruct v as [| | b | n | s | items | props | nm]; simpl;
    try congruence.
  5: destruct (own props k); eauto.
  all: destruct (Object_prototype k); eauto.
Qed.

Lemma truthy_get (v : value) (k : string) :
  truthy v = true -> exists x, get v k = Some x.
Proof.
  intros Ht. apply get_is_Some; intros ->; discriminate Ht.
Qed.

(** [mapItem] returns a row for every item that is not [null]. *)
Lemma mapItem_total (p : value) (index : nat) (item : value) :
  truthy p = true -> item <> VNull -> item <> VUndef ->
  exists r, mapItem p index item = Some r.
Proof.
  intros Hp Hn Hu. unfold mapItem.
  destruct (truthy_get p "id" Hp) as [x1 ->].
  destruct (truthy_get p "exe_name" Hp) as [x2 ->].
  destruct (get_is_Some item "name" Hn Hu) as [x3 ->].
  destruct (get_is_Some item "score" Hn Hu) as [x4 ->].
  destruct (get_is_Some item "justification" Hn Hu) as [x5 ->].
  destruct (get_is_Some item "experience" Hn Hu) as [x6 ->].
  destruct (get_is_Some item "email" Hn Hu) as [x7 ->].
  destruct (get_is_Some item "phone" Hn Hu) as [x8 ->].
  simpl. eauto.
Qed.

(** The rows of [map_from] are the images of the items, each under its own
    index. *)
Lemma map_from_lookup f (k : nat) (items : list value) (rows : list resume) :
  map_from f k items = Some rows ->
  length rows = length items
  /\ forall (i : nat) (item : value),
       items !! i = Some item -> f (k + i) item = rows !! i.
Proof.
  revert k rows. induction items as [| x rest IH]; intros k rows Hm; simpl in Hm.
  - injection Hm as <-. split; [reflexivity |]. intros i item Hi.
    rewrite lookup_nil in Hi. discriminate Hi.
  - destruct (f k x) as [r |] eqn:Hr; simpl in Hm; [| discriminate Hm].
    destruct (map_from f (S k) rest) as [rs |] eqn:Hrs; simpl in Hm;
      [| discriminate Hm].
    injection Hm as <-.
    destruct (IH (S k) rs Hrs) as [Hlen Hrows].
    split; [simpl; congruence |].
    intros [| i] item Hi; simpl in Hi.
    + injection Hi as <-. rewrite Nat.add_0_r. exact Hr.
    + rewrite <- Nat.add_succ_comm. simpl. apply Hrows. exact Hi.
Qed.

Lemma map_from_total f (k : nat) (items : list value) :
  (forall (i : nat) (item : value),
     items !! i = Some item -> exists r, f (k + i) item = Some r) ->
  exists rows, map_from f k items = Some rows.
Proof.
  revert k. induction items as [| x rest IH]; intros k Hall; simpl.
  - eauto.
  - destruct (Hall 0 x eq_refl) as [r Hr]. rewrite Nat.add_0_r in Hr.
    rewrite Hr. simpl.
    destruct (IH (S k)) as [rs Hrs].
    { intros i item Hi. rewrite Nat.add_succ_comm. apply (Hall (S i)). exact Hi. }
    rewrite Hrs. simpl. eauto.
Qed.

(** A [null] item makes the callback throw, whatever the index. *)
Lemma mapItem_null (p : value) (index : nat) : mapItem p index VNull = None.
Proof.
  unfold mapItem. destruct (get p "id"); simpl; [| reflexivity].
  destruct (get p "exe_name"); reflexivity.
Qed.

Lemma map_from_null f (k : nat) (items : list value) (i : nat) :
  (forall index, f index VNull = None) ->
  items !! i = Some VNull -> map_from f k items = None.
Proof.
  intros Hnull. revert k i. induction items as [| x rest IH]; intros k i Hi.
  - rewrite lookup_nil in Hi. discriminate Hi.
  - simpl. destruct i as [| i]; simpl in Hi.
    + injection Hi as ->. rewrite Hnull. reflexivity.
    + destruct (f k x); simpl; [| reflexivity].
      rewrite (IH (S k) i Hi). reflexivity.
Qed.

(** An entry whose [result] holds a [null] loads no row. *)
Lemma load_null (ls : gmap string value) (s : state) (v : value)
    (items : list value) (i : nat) :
  ls !! "resumeResults" = Some v ->
  get v "result" = Some (VArr items) ->
  items !! i = Some VNull ->
  resumes (load ls s) = resumes s /\ caseId (load ls s) = caseId s.
Proof.
  intros Hv Hres Hi. unfold load. rewrite Hv. simpl.
  destruct (truthy v); [| split; reflexivity].
  rewrite Hres, (map_from_null _ 0 items i (mapItem_null v) Hi).
  split; reflexivity.
Qed.

(** The skills shown are the stored array, whatever happens to the
    resumes. *)
Lemma load_userKeySkills (ls : gmap string value) (s : state) :
  userKeySkills (load ls s) =
    match parsed_or (ls !! "keySkills") (VArr []) with
    | VArr l => l
    | _ => []
    end.
Proof.
  unfold load.
  destruct (truthy _); [| reflexivity].
  destruct (get _ "result") as [[] |]; try reflexivity.
  destruct (map_from _ 0 items); reflexivity.
Qed.

(** A stored object whose [result] is an array is mapped element-wise. *)
Lemma load_wrapped (ls : gmap string value) (s : state) (v : value)
    (items : list value) (rows : list resume) :
  ls !! "resumeResults" = Some v ->
  get v "result" = Some (VArr items) ->
  map_from (mapItem v) 0 items = Some rows ->
  resumes (load ls s) = rows.
Proof.
  intros Hv Hr Hm. unfold load. rewrite Hv. simpl.
  assert (Ht : truthy v = true).
  { destruct v; simpl in *; try discriminate; reflexivity. }
  rewrite Ht, Hr, Hm. reflexivity.
Qed.

(** A stored array is not mapped: an array has no [result]. *)
Lemma load_array (ls : gmap string value) (s : state) (items : list value) :
  ls !! "resumeResults" = Some (VArr items) ->
  resumes (load ls s) = resumes s.
Proof.
  intros Hv. unfold load. rewrite Hv. reflexivity.
Qed.

End Loading.

(** ** The cached skills *)

Section Skills.

Context `{Engine}.

Lemma split_not_nil (sep : ascii) (s : string) : split sep s <> [].
Proof.
  destruct s as [| c r]; simpl; [discriminate |].
  destruct (Ascii.eqb c sep); [discriminate |].
  destruct (split sep r); discriminate.
Qed.

Lemma join_extend (sep c : ascii) (p : string) (ps : list string) :
  join sep (String c p :: ps) = String c (join sep (p :: ps)).
Proof. destruct ps; reflexivity. Qed.

(** Nothing is lost by [split]: joining the pieces gives the string back. *)
Lemma join_split (sep : ascii) (s : string) : join sep (split sep s) = s.
Proof.
  induction s as [| c r IH]; simpl; [reflexivity |].
  pose proof (split_not_nil sep r) as Hnil.
  destruct (Ascii.eqb_spec c sep) as [-> | Hne].
  - destruct (split sep r) as [| p ps]; [contradiction |].
    change (join sep (EmptyString :: p :: ps))
      with (String sep (join sep (p :: ps))).
    rewrite IH. reflexivity.
  - destruct (split sep r) as [| p ps]; [contradiction |].
    rewrite join_extend, IH. reflexivity.
Qed.

(** One piece more than there are separators, so no empty piece is
    dropped. *)
Lemma length_split (sep : ascii) (s : string) :
  length (split sep s) = S (occurrences sep s).
Proof.
  induction s as [| c r IH]; simpl; [reflexivity |].
  destruct (Ascii.eqb c sep); simpl; [rewrite IH; reflexivity |].
  pose proof (split_not_nil sep r) as Hnil.
  destruct (split sep r) as [| p ps]; [contradiction |].
  simpl in *. exact IH.
Qed.

(** C10. After a successful submission the entry [keySkills] holds the
    pieces of [requiredSkills] between its commas, untrimmed and with the
    empty pieces kept, and the results view reads exactly that list back;
    for an empty [requiredSkills] the list is the single empty string,
    rendered as one key-skill chip. *)
Theorem C10_key_skills_round_trip (f : formData) (net : fetch_outcome)
    (w : world) (result d : value) (s : state) :
  complete f -> succeeded net result -> get result "data" = Some d ->
  let skills := split "," (requiredSkills f) in
  let w' := snd (handleSubmit f net w) in
  localStorage w' !! "keySkills" = Some (VArr (map VStr skills))
  /\ userKeySkills (load (localStorage w') s) = map VStr skills
  /\ join "," skills = requiredSkills f
  /\ length skills = S (occurrences "," (requiredSkills f))
  /\ (requiredSkills f = "" ->
      userKeySkills (load (localStorage w') s) = [VStr ""]
      /\ renderKeySkills (userKeySkills (load (localStorage w') s))
         = [Skill (VStr "")]).
Proof.
  intros Hc Hs Hd skills w'.
  assert (Hstored : localStorage w' !! "keySkills" = Some (VArr (map VStr skills))).
  { subst w'. rewrite (handleSubmit_succeeded f net w result d Hc Hs Hd). simpl.
    apply lookup_insert_eq. }
  assert (Hread : userKeySkills (load (localStorage w') s) = map VStr skills).
  { rewrite load_userKeySkills, Hstored. reflexivity. }
  split; [exact Hstored |]. split; [exact Hread |].
  split; [apply join_split |]. split; [apply length_split |].
  intros Hempty. rewrite Hread. subst skills. rewrite Hempty. split; reflexivity.
Qed.

End Skills.

Lemma sample_succeeded (result : value) : succeeded (Sample.respond result) result.
Proof. eexists. repeat split. Qed.

Lemma C10_witness :
  complete Sample.form
  /\ succeeded (Sample.respond Sample.wrapped) Sample.wrapped
  /\ requiredSkills Sample.form = ""
  /\ renderKeySkills
       (userKeySkills
          (load (localStorage
                   (snd (@handleSubmit Sample.engine Sample.form
                           (Sample.respond Sample.wrapped) Sample.world)))
                initialState))
     = [Skill (VStr "")].
Proof.
  split; [exact sample_form_complete |].
  split; [apply sample_succeeded |].
  split; [reflexivity |].
  apply (@C10_key_skills_round_trip Sample.engine Sample.form
           (Sample.respond Sample.wrapped) Sample.world Sample.wrapped
           (VObj [("result", Sample.entry)])
           initialState sample_form_complete
           (sample_succeeded Sample.wrapped) eq_refl).
  reflexivity.
Defined.

(** ** The cached candidates *)

Section Candidates.

Context `{Engine}.

(** C1, as the code has it.  A successful submission writes
    [JSON.stringify] of the response's [data.result] (of the empty list
    when it is absent or falsy) under [resumeResults], and the results view
    reads that entry back: the entry is a plain value, equal to what was
    written when that was plain already, and with [null] where a number was
    not finite.  When the entry is an object whose [result] is an array of
    items other than [null], the in-memory list becomes the element-wise
    mapping of that array, each item under its own index.  When what was
    written is itself a list, the entry has no [result] and the in-memory
    list is left as it was. *)
Theorem C1_cached_entry_read_back (f : formData) (net : fetch_outcome)
    (w : world) (result d : value) (s : state) :
  complete f -> succeeded net result -> get result "data" = Some d ->
  let v := or_ (optional_read d "result") (VArr []) in
  let w' := snd (handleSubmit f net w) in
  localStorage w' !! "resumeResults" = Some (cached v)
  /\ plain (cached v) = true
  /\ (plain v = true -> cached v = v)
  /\ (forall items : list value,
        get (cached v) "result" = Some (VArr items) ->
        Forall (fun item => item <> VNull) items ->
        exists rows : list resume,
          resumes (load (localStorage w') s) = rows
          /\ length rows = length items
          /\ forall (i : nat) (item : value),
               items !! i = Some item -> rows !! i = mapItem (cached v) i item)
  /\ (forall items : list value,
        v = VArr items -> resumes (load (localStorage w') s) = resumes s).
Proof.
  intros Hc Hs Hd v w'.
  assert (Hstored : localStorage w' !! "resumeResults" = Some (cached v)).
  { subst w'. rewrite (handleSubmit_succeeded f net w result d Hc Hs Hd). simpl.
    rewrite lookup_insert_ne by discriminate. apply lookup_insert_eq. }
  destruct (cached_plain v) as [Hplain Hsame].
  split; [exact Hstored |]. split; [exact Hplain |]. split; [exact Hsame |].
  split.
  - intros items Hres Hall.
    assert (Ht : truthy (cached v) = true).
    { destruct (cached v); simpl in Hres; try discriminate Hres; reflexivity. }
    pose proof (get_array_plain _ _ _ Hplain Hres) as Hitems.
    destruct (map_from_total (mapItem (cached v)) 0 items) as [rows Hrows].
    { intros i item Hi. simpl.
      apply mapItem_total; [exact Ht | |].
      - apply (proj1 (Forall_lookup _ _) Hall i item Hi).
      - intros ->. pose proof (proj1 (Forall_lookup _ _) Hitems i _ Hi) as Hu.
        discriminate Hu. }
    exists rows. split; [apply (load_wrapped _ _ (cached v) items); assumption |].
    destruct (map_from_lookup _ _ _ _ Hrows) as [Hlen Hlook].
    split; [exact Hlen |].
    intros i item Hi. symmetry. apply (Hlook i item Hi).
  - intros items Hv. apply (load_array _ _ (map cached items)).
    rewrite Hstored, Hv. reflexivity.
Qed.

End Candidates.

Lemma C1_witness :
  let w' := snd (@handleSubmit Sample.engine Sample.form
                   (Sample.respond Sample.wrapped) Sample.world) in
  complete Sample.form
  /\ succeeded (Sample.respond Sample.wrapped) Sample.wrapped
  /\ localStorage w' !! "resumeResults" = Some Sample.entry
  /\ exists rows : list resume,
       resumes (load (localStorage w') initialState) = rows
       /\ length rows = length Sample.candidates
       /\ forall (i : nat) (item : value),
            Sample.candidates !! i = Some item ->
            rows !! i = mapItem Sample.entry i item.
Proof.
  intros w'.
  split; [exact sample_form_complete |].
  split; [apply sample_succeeded |].
  destruct (@C1_cached_entry_read_back Sample.engine Sample.form
              (Sample.respond Sample.wrapped) Sample.world Sample.wrapped
              (VObj [("result", Sample.entry)]) initialState
              sample_form_complete (sample_succeeded Sample.wrapped) eq_refl)
    as (Hstored & _ & _ & Hmapped & _).
  split; [exact Hstored |].
  apply (Hmapped Sample.candidates eq_refl).
  repeat constructor; discriminate.
Defined.

(** C1 as stated fails for a list written under the key: the submission
    caches the two candidates of the response, and the results view, which
    looks for [result] on the entry, shows none of them. *)
Lemma C1_counterexample :
  let w' := snd (@handleSubmit Sample.engine Sample.form
                   (Sample.respond Sample.bare) Sample.world) in
  localStorage w' !! "resumeResults" = Some (VArr Sample.candidates)
  /\ resumes (load (localStorage w') initialState) = []
  /\ exists rows : list resume,
       map_from (mapItem (VArr Sample.candidates)) 0 Sample.candidates = Some rows
       /\ length rows = 2
       /\ resumes (load (localStorage w') initialState) <> rows.
Proof.
  intros w'.
  assert (Hstored :
    localStorage w' !! "resumeResults" = Some (VArr Sample.candidates)).
  { subst w'.
    rewrite (@handleSubmit_succeeded Sample.engine Sample.form
               (Sample.respond Sample.bare) Sample.world Sample.bare
               (VObj [("result", VArr Sample.candidates)])
               sample_form_complete (sample_succeeded Sample.bare) eq_refl).
    cbn [snd localStorage].
    rewrite lookup_insert_ne by discriminate.
    rewrite lookup_insert_eq. reflexivity. }
  split; [exact Hstored |].
  rewrite (load_array _ initialState Sample.candidates Hstored).
  split; [reflexivity |].
  eexists. split; [reflexivity |]. split; [reflexivity |]. discriminate.
Qed.

(** What [JSON.stringify] loses is lost to the results view: a score that
    the body gives as a number too large for a double, parsed as
    [Infinity], is cached as [null] and loaded as the default 0. *)
Example cached_infinity :
  let body := VObj [("data", VObj [("result",
                 VObj [("result", VArr [VObj [("name", VStr "Ann");
                                              ("score", VNum PosInf)]])])])] in
  let w' := snd (@handleSubmit Sample.engine Sample.form
                   (Sample.respond body) Sample.world) in
  localStorage w' !! "resumeResults"
    = Some (VObj [("result", VArr [VObj [("name", VStr "Ann"); ("score", VNull)]])])
  /\ map Rank (resumes (load (localStorage w') initialState))
     = [VNum (num_of_nat 0)].
Proof.
  intros body w'. subst w'.
  rewrite (@handleSubmit_succeeded Sample.engine Sample.form
             (Sample.respond body) Sample.world body _
             sample_form_complete (sample_succeeded body) eq_refl).
  cbn [snd localStorage]. split.
  - rewrite lookup_insert_ne by discriminate. rewrite lookup_insert_eq. reflexivity.
  - unfold load.
    rewrite (lookup_insert_ne (M := gmap string)) by discriminate.
    rewrite lookup_insert_eq. reflexivity.
Qed.

(** ** Strings *)

Section Strings.

Lemma startsWith_spec (s p : string) :
  startsWith s p = true <-> exists rest, s = String.append p rest.
Proof.
  revert s. induction p as [| a p IH]; intros s; simpl.
  - split; [intros _; exists s; reflexivity | destruct s; reflexivity].
  - destruct s as [| b s]; simpl.
    + split; [discriminate | intros [rest Hr]; discriminate Hr].
    + rewrite andb_true_iff, IH. split.
      * intros [Hab [rest ->]]. apply Ascii.eqb_eq in Hab as ->.
        exists rest. reflexivity.
      * intros [rest Hr]. injection Hr as -> ->.
        split; [apply Ascii.eqb_refl | exists rest; reflexivity].
Qed.

(** [includes] finds the query exactly when it occurs somewhere. *)
Lemma includes_spec (s q : string) :
  includes s q = true
  <-> exists before after, s = String.append before (String.append q after).
Proof.
  induction s as [| c s IH].
  - destruct q as [| a q]; simpl.
    + split; [intros _; exists EmptyString, EmptyString; reflexivity | reflexivity].
    + split; [discriminate |].
      intros [before [after Hs]]. destruct before; discriminate Hs.
  - cbn [includes]. rewrite orb_true_iff, startsWith_spec, IH. split.
    + intros [[rest Hr] | [before [after Hs]]].
      * exists EmptyString, rest. exact Hr.
      * exists (String c before), after. simpl. rewrite Hs. reflexivity.
    + intros [before [after Hs]]. destruct before as [| b before]; simpl in Hs.
      * left. exists after. exact Hs.
      * right. injection Hs as -> ->. exists before, after. reflexivity.
Qed.

Lemma includes_empty_query (s : string) : includes s "" = true.
Proof. destruct s; reflexivity. Qed.

Lemma includes_in_empty (q : string) : includes "" q = true -> q = "".
Proof. destruct q; [reflexivity | discriminate]. Qed.

End Strings.

(** ** Numbers *)

Section Numbers.

Lemma num_le_spec (a b : number) : num_le a b = true <-> le a b.
Proof.
  destruct a, b; simpl; split; intros Hab;
    try discriminate; try reflexivity;
    try (inversion Hab; congruence);
    try (constructor; discriminate).
  - constructor. apply Qle_bool_iff. exact Hab.
  - inversion Hab. apply Qle_bool_iff. assumption.
Qed.

Lemma in_range_spec (x : number) (range : number * number) :
  in_range x range = true <-> within x range.
Proof.
  unfold in_range, within, num_ge.
  rewrite andb_true_iff, !num_le_spec. reflexivity.
Qed.

(** A number that is falsy without being NaN is zero, and compares as
    zero does. *)
Lemma falsy_compares_as_zero (x : number) (range : number * number) :
  x <> NaN -> num_truthy x = false ->
  in_range (num_of_nat 0) range = in_range x range.
Proof.
  intros Hnan Hf. destruct x as [| | q |]; try discriminate; [congruence |].
  simpl in Hf. apply negb_false_iff, Qeq_bool_iff in Hf.
  unfold in_range, num_ge, num_of_nat. destruct range as [lo hi]. simpl.
  f_equal.
  - destruct lo as [| | l |]; try reflexivity. simpl.
    apply eq_true_iff_eq. rewrite !Qle_bool_iff, Hf. reflexivity.
  - destruct hi as [| | h |]; try reflexivity. simpl.
    apply eq_true_iff_eq. rewrite !Qle_bool_iff, Hf. reflexivity.
Qed.

End Numbers.

(** ** The filtered view *)

Section Filters.

Context `{Engine}.

Lemma truthy_and_ (a b : value) : truthy (and_ a b) = truthy a && truthy b.
Proof. unfold and_. destruct (truthy a) eqn:E; simpl; [reflexivity | exact E]. Qed.

Lemma str_eq_spec (v : value) (s : string) : str_eq v s = true <-> v = VStr s.
Proof.
  destruct v; simpl; split; try discriminate.
  - intros He. apply String.eqb_eq in He. congruence.
  - intros [= ->]. apply String.eqb_refl.
Qed.

Lemma truthy_has_contact (toggle : bool) (v : value) (placeholder : string) :
  truthy (has_contact toggle v placeholder) = true
  <-> (toggle = true -> present v placeholder).
Proof.
  unfold has_contact, present. destruct toggle; simpl.
  - rewrite truthy_and_, andb_true_iff. simpl.
    rewrite negb_true_iff, <- not_true_iff_false, str_eq_spec. tauto.
  - split; [discriminate | reflexivity].
Qed.

(** A text in lower case that includes the trimmed lower-case query. *)
Lemma contains_spec (field : value) (searchQuery : string) :
  contains field searchQuery
  <-> exists s, field = VStr s
        /\ includes (toLowerCase s) (trim (toLowerCase searchQuery)) = true.
Proof.
  unfold contains. split.
  - intros (s & before & after & Hf & Hs). exists s. split; [exact Hf |].
    apply includes_spec. eauto.
  - intros (s & Hf & Hs). apply includes_spec in Hs as (before & after & Hs).
    eauto.
Qed.

(** The test on one field, [v && v.toLowerCase().includes(query)], when it
    does not throw: it holds exactly for a truthy text that includes the
    query. *)
Lemma field_includes_Some (v x : value) (query : string) :
  field_includes v query = Some x ->
  (truthy x = true
   <-> truthy v = true
       /\ exists s, v = VStr s /\ includes (toLowerCase s) query = true).
Proof.
  unfold field_includes, andThen. destruct (truthy v) eqn:Tv.
  - destruct v as [| | b | n | s | items | props | nm]; simpl;
      try discriminate.
    intros [= <-]. simpl. split.
    + intros Hi. split; [reflexivity |]. eauto.
    + intros [_ (s' & [= <-] & Hi)]. exact Hi.
  - intros [= <-]. rewrite Tv. split; [discriminate | intros [Ht _]; discriminate Ht].
Qed.

(** An empty text includes the empty query only, which every text
    includes. *)
Lemma falsy_text_found (v : value) (s n query : string) :
  truthy v = false -> v = VStr s ->
  includes (toLowerCase s) query = true ->
  includes (toLowerCase n) query = true.
Proof.
  intros Tv -> Hi. simpl in Tv. apply negb_false_iff, String.eqb_eq in Tv as ->.
  apply includes_in_empty in Hi as ->. apply includes_empty_query.
Qed.

(** The text search, when it does not throw: the name is text, and the
    test holds exactly when the name, the email or the justification is a
    text that, in lower case, includes the query. *)
Lemma matchesSearch_Some (query : string) (r : resume) (v : value) :
  matchesSearch query r = Some v ->
  (exists n, name r = VStr n)
  /\ (truthy v = true
      <-> (exists s, name r = VStr s /\ includes (toLowerCase s) query = true)
          \/ (exists s, email r = VStr s /\ includes (toLowerCase s) query = true)
          \/ (exists s, justification r = VStr s
                        /\ includes (toLowerCase s) query = true)).
Proof.
  unfold matchesSearch, orElse. intros Hm.
  destruct (name r) as [| | b | x | n | items | props | nm];
    simpl in Hm; try discriminate Hm.
  split; [eauto |].
  destruct (includes (toLowerCase n) query) eqn:En; simpl in Hm.
  { injection Hm as <-. simpl. split; [intros _; left; eauto | reflexivity]. }
  destruct (field_includes (email r) query) as [xe |] eqn:He; simpl in Hm;
    [| discriminate Hm].
  pose proof (field_includes_Some _ _ _ He) as Hxe.
  destruct (truthy xe) eqn:Te.
  { injection Hm as <-. rewrite Te. split; [| reflexivity].
    intros _. right. left. apply Hxe. reflexivity. }
  pose proof (field_includes_Some _ _ _ Hm) as Hxj.
  split.
  - intros Tv. right. right. apply Hxj. exact Tv.
  - intros [(s & [= <-] & Hi) | [(s & Hs & Hi) | (s & Hs & Hi)]].
    + congruence.
    + destruct (truthy (email r)) eqn:Tem.
      * assert (Hx : false = true) by (apply Hxe; split; [reflexivity | eauto]).
        discriminate Hx.
      * pose proof (falsy_text_found _ s n query Tem Hs Hi). congruence.
    + destruct (truthy (justification r)) eqn:Tj.
      * apply Hxj. split; [reflexivity | eauto].
      * pose proof (falsy_text_found _ s n query Tj Hs Hi). congruence.
Qed.

(** On a searchable row the text search does not throw. *)
Lemma matchesSearch_searchable (query : string) (r : resume) :
  searchable r -> exists v, matchesSearch query r = Some v.
Proof.
  intros ([n Hn] & _ & He & Hj).
  assert (Hfield : forall v, (truthy v = true -> exists s, v = VStr s) ->
                             exists x, field_includes v query = Some x).
  { intros v Hv. unfold field_includes, andThen.
    destruct (truthy v); [| eauto].
    destruct (Hv eq_refl) as [s ->]. simpl. eauto. }
  destruct (Hfield _ He) as [xe Hxe]. destruct (Hfield _ Hj) as [xj Hxj].
  unfold matchesSearch, orElse. rewrite Hn, Hxe, Hxj. simpl.
  destruct (includes (toLowerCase n) query); simpl; [eauto |].
  destruct (truthy xe); eauto.
Qed.

(** [Number(Rank) || 0] compares as the score does. *)
Lemma rank_in_range (n : number) (range : number * number) :
  in_range (if num_truthy n then n else num_of_nat 0) range
  = in_range (match n with NaN => num_of_nat 0 | _ => n end) range.
Proof.
  destruct (num_truthy n) eqn:Hn.
  - destruct n; try reflexivity. discriminate Hn.
  - destruct n as [| | q |]; try reflexivity; try discriminate Hn.
    apply falsy_compares_as_zero; [discriminate | exact Hn].
Qed.

(** When the callback returns, it keeps the row exactly when the four
    filters pass. *)
Lemma keep_Some (st : state) (r : resume) (b : bool) :
  keep st r = Some b -> (b = true <-> passes st r).
Proof.
  unfold keep, rank. intros Hk.
  destruct (Number_ (Rank r)) as [n |] eqn:Hn; simpl in Hk; [| discriminate Hk].
  destruct (matchesSearch _ r) as [ms |] eqn:Hms; simpl in Hk; [| discriminate Hk].
  injection Hk as <-.
  destruct (matchesSearch_Some _ _ _ Hms) as [_ Htext].
  rewrite !truthy_and_, !andb_true_iff. simpl.
  rewrite !truthy_has_contact, Htext, rank_in_range, !in_range_spec.
  unfold passes, matches_text, score_in_range, experience_in_range,
    contacts_present, score.
  rewrite Hn, !contains_spec. simpl. split.
  - intros [[[[Ht Hs] He] Hce] Hcp].
    split; [exact Ht |]. split; [eauto |]. split; [exact He |].
    split; assumption.
  - intros (Ht & (x & [= <-] & Hs) & He & Hce & Hcp). tauto.
Qed.

(** On a searchable row the callback returns. *)
Lemma keep_searchable (st : state) (r : resume) :
  searchable r -> exists b, keep st r = Some b.
Proof.
  intros Hr. pose proof Hr as (_ & [n Hn] & _).
  destruct (matchesSearch_searchable (trim (toLowerCase (searchQuery st))) r Hr)
    as [ms Hms].
  unfold keep, rank. rewrite Hn. simpl. rewrite Hms. simpl. eauto.
Qed.

(** A typed row is searchable. *)
Lemma typed_searchable (r : resume) : typed r -> searchable r.
Proof.
  intros ([n Hn] & (x & Hx & _) & [j Hj] & [e He]).
  split; [eauto |]. split; [rewrite Hx; simpl; eauto |]. split; eauto.
Qed.

(** On a typed row the callback returns, and it keeps the row exactly when
    the four filters pass. *)
Lemma keep_typed (st : state) (r : resume) :
  typed r -> exists b, keep st r = Some b /\ (b = true <-> passes st r).
Proof.
  intros Hr. destruct (keep_searchable st r (typed_searchable r Hr)) as [b Hb].
  exists b. split; [exact Hb | exact (keep_Some st r b Hb)].
Qed.

(** On a row whose name is not text the callback throws: [toLowerCase]
    is a method of strings. *)
Lemma keep_throws_without_name (st : state) (r : resume) :
  (forall s, name r <> VStr s) -> keep st r = None.
Proof.
  intros Hname. unfold keep.
  destruct (rank r); simpl; [| reflexivity].
  unfold matchesSearch, orElse.
  destruct (name r) as [| | b | x | s | items | props | nm]; simpl;
    try reflexivity.
  exfalso. apply (Hname s). reflexivity.
Qed.

(** [filter_] keeps, in order, the rows on which the callback returns
    true. *)
Lemma filter__Some (f : resume -> option bool) (l view : list resume) :
  filter_ f l = Some view ->
  view `sublist_of` l
  /\ forall r, r ∈ view <-> r ∈ l /\ f r = Some true.
Proof.
  revert view. induction l as [| x rest IH]; intros view Hf; simpl in Hf.
  - injection Hf as <-. split; [constructor |].
    intros r. rewrite elem_of_nil. tauto.
  - destruct (f x) as [b |] eqn:Hx; simpl in Hf; [| discriminate Hf].
    destruct (filter_ f rest) as [rs |] eqn:Hrs; simpl in Hf; [| discriminate Hf].
    injection Hf as <-.
    destruct (IH rs eq_refl) as [Hsub Hmem].
    destruct b.
    + split; [constructor; exact Hsub |].
      intros r. rewrite !elem_of_cons, Hmem. split.
      * intros [-> | [Hr Hk]]; [split; [left; reflexivity | exact Hx] |].
        split; [right; exact Hr | exact Hk].
      * intros [[-> | Hr] Hk]; [left; reflexivity | right; split; assumption].
    + split; [constructor; exact Hsub |].
      intros r. rewrite elem_of_cons, Hmem. split.
      * intros [Hr Hk]. split; [right; exact Hr | exact Hk].
      * intros [[-> | Hr] Hk]; [congruence | split; assumption].
Qed.

Lemma filter__total (f : resume -> option bool) (l : list resume) :
  Forall (fun r => exists b, f r = Some b) l ->
  exists view, filter_ f l = Some view.
Proof.
  induction 1 as [| x rest [b Hx] _ [rs Hrs]]; simpl.
  - eauto.
  - rewrite Hx, Hrs. simpl. eauto.
Qed.

Lemma filter__throws (f : resume -> option bool) (l : list resume) (r : resume) :
  r ∈ l -> f r = None -> filter_ f l = None.
Proof.
  intros Hin Hr. induction l as [| x rest IH]; [inversion Hin |].
  simpl. apply elem_of_cons in Hin as [<- | Hin].
  - rewrite Hr. reflexivity.
  - destruct (f x); simpl; [| reflexivity]. rewrite (IH Hin). reflexivity.
Qed.

Lemma filteredResumes_searchable (st : state) :
  Forall searchable (resumes st) -> exists view, filteredResumes st = Some view.
Proof.
  intros Hall. apply filter__total.
  eapply Forall_impl; [exact Hall |].
  intros r Hr. exact (keep_searchable st r Hr).
Qed.

Lemma filteredResumes_typed (st : state) :
  Forall typed (resumes st) -> exists view, filteredResumes st = Some view.
Proof.
  intros Hty. apply filteredResumes_searchable.
  eapply Forall_impl; [exact Hty | exact typed_searchable].
Qed.

(** Membership in a computed view. *)
Lemma view_membership (st : state) (view : list resume) :
  filteredResumes st = Some view ->
  forall r, r ∈ view <-> r ∈ resumes st /\ passes st r.
Proof.
  intros Hview r.
  destruct (filter__Some _ _ _ Hview) as [_ Hmem].
  rewrite Hmem. split.
  - intros [Hin Hk]. split; [exact Hin |]. apply (keep_Some st r true Hk).
    reflexivity.
  - intros [Hin Hp]. split; [exact Hin |].
    destruct (keep st r) as [b |] eqn:Hb.
    + f_equal. apply (keep_Some st r b Hb). exact Hp.
    + unfold filteredResumes in Hview.
      rewrite (filter__throws (keep st) (resumes st) r Hin Hb) in Hview.
      discriminate Hview.
Qed.

(** C2, as the code has it.  For every list of rows and every filter
    state, whenever the filter callback throws on no row, a row is in the
    filtered view exactly when it is in the list and the four filters
    pass: its name, its email or its justification is a text that, in
    lower case, contains the lower-cased trimmed query; its numeric score
    (the number its score converts to, 0 when that is not a number) is
    within the score range, bounds included; its experience is within the
    experience range, bounds included; and when the email (phone) toggle is
    on, its email (phone) is present.  The callback throws on no row when
    every name is text, every score converts and every truthy email and
    justification is text.  It throws, and there is no view, as soon as
    one row of the list has a name that is not text. *)
Theorem C2_filtered_view_membership (st : state) :
  (forall view,
     filteredResumes st = Some view ->
     forall r, r ∈ view <->
       r ∈ resumes st
       /\ matches_text st r /\ score_in_range st r
       /\ experience_in_range st r /\ contacts_present st r)
  /\ (Forall searchable (resumes st) ->
      exists view, filteredResumes st = Some view)
  /\ (forall r, r ∈ resumes st -> (forall s, name r <> VStr s) ->
      filteredResumes st = None).
Proof.
  split; [exact (view_membership st) |].
  split; [exact (filteredResumes_searchable st) |].
  intros r Hin Hname.
  apply (filter__throws (keep st) (resumes st) r Hin).
  apply keep_throws_without_name. exact Hname.
Qed.

(** C9. The filtered view is a subsequence of the cached list: nothing is
    sorted or reordered, so the rows that pass keep the relative order they
    have in the list.  On a typed list the view is always computed. *)
Theorem C9_filtered_view_keeps_order (st : state) :
  (Forall typed (resumes st) -> exists view, filteredResumes st = Some view)
  /\ (forall view, filteredResumes st = Some view ->
        view `sublist_of` resumes st
        /\ forall (i j : nat) (a b : resume),
             i < j -> view !! i = Some a -> view !! j = Some b ->
             exists i' j', i' < j'
                           /\ resumes st !! i' = Some a
                           /\ resumes st !! j' = Some b).
Proof.
  split; [apply filteredResumes_typed |].
  intros view Hview.
  destruct (filter__Some _ _ _ Hview) as [Hsub _].
  split; [exact Hsub |].
  clear Hview. induction Hsub as [| x l1 l2 Hsub IH | x l1 l2 Hsub IH];
    intros i j a b Hij Hi Hj.
  - rewrite lookup_nil in Hi. discriminate Hi.
  - destruct j as [| j]; [lia |]. destruct i as [| i]; simpl in Hi, Hj.
    + injection Hi as <-.
      apply list_elem_of_lookup_2 in Hj.
      pose proof (elem_of_sublist _ _ _ Hj Hsub) as Hb.
      apply list_elem_of_lookup_1 in Hb as [j' Hj'].
      exists 0, (S j'). split; [lia |]. split; [reflexivity | exact Hj'].
    + destruct (IH i j a b ltac:(lia) Hi Hj) as (i' & j' & Hlt & Hi' & Hj').
      exists (S i'), (S j'). split; [lia |]. split; assumption.
  - destruct (IH i j a b Hij Hi Hj) as (i' & j' & Hlt & Hi' & Hj').
    exists (S i'), (S j'). split; [lia |]. split; assumption.
Qed.

End Filters.

(** ** From upstream items to rows *)

Section Rows.

Context `{Engine}.

(** What [mapItem] puts in each field. *)
Lemma mapItem_fields (p : value) (index : nat) (item : value) (r : resume) :
  mapItem p index item = Some r ->
  exists n sc j ex em ph,
    get item "name" = Some n /\ get item "score" = Some sc
    /\ get item "justification" = Some j /\ get item "experience" = Some ex
    /\ get item "email" = Some em /\ get item "phone" = Some ph
    /\ candidateId r = index + 1
    /\ name r = or_ n (VStr ("Candidate " ++ digits (index + 1)))
    /\ Rank r = or_ sc (VNum (num_of_nat 0))
    /\ justification r = or_ j (VStr "")
    /\ experience r = match ex with VNum x => x | _ => num_of_nat 0 end
    /\ email r = (if str_eq em "xxx" || negb (truthy em)
                  then VStr "No email" else em)
    /\ phone r = (if str_eq ph "xxx" || negb (truthy ph)
                  then VStr "No phone" else ph).
Proof.
  unfold mapItem. intros Hm.
  destruct (get p "id"); simpl in Hm; [| discriminate Hm].
  destruct (get p "exe_name"); simpl in Hm; [| discriminate Hm].
  destruct (get item "name") as [n |]; simpl in Hm; [| discriminate Hm].
  destruct (get item "score") as [sc |]; simpl in Hm; [| discriminate Hm].
  destruct (get item "justification") as [j |]; simpl in Hm; [| discriminate Hm].
  destruct (get item "experience") as [ex |]; simpl in Hm; [| discriminate Hm].
  destruct (get item "email") as [em |]; simpl in Hm; [| discriminate Hm].
  destruct (get item "phone") as [ph |]; simpl in Hm; [| discriminate Hm].
  injection Hm as <-. exists n, sc, j, ex, em, ph. simpl.
  repeat split; reflexivity.
Qed.

(** Upstream items of the right types give typed rows. *)
Lemma mapItem_typed (p : value) (index : nat) (item : value) (r : resume) :
  mapItem p index item = Some r -> well_formed item -> typed r.
Proof.
  intros Hr (Hn & Hs & Hj & He).
  destruct (mapItem_fields p index item r Hr)
    as (n & sc & j & ex & em & ph & Gn & Gsc & Gj & Gex & Gem & Gph
        & Fid & Fn & Fsc & Fj & Fex & Fem & Fph).
  rewrite Gn in Hn. rewrite Gsc in Hs. rewrite Gj in Hj. rewrite Gem in He.
  repeat split.
  - rewrite Fn. destruct Hn as [[= ->] | [[= ->] | [s [= ->]]]];
      try (eexists; reflexivity).
    unfold or_. destruct (truthy (VStr s)); eexists; reflexivity.
  - rewrite Fsc. destruct Hs as [[= ->] | [[= ->] | [x [= ->]]]];
      try (eexists; split; [reflexivity | discriminate]).
    unfold or_. destruct (truthy (VNum x)) eqn:Hx.
    + exists x. split; [reflexivity |]. intros ->. discriminate Hx.
    + eexists. split; [reflexivity | discriminate].
  - rewrite Fj. destruct Hj as [[= ->] | [[= ->] | [s [= ->]]]];
      try (eexists; reflexivity).
    unfold or_. destruct (truthy (VStr s)); eexists; reflexivity.
  - rewrite Fem. destruct He as [[= ->] | [[= ->] | [s [= ->]]]];
      try (eexists; reflexivity).
    destruct (str_eq (VStr s) "xxx" || negb (truthy (VStr s)));
      eexists; reflexivity.
Qed.

(** So a cached entry that wraps well-formed items loads as a typed
    list. *)
Lemma load_typed (ls : gmap string value) (s : state) (v : value)
    (items : list value) :
  ls !! "resumeResults" = Some v ->
  get v "result" = Some (VArr items) ->
  Forall (fun item => item <> VNull /\ item <> VUndef /\ well_formed item) items ->
  length (resumes (load ls s)) = length items
  /\ Forall typed (resumes (load ls s)).
Proof.
  intros Hv Hres Hall.
  assert (Ht : truthy v = true).
  { destruct v; simpl in *; try discriminate; reflexivity. }
  destruct (map_from_total (mapItem v) 0 items) as [rows Hrows].
  { intros i item Hi. simpl.
    destruct (proj1 (Forall_lookup _ _) Hall i item Hi) as (Hn & Hu & _).
    apply mapItem_total; assumption. }
  rewrite (load_wrapped ls s v items rows Hv Hres Hrows).
  destruct (map_from_lookup _ _ _ _ Hrows) as [Hlen Hlook].
  split; [exact Hlen |].
  apply Forall_lookup. intros i r Hr.
  destruct (lookup_lt_is_Some_2 items i) as [item Hi].
  { rewrite <- Hlen. apply lookup_lt_is_Some_1. eauto. }
  destruct (proj1 (Forall_lookup _ _) Hall i item Hi) as (_ & _ & Hwf).
  apply (mapItem_typed v i item r); [| exact Hwf].
  specialize (Hlook i item Hi). simpl in Hlook. congruence.
Qed.

(** C5, as the code has it.  When no element of the upstream array is
    [null], every element gets a row, at its own position, in which each
    absent field is defaulted: a missing name becomes "Candidate N" with N
    the 1-based position, a missing score becomes 0, a missing
    justification becomes the empty string, an experience that is missing
    or not a number becomes 0, a missing email becomes "No email" and a
    missing phone becomes "No phone".  When some element is [null], the
    callback throws on it: the mapping makes no row, for that element or
    for any other, and the results view keeps the rows it had. *)
Theorem C5_absent_fields_defaulted (p : value) (items : list value) :
  truthy p = true ->
  (Forall (fun x => x <> VNull /\ x <> VUndef) items ->
   forall (i : nat) (item : value),
     items !! i = Some item ->
     exists (rows : list resume) (r : resume),
       map_from (mapItem p) 0 items = Some rows
       /\ rows !! i = Some r
       /\ candidateId r = i + 1
       /\ (get item "name" = Some VUndef ->
           name r = VStr ("Candidate " ++ digits (i + 1)))
       /\ (get item "score" = Some VUndef -> Rank r = VNum (num_of_nat 0))
       /\ (get item "justification" = Some VUndef -> justification r = VStr "")
       /\ ((forall x, get item "experience" <> Some (VNum x)) ->
           experience r = num_of_nat 0)
       /\ (get item "email" = Some VUndef -> email r = VStr "No email")
       /\ (get item "phone" = Some VUndef -> phone r = VStr "No phone"))
  /\ (forall k : nat,
        items !! k = Some VNull ->
        map_from (mapItem p) 0 items = None
        /\ forall (ls : gmap string value) (s : state),
             ls !! "resumeResults" = Some p ->
             get p "result" = Some (VArr items) ->
             resumes (load ls s) = resumes s).
Proof.
  intros Hp. split.
  - intros Hall i item Hi.
    destruct (map_from_total (mapItem p) 0 items) as [rows Hrows].
    { intros k x Hk. destruct (proj1 (Forall_lookup _ _) Hall k x Hk).
      apply mapItem_total; assumption. }
    destruct (map_from_lookup _ _ _ _ Hrows) as [_ Hlook].
    specialize (Hlook i item Hi). simpl in Hlook.
    destruct (proj1 (Forall_lookup _ _) Hall i item Hi) as [Hn Hu].
    destruct (mapItem_total p i item Hp Hn Hu) as [r Hr].
    exists rows, r. split; [exact Hrows |].
    split; [congruence |].
    destruct (mapItem_fields p i item r Hr)
      as (n & sc & j & ex & em & ph & Gn & Gsc & Gj & Gex & Gem & Gph
          & Fid & Fn & Fsc & Fj & Fex & Fem & Fph).
    split; [exact Fid |].
    repeat split.
    + intros Hmiss. rewrite Fn. replace n with VUndef by congruence. reflexivity.
    + intros Hmiss. rewrite Fsc. replace sc with VUndef by congruence. reflexivity.
    + intros Hmiss. rewrite Fj. replace j with VUndef by congruence. reflexivity.
    + intros Hmiss. rewrite Fex. destruct ex as [| | | x | | | |]; try reflexivity.
      exfalso. apply (Hmiss x). exact Gex.
    + intros Hmiss. rewrite Fem. replace em with VUndef by congruence. reflexivity.
    + intros Hmiss. rewrite Fph. replace ph with VUndef by congruence. reflexivity.
  - intros k Hk. split.
    + apply (map_from_null _ 0 items k (mapItem_null p) Hk).
    + intros ls s Hv Hres. apply (load_null ls s p items k Hv Hres Hk).
Qed.

(** A row that is kept passed both contact filters. *)
Lemma keep_true_contacts (st : state) (r : resume) :
  keep st r = Some true -> contacts_present st r.
Proof.
  unfold keep. intros Hk.
  destruct (rank r); simpl in Hk; [| discriminate Hk].
  destruct (matchesSearch _ r); simpl in Hk; [| discriminate Hk].
  injection Hk as Hk.
  rewrite !truthy_and_, !andb_true_iff, !truthy_has_contact in Hk.
  unfold contacts_present. tauto.
Qed.

(** C8. An upstream email (phone) equal to "xxx" is replaced by "No email"
    ("No phone"), which is what an absent field gives, and the row is in no
    filtered view computed while the email (phone) toggle is on. *)
Theorem C8_xxx_is_a_missing_contact (p : value) (index : nat) (item : value)
    (r : resume) :
  mapItem p index item = Some r ->
  (get item "email" = Some (VStr "xxx") ->
     email r = VStr "No email"
     /\ (forall item' r',
           get item' "email" = Some VUndef ->
           mapItem p index item' = Some r' -> email r' = email r)
     /\ (forall st view,
           filterEmail st = true -> filteredResumes st = Some view -> r ∉ view))
  /\ (get item "phone" = Some (VStr "xxx") ->
     phone r = VStr "No phone"
     /\ (forall item' r',
           get item' "phone" = Some VUndef ->
           mapItem p index item' = Some r' -> phone r' = phone r)
     /\ (forall st view,
           filterPhone st = true -> filteredResumes st = Some view -> r ∉ view)).
Proof.
  intros Hr.
  destruct (mapItem_fields p index item r Hr)
    as (n & sc & j & ex & em & ph & Gn & Gsc & Gj & Gex & Gem & Gph
        & Fid & Fn & Fsc & Fj & Fex & Fem & Fph).
  split.
  - intros Hx. assert (He : email r = VStr "No email").
    { rewrite Fem. replace em with (VStr "xxx") by congruence. reflexivity. }
    split; [exact He |]. split.
    + intros item' r' Hmiss Hr'.
      destruct (mapItem_fields p index item' r' Hr')
        as (_ & _ & _ & _ & em' & _ & _ & _ & _ & _ & Gem' & _ & _ & _ & _ & _
            & _ & Fem' & _).
      rewrite He, Fem'. replace em' with VUndef by congruence. reflexivity.
    + intros st view Hon Hview Hin.
      destruct (filter__Some _ _ _ Hview) as [_ Hmem].
      apply Hmem in Hin as [_ Hk].
      destruct (keep_true_contacts st r Hk) as [Hemail _].
      destruct (Hemail Hon) as [_ Hne]. contradiction.
  - intros Hx. assert (Hp : phone r = VStr "No phone").
    { rewrite Fph. replace ph with (VStr "xxx") by congruence. reflexivity. }
    split; [exact Hp |]. split.
    + intros item' r' Hmiss Hr'.
      destruct (mapItem_fields p index item' r' Hr')
        as (_ & _ & _ & _ & _ & ph' & _ & _ & _ & _ & _ & Gph' & _ & _ & _ & _
            & _ & _ & Fph').
      rewrite Hp, Fph'. replace ph' with VUndef by congruence. reflexivity.
    + intros st view Hon Hview Hin.
      destruct (filter__Some _ _ _ Hview) as [_ Hmem].
      apply Hmem in Hin as [_ Hk].
      destruct (keep_true_contacts st r Hk) as [_ Hphone].
      destruct (Hphone Hon) as [_ Hne]. contradiction.
Qed.

End Rows.

(** ** The properties on the sample data *)

Lemma sample_loaded_typed : Forall typed (resumes Sample.loaded).
Proof.
  vm_compute.
  repeat constructor; try (eexists; reflexivity);
    eexists; (split; [reflexivity | discriminate]).
Qed.

Example sample_filtered_view :
  @filteredResumes Sample.engine Sample.loaded
  = Some [ {| orgId := VNum (num_of_nat 7); exeName := VStr "sql";
              candidateId := 1; name := VStr "Ann";
              Rank := VNum (num_of_nat 9); justification := VStr "";
              experience := num_of_nat 0; email := VStr "No email";
              phone := VStr "No phone" |} ].
Proof. vm_compute. reflexivity. Qed.

Lemma sample_loaded_searchable :
  Forall (@searchable Sample.engine) (resumes Sample.loaded).
Proof.
  eapply Forall_impl; [exact sample_loaded_typed |].
  exact (@typed_searchable Sample.engine).
Qed.

Lemma C2_witness :
  Forall (@searchable Sample.engine) (resumes Sample.loaded)
  /\ exists view,
       @filteredResumes Sample.engine Sample.loaded = Some view
       /\ forall r, r ∈ view <->
            r ∈ resumes Sample.loaded
            /\ @matches_text Sample.engine Sample.loaded r
            /\ @score_in_range Sample.engine Sample.loaded r
            /\ experience_in_range Sample.loaded r
            /\ contacts_present Sample.loaded r.
Proof.
  split; [exact sample_loaded_searchable |].
  destruct (@C2_filtered_view_membership Sample.engine Sample.loaded)
    as (Hmem & Hview & _).
  destruct (Hview sample_loaded_searchable) as [view Hv].
  exists view. split; [exact Hv | exact (Hmem view Hv)].
Defined.

(** C2 as stated fails on a cached list with a name that is not text.
    The upstream name 42 is kept by the mapping; the row meets the four
    predicates (its email contains the empty query, its score 5 and its
    experience 0 are within the initial ranges, no toggle is on), and it is
    in no filtered view, because the callback throws on it and no view is
    computed. *)
Lemma C2_counterexample :
  let item := VObj [("name", VNum (num_of_nat 42)); ("score", VNum (num_of_nat 5));
                    ("email", VStr "ann@x.org")] in
  let ls : gmap string value :=
    <["resumeResults" := VObj [("result", VArr [item])]]> ∅ in
  let st := load ls initialState in
  exists r : resume,
    resumes st = [r]
    /\ name r = VNum (num_of_nat 42)
    /\ @matches_text Sample.engine st r
    /\ @score_in_range Sample.engine st r
    /\ experience_in_range st r
    /\ contacts_present st r
    /\ @filteredResumes Sample.engine st = None.
Proof.
  intros item ls st. eexists.
  split; [vm_compute; reflexivity |].
  split; [reflexivity |].
  assert (Hle : forall a b : nat, (a <=? b)%nat = true ->
                                  le (num_of_nat a) (num_of_nat b)).
  { intros a b Hab. constructor. unfold inject_Z, Qle. simpl.
    apply Nat.leb_le in Hab. lia. }
  split.
  { right. left. exists "ann@x.org", "", "ann@x.org". split; reflexivity. }
  split.
  { exists (num_of_nat 5). split; [reflexivity |].
    split; [apply (Hle 1 5) | apply (Hle 5 10)]; reflexivity. }
  split.
  { split; [apply (Hle 0 0) | apply (Hle 0 35)]; reflexivity. }
  split.
  { split; intros Hon; discriminate Hon. }
  vm_compute. reflexivity.
Qed.

Lemma C9_witness :
  Forall typed (resumes Sample.loaded)
  /\ exists view,
       @filteredResumes Sample.engine Sample.loaded = Some view
       /\ view `sublist_of` resumes Sample.loaded.
Proof.
  split; [exact sample_loaded_typed |].
  destruct (proj1 (@C9_filtered_view_keeps_order Sample.engine Sample.loaded)
              sample_loaded_typed) as [view Hview].
  exists view. split; [exact Hview |].
  apply (proj2 (@C9_filtered_view_keeps_order Sample.engine Sample.loaded)
           view Hview).
Defined.

Lemma C5_witness :
  truthy Sample.entry = true
  /\ Forall (fun x => x <> VNull /\ x <> VUndef) Sample.candidates
  /\ exists (rows : list resume) (r : resume),
       map_from (mapItem Sample.entry) 0 Sample.candidates = Some rows
       /\ rows !! 1 = Some r
       /\ name r = VStr "Candidate 2"
       /\ Rank r = VNum (num_of_nat 0)
       /\ justification r = VStr ""
       /\ experience r = num_of_nat 0
       /\ email r = VStr "No email".
Proof.
  assert (Hall : Forall (fun x => x <> VNull /\ x <> VUndef) Sample.candidates).
  { repeat constructor; discriminate. }
  split; [reflexivity |]. split; [exact Hall |].
  destruct (proj1 (C5_absent_fields_defaulted Sample.entry Sample.candidates
                     eq_refl) Hall 1
              (VObj [("experience", VStr "five"); ("phone", VStr "555")])
              eq_refl)
    as (rows & r & Hrows & Hr & _ & Hname & Hscore & Hjust & Hexp & Hemail & _).
  exists rows, r. split; [exact Hrows |]. split; [exact Hr |].
  split; [apply Hname; reflexivity |].
  split; [apply Hscore; reflexivity |].
  split; [apply Hjust; reflexivity |].
  split; [apply Hexp; intros x; discriminate |].
  apply Hemail; reflexivity.
Defined.

(** C5 as stated fails on an upstream array that holds a [null].  Its
    first element has no name, and alone it would get the row named
    "Candidate 1"; with the [null] after it the mapping throws, and the
    results view that loads the entry has a row for neither. *)
Lemma C5_counterexample :
  let item := VObj [("score", VNum (num_of_nat 9))] in
  let cached_entry := VObj [("id", VNum (num_of_nat 7));
                            ("result", VArr [item; VNull])] in
  let ls : gmap string value := <["resumeResults" := cached_entry]> ∅ in
  get item "name" = Some VUndef
  /\ (exists r : resume,
        map_from (mapItem cached_entry) 0 [item] = Some [r]
        /\ name r = VStr "Candidate 1")
  /\ map_from (mapItem cached_entry) 0 [item; VNull] = None
  /\ resumes (load ls initialState) = [].
Proof.
  intros item cached_entry ls.
  split; [reflexivity |].
  split; [eexists; split; reflexivity |].
  split; reflexivity.
Qed.

Lemma C8_witness :
  let item := VObj [("name", VStr "Ann"); ("score", VNum (num_of_nat 9));
                    ("email", VStr "xxx")] in
  let st := update ToggleEmail Sample.loaded in
  exists r : resume,
    mapItem Sample.entry 0 item = Some r
    /\ get item "email" = Some (VStr "xxx")
    /\ email r = VStr "No email"
    /\ filterEmail st = true
    /\ r ∈ resumes st
    /\ @filteredResumes Sample.engine st = Some []
    /\ r ∉ ([] : list resume).
Proof.
  intros item st. eexists.
  split; [reflexivity |]. split; [reflexivity |].
  destruct (proj1 (@C8_xxx_is_a_missing_contact Sample.engine Sample.entry 0 item _
                     eq_refl) eq_refl) as (Hemail & _ & Hout).
  split; [exact Hemail |]. split; [reflexivity |].
  split; [vm_compute; constructor |].
  split; [vm_compute; reflexivity |].
  apply (Hout st [] eq_refl). vm_compute. reflexivity.
Defined.

(** ** The description that is sent *)

Section Description.

Context `{Engine}.

(** Induction on a tree, with the hypothesis for every child. *)
Lemma node_induction (P : node -> Prop) :
  (forall d, P (Text d)) ->
  (forall d, P (Comment d)) ->
  (forall t cs, Forall P cs -> P (Element t cs)) ->
  forall n, P n.
Proof.
  intros Htext Hcomment Helement.
  fix IH 1. intros [d | d | t cs].
  - apply Htext.
  - apply Hcomment.
  - apply Helement. induction cs as [| c cs IHcs]; constructor.
    + apply IH.
    + exact IHcs.
Qed.

(** The four passes of the loop over [blockTags] do together what the one
    pass of [spaced] does: a tag has one name, so an element gets its
    space in exactly one of the passes, or in none. *)
Lemma passes_spaced (n : node) :
  appendSpace "li" (appendSpace "br" (appendSpace "div" (appendSpace "p" n)))
  = spaced n.
Proof.
  induction n as [d | d | t cs IH] using node_induction; try reflexivity.
  assert (Hcs : map (appendSpace "li")
                  (map (appendSpace "br")
                     (map (appendSpace "div") (map (appendSpace "p") cs)))
                = map spaced cs).
  { rewrite !map_map. induction IH as [| c cs' Hc _ IHcs]; simpl;
      [reflexivity | rewrite Hc, IHcs; reflexivity]. }
  cbn [appendSpace spaced blockTags existsb].
  destruct (String.eqb_spec t "p") as [-> | Hp].
  { simpl. rewrite !map_app, Hcs. reflexivity. }
  destruct (String.eqb_spec t "div") as [-> | Hd].
  { simpl. rewrite !map_app, Hcs. reflexivity. }
  destruct (String.eqb_spec t "br") as [-> | Hb].
  { simpl. rewrite !map_app, Hcs. reflexivity. }
  destruct (String.eqb_spec t "li") as [-> | Hl].
  { simpl. rewrite Hcs. reflexivity. }
  simpl.
  destruct (String.eqb_spec t "p"); [contradiction |].
  destruct (String.eqb_spec t "div"); [contradiction |].
  destruct (String.eqb_spec t "br"); [contradiction |].
  destruct (String.eqb_spec t "li"); [contradiction |].
  simpl. rewrite Hcs, app_nil_r. reflexivity.
Qed.

Lemma sor_same (a : string) : sor a (sor a "") = a.
Proof.
  unfold sor. destruct (nonempty a) eqn:E; [reflexivity |].
  apply nonempty_false in E. congruence.
Qed.

(** [stripHtml] computes the stripped form. *)
Lemma stripHtml_stripped (html : string) : stripHtml html = stripped html.
Proof.
  unfold stripHtml, stripped, innerText. rewrite sor_same.
  cbn [blockTags fold_left appendSpaceBelow].
  rewrite !map_map. do 3 f_equal.
  apply map_ext. intros n. apply passes_spaced.
Qed.

(** C6, as the code has it.  The [job_description] of the request that is
    sent is the HTML-stripped form of the entered description when that
    form is not empty, and "No description" when it is empty.  The
    stripped form is the text of the parsed description with the tags
    removed and a space appended inside each [p], [div], [br] and [li]
    element, trimmed. *)
Theorem C6_job_description_sent (f : formData) (net : fetch_outcome) (w : world) :
  complete f ->
  let sent := Payload.job_description (data (request_of w f)) in
  head (emitted f net w) = Some (Fetched (request_of w f))
  /\ stripHtml (jobDescription f) = stripped (jobDescription f)
  /\ (stripped (jobDescription f) <> "" -> sent = stripped (jobDescription f))
  /\ (stripped (jobDescription f) = "" -> sent = "No description").
Proof.
  intros Hc sent. split.
  - destruct (handleSubmit_sends f net w Hc) as (l & rest & Hrun).
    rewrite (emitted_app _ _ _ _ _ Hrun). reflexivity.
  - rewrite <- stripHtml_stripped. subst sent. simpl.
    unfold sor. split; [reflexivity |]. split.
    + intros Hne. apply nonempty_true in Hne. rewrite Hne. reflexivity.
    + intros He. apply nonempty_false in He. rewrite He. reflexivity.
Qed.

End Description.

Lemma C6_witness :
  complete Sample.form
  /\ @stripped Sample.engine (jobDescription Sample.form) = "Build things"
  /\ Payload.job_description (data (@request_of Sample.engine Sample.world Sample.form))
     = @stripped Sample.engine (jobDescription Sample.form).
Proof.
  split; [exact sample_form_complete |]. split; [reflexivity |].
  apply (@C6_job_description_sent Sample.engine Sample.form
           (Sample.respond Sample.wrapped) Sample.world sample_form_complete).
  vm_compute. discriminate.
Defined.

(** C6 as stated fails in two ways.  A description that is markup only,
    such as the ["<p><br></p>"] of an empty rich-text editor, passes the
    validation, its stripped form is empty, and the request that is sent
    carries "No description" instead.  And the text sent can be HTML
    markup: of a description whose markup is written with character
    references the tags are removed and the references are sent as the
    characters they stand for, which make up an element. *)
Lemma C6_counterexample :
  (complete Sample.form_br
   /\ head (@emitted Sample.engine Sample.form_br
              (Sample.respond Sample.wrapped) Sample.world)
      = Some (Fetched (@request_of Sample.engine Sample.world Sample.form_br))
   /\ @stripHtml Sample.engine (jobDescription Sample.form_br) = ""
   /\ Payload.job_description
        (data (@request_of Sample.engine Sample.world Sample.form_br))
      = "No description"
   /\ Payload.job_description
        (data (@request_of Sample.engine Sample.world Sample.form_br))
      <> @stripHtml Sample.engine (jobDescription Sample.form_br))
  /\ (complete Sample.form_typed
      /\ jobDescription Sample.form_typed = "<p>&lt;b&gt;bold&lt;/b&gt;</p>"
      /\ head (@emitted Sample.engine Sample.form_typed
                 (Sample.respond Sample.wrapped) Sample.world)
         = Some (Fetched (@request_of Sample.engine Sample.world Sample.form_typed))
      /\ Payload.job_description
           (data (@request_of Sample.engine Sample.world Sample.form_typed))
         = "<b>bold</b>"
      /\ @parseFragment Sample.engine "<b>bold</b>" = [Element "b" [Text "bold"]]).
Proof.
  assert (Hsent : forall f, complete f ->
            head (@emitted Sample.engine f (Sample.respond Sample.wrapped) Sample.world)
            = Some (Fetched (@request_of Sample.engine Sample.world f))).
  { intros f Hc.
    destruct (@handleSubmit_sends Sample.engine f
                (Sample.respond Sample.wrapped) Sample.world Hc)
      as (l & rest & Hrun).
    rewrite (@emitted_app Sample.engine _ _ _ _ _ Hrun). reflexivity. }
  split.
  - assert (Hc : complete Sample.form_br) by (repeat split; discriminate).
    split; [exact Hc |]. split; [exact (Hsent _ Hc) |].
    split; [reflexivity |]. split; [reflexivity |]. discriminate.
  - assert (Hc : complete Sample.form_typed) by (repeat split; discriminate).
    split; [exact Hc |]. split; [reflexivity |]. split; [exact (Hsent _ Hc) |].
    split; reflexivity.
Qed.

(** ** The memo is never stale *)

Section Renders.

Context `{Engine}.

Lemma filter__ext (f g : resume -> option bool) (l : list resume) :
  (forall r, f r = g r) -> filter_ f l = filter_ g l.
Proof.
  intros Hfg. induction l as [| x rest IH]; simpl; [reflexivity |].
  rewrite Hfg, IH. reflexivity.
Qed.

(** The callback reads the state through its dependencies and the query
    only. *)
Lemma filteredResumes_deps (s1 s2 : state) :
  deps_of s1 = deps_of s2 -> searchQuery s1 = searchQuery s2 ->
  filteredResumes s1 = filteredResumes s2.
Proof.
  unfold deps_of. intros [= Hs He Hfe Hfp Hr] Hq.
  unfold filteredResumes. rewrite Hr. apply filter__ext.
  intros r. unfold keep. rewrite Hs, He, Hfe, Hfp, Hq. reflexivity.
Qed.

Lemma load_searchQuery (ls : gmap string value) (s : state) :
  searchQuery (load ls s) = searchQuery s.
Proof.
  unfold load.
  destruct (truthy _); [| reflexivity].
  destruct (get _ "result") as [[] |]; try reflexivity.
  destruct (map_from _ 0 items); reflexivity.
Qed.

(** [load] leaves the filter settings as they are. *)
Lemma load_ranges (ls : gmap string value) (s : state) :
  (searchQuery (load ls s) = searchQuery s
   /\ scoreRange (load ls s) = scoreRange s
   /\ experienceRange (load ls s) = experienceRange s
   /\ filterEmail (load ls s) = filterEmail s
   /\ filterPhone (load ls s) = filterPhone s)
  /\ userKeySkills (load ls s)
     = match parsed_or (ls !! "keySkills") (VArr []) with
       | VArr l => l
       | _ => []
       end.
Proof.
  split; [| apply load_userKeySkills].
  repeat split; unfold load;
    (destruct (truthy _); [| reflexivity]);
    (destruct (get _ "result") as [[] |]; try reflexivity);
    destruct (map_from _ 0 items); reflexivity.
Qed.

Lemma update_searchQuery (a : action) (s : state) :
  searchQuery (update a s) = searchQuery s.
Proof. destruct a; simpl; try reflexivity. apply load_searchQuery. Qed.

(** The query is the one dependency the array leaves out, and it never
    changes: at every render the memo holds the value of the callback on
    the current state. *)
Lemma memo_fresh (s : state) (m : memo) :
  rendered s m ->
  searchQuery s = "" /\ memo_deps m = deps_of s
  /\ memo_value m = filteredResumes s.
Proof.
  induction 1 as [m Hm | s m a m' Hprev IH Hm].
  - inversion Hm as [| m0 Hnone]; subst; [repeat split | discriminate Hnone].
  - destruct IH as (Hq & Hd & Hv).
    split; [rewrite update_searchQuery; exact Hq |].
    inversion Hm as [| m0 Hsome Hsame]; subst; [split; reflexivity |].
    injection Hsome as <-. split; [exact Hsame |].
    rewrite Hv. apply filteredResumes_deps.
    + congruence.
    + rewrite update_searchQuery. reflexivity.
Qed.

(** So what is displayed is the view of the current state. *)
Corollary displayed_view_membership (s : state) (m : memo) :
  rendered s m -> Forall typed (resumes s) ->
  exists view,
    memo_value m = Some view
    /\ forall r, r ∈ view <-> r ∈ resumes s /\ passes s r.
Proof.
  intros Hr Hty. destruct (memo_fresh s m Hr) as (_ & _ & ->).
  destruct (filteredResumes_typed s Hty) as [view Hview].
  exists view. split; [exact Hview |].
  exact (view_membership s view Hview).
Qed.

(** The query of a rendered state is empty, and every text contains the
    empty query: in what is displayed the text filter holds whether the
    fields are compared in lower case or as they are. *)
Corollary displayed_view_membership_verbatim (s : state) (m : memo) :
  rendered s m -> Forall typed (resumes s) ->
  exists view,
    memo_value m = Some view
    /\ forall r, r ∈ view <->
         r ∈ resumes s
         /\ (contains_verbatim (name r) (searchQuery s)
             \/ contains_verbatim (email r) (searchQuery s)
             \/ contains_verbatim (justification r) (searchQuery s))
         /\ score_in_range s r /\ experience_in_range s r
         /\ contacts_present s r.
Proof.
  intros Hr Hty.
  destruct (displayed_view_membership s m Hr Hty) as (view & Hview & Hmem).
  destruct (memo_fresh s m Hr) as (Hq & _ & _).
  exists view. split; [exact Hview |].
  intros r. rewrite Hmem. unfold passes, matches_text.
  split; intros (Hin & Htext & Hrest); (split; [exact Hin |]);
    (split; [| exact Hrest]);
    destruct (proj1 (Forall_forall _ _) Hty r Hin) as ([n Hn] & _);
    left; rewrite Hq.
  - exists n, EmptyString, n. split; [exact Hn | reflexivity].
  - exists n, EmptyString, (toLowerCase n). split; [exact Hn | reflexivity].
Qed.

End Renders.

(** * Further properties *)

(** ** Every run of [handleSubmit] *)

Section Runs.

Context `{Engine}.

(** A complete form either ends in the [catch] branch with the storage as
    it was, or succeeds. *)
Lemma handleSubmit_complete (f : formData) (net : fetch_outcome) (w : world) :
  complete f ->
  (exists e,
     handleSubmit f net w =
       (Ok tt, {| localStorage := localStorage w;
                  events := events w ++
                    [Fetched (request_of w f); ConsoleError e;
                     Toasted (submissionError e)] |}))
  \/ (exists result d,
        succeeded net result /\ get result "data" = Some d).
Proof.
  intros Hc.
  destruct net as [reason | r].
  { left. exists (failure (Rejects reason)).
    apply handleSubmit_failed; [exact Hc | exact I]. }
  destruct (body r) as [result |] eqn:Hb.
  2: { left. exists (failure (Resolves r)).
       apply handleSubmit_failed; [exact Hc | left; exact Hb]. }
  destruct (ok r) eqn:Hok.
  2: { left. exists (failure (Resolves r)).
       apply handleSubmit_failed; [exact Hc | right; exact Hok]. }
  destruct (get result "data") as [d |] eqn:Hd.
  { right. exists result, d. split; [exists r; auto | exact Hd]. }
  left. exists TypeError_.
  apply guards_complete in Hc as [Hi Hr].
  unfold handleSubmit. rewrite Hi, Hr.
  unfold try_catch, bind, getItem, fetch, bind, emit, json, read,
    console_error, toast, emit, throw, ret, request_of, submissionError.
  simpl. rewrite Hb. simpl. rewrite Hok. simpl. rewrite Hd. simpl.
  rewrite <- !app_assoc. reflexivity.
Qed.

(** The guards partition the forms. *)
Lemma guards_or_complete (f : formData) :
  missingInformation f = true
  \/ (missingInformation f = false /\ missingResume f = true)
  \/ complete f.
Proof.
  destruct (missingInformation f) eqn:Hi; [left; reflexivity |].
  destruct (missingResume f) eqn:Hr; [right; left; split; reflexivity |].
  right. right. apply guards_complete. split; assumption.
Qed.

(** X1. Whatever the form and the network, [handleSubmit] touches no entry
    of the storage other than [resumeResults] and [keySkills]. *)
Theorem handleSubmit_storage_frame (f : formData) (net : fetch_outcome)
    (w : world) (k : string) :
  k <> "resumeResults" -> k <> "keySkills" ->
  localStorage (snd (handleSubmit f net w)) !! k = localStorage w !! k.
Proof.
  intros Hk1 Hk2.
  destruct (guards_or_complete f) as [Hi | [[Hi Hr] | Hc]].
  - rewrite (handleSubmit_missingInformation f net w Hi). reflexivity.
  - rewrite (handleSubmit_missingResume f net w Hi Hr). reflexivity.
  - destruct (handleSubmit_complete f net w Hc) as [[e Hrun] | (result & d & Hs & Hd)].
    + rewrite Hrun. reflexivity.
    + rewrite (handleSubmit_succeeded f net w result d Hc Hs Hd). simpl.
      rewrite !lookup_insert_ne by congruence. reflexivity.
Qed.

(** X2. Every run ends with exactly one toast, its last event: the
    "default" success toast when the run navigated, a "destructive" one
    when it did not. *)
Theorem handleSubmit_one_toast (f : formData) (net : fetch_outcome) (w : world) :
  exists before t,
    emitted f net w = before ++ [Toasted t]
    /\ existsb is_toast before = false
    /\ ((variant t = "default" /\ existsb is_navigation before = true)
        \/ (variant t = "destructive" /\ existsb is_navigation before = false)).
Proof.
  destruct (guards_or_complete f) as [Hi | [[Hi Hr] | Hc]].
  - rewrite (emitted_app _ _ _ _ _ (handleSubmit_missingInformation f net w Hi)).
    exists [], {| title := "Missing Information";
                  description := Lit "Please fill in all required fields before submitting.";
                  variant := "destructive" |}.
    repeat split. right. split; reflexivity.
  - rewrite (emitted_app _ _ _ _ _ (handleSubmit_missingResume f net w Hi Hr)).
    exists [], {| title := "Missing Resume";
                  description := Lit "Please upload at least one resume before submitting.";
                  variant := "destructive" |}.
    repeat split. right. split; reflexivity.
  - destruct (handleSubmit_complete f net w Hc) as [[e Hrun] | (result & d & Hs & Hd)].
    + rewrite (emitted_app _ _ _ _ _ Hrun).
      exists [Fetched (request_of w f); ConsoleError e], (submissionError e).
      repeat split. right. split; reflexivity.
    + rewrite (emitted_app _ _ _ _ _ (handleSubmit_succeeded f net w result d Hc Hs Hd)).
      exists [Fetched (request_of w f); Navigated "/resumes"],
        {| title := "Success";
           description := Lit "Job submitted and resumes processed successfully.";
           variant := "default" |}.
      repeat split. left. split; reflexivity.
Qed.

(** X3. A run is all or nothing.  When it navigates, the form was complete,
    the call succeeded and both entries are cached; when it does not, the
    storage is exactly as before. *)
Theorem handleSubmit_all_or_nothing (f : formData) (net : fetch_outcome)
    (w : world) :
  let w' := snd (handleSubmit f net w) in
  (existsb is_navigation (emitted f net w) = true ->
     complete f
     /\ (exists result, succeeded net result)
     /\ is_Some (localStorage w' !! "resumeResults")
     /\ localStorage w' !! "keySkills"
        = Some (VArr (map VStr (split "," (requiredSkills f)))))
  /\ (existsb is_navigation (emitted f net w) = false ->
      localStorage w' = localStorage w).
Proof.
  intros w'. subst w'.
  destruct (guards_or_complete f) as [Hi | [[Hi Hr] | Hc]].
  - rewrite (emitted_app _ _ _ _ _ (handleSubmit_missingInformation f net w Hi)).
    rewrite (handleSubmit_missingInformation f net w Hi).
    split; [discriminate | reflexivity].
  - rewrite (emitted_app _ _ _ _ _ (handleSubmit_missingResume f net w Hi Hr)).
    rewrite (handleSubmit_missingResume f net w Hi Hr).
    split; [discriminate | reflexivity].
  - destruct (handleSubmit_complete f net w Hc) as [[e Hrun] | (result & d & Hs & Hd)].
    + rewrite (emitted_app _ _ _ _ _ Hrun), Hrun.
      split; [discriminate | reflexivity].
    + pose proof (handleSubmit_succeeded f net w result d Hc Hs Hd) as Hrun.
      rewrite (emitted_app _ _ _ _ _ Hrun), Hrun. simpl.
      split; [| discriminate].
      intros _. split; [exact Hc |]. split; [eauto |].
      split.
      * rewrite lookup_insert_ne by discriminate. rewrite lookup_insert_eq. eauto.
      * apply lookup_insert_eq.
Qed.

(** X4. A response that is ok but whose JSON body is [null] is reported as
    a submission error: the read of [data] throws, nothing is cached and
    nothing navigates. *)
Theorem handleSubmit_null_body (f : formData) (r : response) (w : world) :
  complete f -> ok r = true -> body r = Some VNull ->
  handleSubmit f (Resolves r) w =
    (Ok tt, {| localStorage := localStorage w;
               events := events w ++
                 [Fetched (request_of w f); ConsoleError TypeError_;
                  Toasted (submissionError TypeError_)] |}).
Proof.
  intros Hc Hok Hb. apply guards_complete in Hc as [Hi Hr].
  unfold handleSubmit. rewrite Hi, Hr.
  unfold try_catch, bind, getItem, fetch, bind, emit, json, read,
    console_error, toast, emit, throw, ret, request_of, submissionError.
  simpl. rewrite Hb. simpl. rewrite Hok. simpl.
  rewrite <- !app_assoc. reflexivity.
Qed.

(** X5. A successful response that carries no [data.result] (absent or
    falsy) caches the empty list and navigates all the same, and the
    results view that loads this entry keeps the rows it had. *)
Theorem handleSubmit_without_result (f : formData) (net : fetch_outcome)
    (w : world) (result d : value) (s : state) :
  complete f -> succeeded net result -> get result "data" = Some d ->
  truthy (optional_read d "result") = false ->
  let w' := snd (handleSubmit f net w) in
  localStorage w' !! "resumeResults" = Some (VArr [])
  /\ existsb is_navigation (emitted f net w) = true
  /\ resumes (load (localStorage w') s) = resumes s
  /\ caseId (load (localStorage w') s) = caseId s.
Proof.
  intros Hc Hs Hd Hfalsy w'. subst w'.
  pose proof (handleSubmit_succeeded f net w result d Hc Hs Hd) as Hrun.
  rewrite (emitted_app _ _ _ _ _ Hrun), Hrun. simpl.
  assert (Hstored :
    (<["keySkills" := VArr (map VStr (split "," (requiredSkills f)))]>
       (<["resumeResults" := cached (or_ (optional_read d "result") (VArr []))]>
          (localStorage w)) : gmap string value) !! "resumeResults"
    = Some (VArr [])).
  { rewrite lookup_insert_ne by discriminate. rewrite lookup_insert_eq.
    unfold or_. rewrite Hfalsy. reflexivity. }
  split; [exact Hstored |]. split; [reflexivity |].
  split; [apply (load_array _ _ []); exact Hstored |].
  unfold load. rewrite Hstored. reflexivity.
Qed.

End Runs.

(** ** Trimming *)

Section Trimming.

Lemma append_cons (c : ascii) (a b : string) :
  String.append (String c a) b = String c (String.append a b).
Proof. reflexivity. Qed.

Lemma append_assoc (a b c : string) :
  String.append (String.append a b) c = String.append a (String.append b c).
Proof.
  induction a as [| x a IH]; [reflexivity |].
  rewrite !append_cons, IH. reflexivity.
Qed.

Lemma reverse_onto_spec (acc s : string) :
  reverse_onto acc s = String.append (reverse s) acc.
Proof.
  unfold reverse. revert acc.
  induction s as [| c s IH]; intros acc; simpl; [reflexivity |].
  rewrite (IH (String c acc)), (IH (String c EmptyString)), append_assoc.
  reflexivity.
Qed.

Lemma append_empty_r (a : string) : String.append a EmptyString = a.
Proof.
  induction a as [| x a IH]; [reflexivity |].
  rewrite append_cons, IH. reflexivity.
Qed.

Lemma reverse_cons (c : ascii) (s : string) :
  reverse (String c s) = String.append (reverse s) (String c EmptyString).
Proof. unfold reverse at 1. simpl. apply reverse_onto_spec. Qed.

Lemma reverse_append (a b : string) :
  reverse (String.append a b) = String.append (reverse b) (reverse a).
Proof.
  induction a as [| c a IH].
  - change (String.append EmptyString b) with b.
    change (reverse EmptyString) with EmptyString.
    rewrite append_empty_r. reflexivity.
  - rewrite append_cons, !reverse_cons, IH, append_assoc. reflexivity.
Qed.

Lemma reverse_involutive (s : string) : reverse (reverse s) = s.
Proof.
  induction s as [| c s IH]; [reflexivity |].
  rewrite reverse_cons, reverse_append, IH. reflexivity.
Qed.

Lemma length_append (a b : string) :
  String.length (String.append a b) = String.length a + String.length b.
Proof.
  induction a as [| x a IH]; [reflexivity |].
  rewrite append_cons. simpl. rewrite IH. reflexivity.
Qed.

Lemma length_reverse (s : string) : String.length (reverse s) = String.length s.
Proof.
  induction s as [| c s IH]; [reflexivity |].
  rewrite reverse_cons, length_append, IH. simpl. lia.
Qed.

(** What [strip] removes is a prefix as long as the sequence. *)
Lemma strip_Some (p : list nat) (s r : string) :
  strip p s = Some r ->
  exists pre, s = String.append pre r /\ String.length pre = length p.
Proof.
  revert s. induction p as [| b p IH]; intros s Hs; simpl in Hs.
  - destruct s; injection Hs as <-; exists EmptyString; split; reflexivity.
  - destruct s as [| c s]; [discriminate Hs |].
    destruct (nat_of_ascii c =? b)%nat; [| discriminate Hs].
    destruct (IH s Hs) as (pre & -> & Hlen).
    exists (String c pre). split; [reflexivity | simpl; congruence].
Qed.

(** A prefix that is stripped from a string is stripped from every
    extension of it. *)
Lemma strip_append (p : list nat) (a b r : string) :
  strip p a = Some r -> strip p (String.append a b) = Some (String.append r b).
Proof.
  revert a. induction p as [| x p IH]; intros a Ha; simpl in Ha.
  - destruct a; injection Ha as <-; destruct b; reflexivity.
  - destruct a as [| c a]; [discriminate Ha |]. rewrite append_cons. simpl.
    destruct (nat_of_ascii c =? x)%nat; [| discriminate Ha].
    apply IH. exact Ha.
Qed.

Lemma strip_one_append (seqs : list (list nat)) (a b r : string) :
  strip_one seqs a = Some r -> strip_one seqs (String.append a b) <> None.
Proof.
  induction seqs as [| p seqs IH]; simpl; [discriminate |].
  destruct (strip p a) as [r' |] eqn:Hp.
  - intros _. rewrite (strip_append p a b r' Hp). discriminate.
  - intros Hrest. destruct (strip p (String.append a b)); [discriminate |].
    apply IH. exact Hrest.
Qed.

Lemma strip_one_Some (seqs : list (list nat)) (s r : string) :
  Forall (fun p => p <> []) seqs ->
  strip_one seqs s = Some r ->
  exists pre, s = String.append pre r /\ 0 < String.length pre.
Proof.
  induction 1 as [| p seqs Hp _ IH]; simpl; [discriminate |].
  destruct (strip p s) as [r' |] eqn:Hs.
  - intros [= <-]. destruct (strip_Some p s r' Hs) as (pre & -> & Hlen).
    exists pre. split; [reflexivity |]. destruct p; [contradiction | simpl in Hlen; lia].
  - exact IH.
Qed.

(** With enough fuel nothing is left to strip, and what is left is a
    suffix of the input. *)
Lemma strip_all_spec (seqs : list (list nat)) (fuel : nat) (s : string) :
  Forall (fun p => p <> []) seqs ->
  String.length s <= fuel ->
  strip_one seqs (strip_all fuel seqs s) = None
  /\ exists pre, s = String.append pre (strip_all fuel seqs s).
Proof.
  intros Hne. revert s. induction fuel as [| fuel IH]; intros s Hlen.
  - destruct s; [| simpl in Hlen; lia]. simpl. split.
    + clear Hlen. induction Hne as [| p seqs Hp _ IHs]; simpl; [reflexivity |].
      destruct p; [contradiction | exact IHs].
    + exists EmptyString. reflexivity.
  - simpl. destruct (strip_one seqs s) as [r |] eqn:Hs.
    + destruct (strip_one_Some seqs s r Hne Hs) as (pre & -> & Hpos).
      rewrite length_append in Hlen.
      destruct (IH r ltac:(lia)) as [Hdone [pre' Hpre']].
      split; [exact Hdone |].
      exists (String.append pre pre'). rewrite append_assoc, <- Hpre'. reflexivity.
    + split; [exact Hs | exists EmptyString; reflexivity].
Qed.

Lemma white_space_nonempty : Forall (fun p : list nat => p <> []) white_space.
Proof. repeat constructor; discriminate. Qed.

Lemma white_space_rev_nonempty :
  Forall (fun p : list nat => p <> []) (map (@rev nat) white_space).
Proof. repeat constructor; discriminate. Qed.

(** [trim] leaves no white space at either end. *)
Lemma trim_clean (s : string) :
  ~ starts_white (trim s) /\ ~ ends_white (trim s).
Proof.
  unfold trim, trimEnd, starts_white, ends_white.
  set (t := trimStart s).
  assert (Hstart : strip_one white_space t = None).
  { apply (strip_all_spec white_space (String.length s) s white_space_nonempty).
    lia. }
  destruct (strip_all_spec (map (@rev nat) white_space) (String.length t)
              (reverse t) white_space_rev_nonempty) as [Hend [pre Hpre]].
  { rewrite length_reverse. lia. }
  set (x := strip_all (String.length t) (map (@rev nat) white_space) (reverse t)) in *.
  split.
  - intros Hwhite.
    destruct (strip_one white_space (reverse x)) as [r |] eqn:Hx; [| congruence].
    apply (strip_one_append white_space (reverse x) (reverse pre) r Hx).
    rewrite <- reverse_append, <- Hpre, reverse_involutive. exact Hstart.
  - rewrite reverse_involutive. intros Hwhite. apply Hwhite. exact Hend.
Qed.

Lemma strip_all_nothing (seqs : list (list nat)) (fuel : nat) (s : string) :
  strip_one seqs s = None -> strip_all fuel seqs s = s.
Proof. intros Hs. destruct fuel; simpl; [| rewrite Hs]; reflexivity. Qed.

(** Trimming twice is trimming once. *)
Lemma trim_idempotent (s : string) : trim (trim s) = trim s.
Proof.
  destruct (trim_clean s) as [Hstart Hend].
  unfold starts_white, ends_white in *.
  set (t := trim s) in *.
  assert (Hs : strip_one white_space t = None).
  { destruct (strip_one white_space t); [exfalso; apply Hstart; discriminate | reflexivity]. }
  assert (He : strip_one (map (@rev nat) white_space) (reverse t) = None).
  { destruct (strip_one _ (reverse t)); [exfalso; apply Hend; discriminate | reflexivity]. }
  unfold trim, trimStart, trimEnd.
  rewrite (strip_all_nothing _ _ t Hs), (strip_all_nothing _ _ _ He).
  apply reverse_involutive.
Qed.

End Trimming.

(** ** What is sent *)

Section Requests.

Context `{Engine}.

(** The only request a run emits is the one built from the form. *)
Lemma emitted_request (f : formData) (net : fetch_outcome) (w : world)
    (r : request) :
  In (Fetched r) (emitted f net w) -> complete f /\ r = request_of w f.
Proof.
  intros Hin.
  destruct (guards_or_complete f) as [Hi | [[Hi Hr] | Hc]].
  - rewrite (emitted_app _ _ _ _ _ (handleSubmit_missingInformation f net w Hi)) in Hin.
    destruct Hin as [Hin | []]. discriminate Hin.
  - rewrite (emitted_app _ _ _ _ _ (handleSubmit_missingResume f net w Hi Hr)) in Hin.
    destruct Hin as [Hin | []]. discriminate Hin.
  - split; [exact Hc |].
    destruct (handleSubmit_complete f net w Hc) as [[e Hrun] | (result & d & Hs & Hd)].
    + rewrite (emitted_app _ _ _ _ _ Hrun) in Hin.
      destruct Hin as [Hin | [Hin | [Hin | []]]]; congruence.
    + rewrite (emitted_app _ _ _ _ _ (handleSubmit_succeeded f net w result d Hc Hs Hd))
        in Hin.
      destruct Hin as [Hin | [Hin | [Hin | []]]]; congruence.
Qed.

(** X6. For a form whose [resumeFiles] is an array, the branch that
    [Array.isArray] takes for every form of the model: the files of a
    request are the [File] entries of that array, all of them and in the
    order of upload, and an entry that is not a [File] is never sent. *)
Theorem request_files (f : formData) (net : fetch_outcome) (w : world)
    (r : request) :
  In (Fetched r) (emitted f net w) ->
  App.resumes r `sublist_of` resumeFiles f
  /\ forall u, u ∈ App.resumes r <-> u ∈ resumeFiles f /\ instanceof_File u = true.
Proof.
  intros Hin. destruct (emitted_request f net w r Hin) as [_ ->]. simpl.
  split.
  - induction (resumeFiles f) as [| u l IH]; simpl; [constructor |].
    destruct (instanceof_File u); constructor; exact IH.
  - intros u. rewrite !list_elem_of_In, filter_In. reflexivity.
Qed.

(** X7. The description of a request is never empty and has no white space
    at either end: it is the trimmed text of the description, or
    "No description". *)
Theorem request_description (f : formData) (net : fetch_outcome) (w : world)
    (r : request) :
  In (Fetched r) (emitted f net w) ->
  Payload.job_description (data r) <> ""
  /\ ~ starts_white (Payload.job_description (data r))
  /\ ~ ends_white (Payload.job_description (data r)).
Proof.
  intros Hin. destruct (emitted_request f net w r Hin) as [_ ->]. simpl.
  unfold sor. destruct (nonempty (stripHtml (jobDescription f))) eqn:Hne.
  - split; [apply nonempty_true; exact Hne |].
    unfold stripHtml. apply trim_clean.
  - split; [discriminate |]. split; intros Hw; apply Hw; reflexivity.
Qed.

End Requests.

Lemma sample_request_sent :
  In (Fetched (@request_of Sample.engine Sample.world Sample.form))
     (@emitted Sample.engine Sample.form (Sample.respond Sample.wrapped) Sample.world).
Proof.
  destruct (@handleSubmit_sends Sample.engine Sample.form
              (Sample.respond Sample.wrapped) Sample.world sample_form_complete)
    as (l & rest & Hrun).
  rewrite (@emitted_app Sample.engine _ _ _ _ _ Hrun). left. reflexivity.
Qed.

Lemma request_files_witness :
  In (Fetched (@request_of Sample.engine Sample.world Sample.form))
     (@emitted Sample.engine Sample.form (Sample.respond Sample.wrapped) Sample.world)
  /\ App.resumes (@request_of Sample.engine Sample.world Sample.form)
     `sublist_of` resumeFiles Sample.form.
Proof.
  split; [exact sample_request_sent |].
  apply (@request_files Sample.engine Sample.form (Sample.respond Sample.wrapped)
           Sample.world _ sample_request_sent).
Defined.

Lemma request_description_witness :
  In (Fetched (@request_of Sample.engine Sample.world Sample.form))
     (@emitted Sample.engine Sample.form (Sample.respond Sample.wrapped) Sample.world)
  /\ Payload.job_description
       (data (@request_of Sample.engine Sample.world Sample.form)) <> "".
Proof.
  split; [exact sample_request_sent |].
  apply (@request_description Sample.engine Sample.form
           (Sample.respond Sample.wrapped) Sample.world _ sample_request_sent).
Defined.

(** ** The URL *)

Section Url.

Context `{Engine}.

Lemma unescape_plain (s : string) :
  occurs "%" s = false -> unescape s = Some (map Plain (chars s)).
Proof.
  induction s as [| c s IH]; simpl; [reflexivity |].
  intros Hocc. apply orb_false_iff in Hocc as [Hc Hs].
  rewrite Hc, (IH Hs). reflexivity.
Qed.

Lemma assemble_plain (s : string) : assemble (map Plain (chars s)) = Some s.
Proof.
  induction s as [| c s IH]; simpl; [reflexivity |].
  rewrite IH. reflexivity.
Qed.

(** X8. A parameter without a percent sign is taken as it is: decoding
    changes nothing and does not fail. *)
Theorem decodeSafe_without_escape (s : string) :
  occurs "%" s = false ->
  decodeURIComponent s = Some s /\ decodeSafe s = s.
Proof.
  intros Hocc.
  assert (Hd : decodeURIComponent s = Some s).
  { unfold decodeURIComponent. rewrite (unescape_plain s Hocc).
    apply assemble_plain. }
  split; [exact Hd |]. unfold decodeSafe. rewrite Hd. reflexivity.
Qed.

(** X9. The URL never fills in the files: submitting a form that was only
    populated from the URL stops at a guard, whatever the parameters, with
    one destructive toast and no request; when the URL gives a title, one
    of the five job type labels and a description, the toast is the one
    that asks for a resume. *)
Theorem url_alone_cannot_submit (q : params) (prev : formData)
    (net : fetch_outcome) (w : world) :
  resumeFiles prev = [] ->
  let f := populateFromUrl q prev in
  (exists t,
     variant t = "destructive"
     /\ handleSubmit f net w =
          (Ok tt, {| localStorage := localStorage w;
                     events := events w ++ [Toasted t] |}))
  /\ (jobTitle f <> "" -> jobDescription f <> "" ->
      In (jobTypeLabel (p_jobtype q))
         ["Full time"; "Part time"; "Contract"; "Freelance"; "Internship"] ->
      emitted f net w =
        [Toasted {| title := "Missing Resume";
                    description := Lit "Please upload at least one resume before submitting.";
                    variant := "destructive" |}]).
Proof.
  intros Hfiles f.
  assert (Hr : missingResume f = true) by (apply missingResume_true; exact Hfiles).
  split.
  - destruct (missingInformation f) eqn:Hi.
    + eexists. split; [| apply handleSubmit_missingInformation; exact Hi]. reflexivity.
    + eexists. split; [| apply handleSubmit_missingResume; assumption]. reflexivity.
  - intros Ht Hd Hlabel.
    assert (Hi : missingInformation f = false).
    { unfold missingInformation.
      apply nonempty_true in Ht. apply nonempty_true in Hd.
      rewrite Ht, Hd. simpl. rewrite orb_false_r. apply negb_false_iff.
      subst f. simpl.
      destruct (mappedJobType_labels (p_jobtype q)) as (L1 & L2 & L3 & L4 & L5).
      simpl in Hlabel.
      destruct Hlabel as [E | [E | [E | [E | [E | []]]]]]; symmetry in E.
      - rewrite (L1 E). reflexivity.
      - rewrite (L2 E). reflexivity.
      - rewrite (L3 E). reflexivity.
      - rewrite (L4 E). reflexivity.
      - rewrite (L5 E). reflexivity. }
    apply (emitted_app _ _ _ _ _ (handleSubmit_missingResume f net w Hi Hr)).
Qed.

End Url.

Lemma decodeSafe_without_escape_witness :
  occurs "%" "Full time" = false /\ decodeSafe "Full time" = "Full time".
Proof.
  split; [reflexivity |].
  apply (decodeSafe_without_escape "Full time"). reflexivity.
Defined.

Lemma url_alone_cannot_submit_witness :
  let q := {| p_skills := Some "sql"; p_job := Some "Build%20things";
              p_yoe := None; p_jobtitle := Some "Engineer";
              p_jobtype := Some "Full%20time"; p_source := None |} in
  resumeFiles initialFormData = []
  /\ @emitted Sample.engine (populateFromUrl q initialFormData)
       (Sample.respond Sample.wrapped) Sample.world
     = [Toasted {| title := "Missing Resume";
                   description := Lit "Please upload at least one resume before submitting.";
                   variant := "destructive" |}].
Proof.
  intros q. split; [reflexivity |].
  apply (proj2 (@url_alone_cannot_submit Sample.engine q initialFormData
                  (Sample.respond Sample.wrapped) Sample.world eq_refl)).
  - discriminate.
  - discriminate.
  - left. reflexivity.
Defined.

(** ** The text that stripping keeps *)

Section Stripping.

Context `{Engine}.

Lemma chars_append (a b : string) :
  chars (String.append a b) = chars a ++ chars b.
Proof.
  induction a as [| c a IH]; [reflexivity |].
  rewrite append_cons. simpl. rewrite IH. reflexivity.
Qed.

Lemma length_chars (s : string) : length (chars s) = String.length s.
Proof. induction s as [| c s IH]; simpl; [reflexivity | rewrite IH; reflexivity]. Qed.

Lemma text_of_app (cs ds : list node) :
  text_of (cs ++ ds) = String.append (text_of cs) (text_of ds).
Proof.
  induction cs as [| c cs IH]; [reflexivity |].
  simpl. unfold text_of in *. simpl. rewrite IH, append_assoc. reflexivity.
Qed.

(** The spaces are added to the text, one for each block element, and
    nothing of the text is lost or reordered. *)
Lemma spaced_text (n : node) :
  chars (textContent n) `sublist_of` chars (textContent (spaced n))
  /\ String.length (textContent (spaced n))
     = String.length (textContent n) + blocks n.
Proof.
  induction n as [d | d | t cs IH] using node_induction;
    try (split; [reflexivity | simpl; lia]).
  assert (Hcs : chars (text_of cs) `sublist_of` chars (text_of (map spaced cs))
                /\ String.length (text_of (map spaced cs))
                   = String.length (text_of cs) + blocks_of cs).
  { induction IH as [| c cs' [Hsub Hlen] _ [IHsub IHlen]]; [split; reflexivity |].
    unfold text_of, blocks_of in *. simpl.
    rewrite !chars_append, !length_append. split.
    - apply sublist_app; assumption.
    - rewrite Hlen, IHlen. lia. }
  destruct Hcs as [Hsub Hlen].
  change (textContent (Element t cs)) with (text_of cs).
  change (textContent (spaced (Element t cs)))
    with (text_of (map spaced cs
                   ++ (if existsb (String.eqb t) blockTags then [Text " "] else []))).
  change (blocks (Element t cs))
    with ((if existsb (String.eqb t) blockTags then 1 else 0) + blocks_of cs).
  rewrite text_of_app, chars_append, length_append.
  split.
  - apply sublist_inserts_r. exact Hsub.
  - rewrite Hlen. destruct (existsb (String.eqb t) blockTags); simpl; lia.
Qed.

(** X10. [stripHtml] loses no text: before the final trim, the text is the
    text of the parsed description, in order, with exactly one space added
    for each [p], [div], [br] and [li] element. *)
Theorem stripHtml_keeps_text (html : string) :
  let before := text_of (parseFragment html) in
  let after := text_of (map spaced (parseFragment html)) in
  stripHtml html = trim after
  /\ chars before `sublist_of` chars after
  /\ String.length after = String.length before + blocks_of (parseFragment html).
Proof.
  intros before after. split; [apply stripHtml_stripped |].
  subst before after.
  induction (parseFragment html) as [| c cs [IHsub IHlen]]; [split; reflexivity |].
  destruct (spaced_text c) as [Hsub Hlen].
  unfold text_of, blocks_of in *. simpl.
  rewrite !chars_append, !length_append. split.
  - apply sublist_app; assumption.
  - rewrite Hlen, IHlen. lia.
Qed.

(** Two passes of the loop can be swapped. *)
Lemma appendSpace_swap (t1 t2 : string) (n : node) :
  t1 <> t2 ->
  appendSpace t1 (appendSpace t2 n) = appendSpace t2 (appendSpace t1 n).
Proof.
  intros Hne.
  induction n as [d | d | t cs IH] using node_induction; try reflexivity.
  assert (Hcs : map (appendSpace t1) (map (appendSpace t2) cs)
                = map (appendSpace t2) (map (appendSpace t1) cs)).
  { rewrite !map_map. induction IH as [| c cs' Hc _ IHcs]; simpl;
      [reflexivity | rewrite Hc, IHcs; reflexivity]. }
  cbn [appendSpace].
  destruct (String.eqb_spec t t1) as [E1 | H1];
    destruct (String.eqb_spec t t2) as [E2 | H2]; [congruence | | |].
  - cbn [appendSpace].
    destruct (String.eqb_spec t t1); [| contradiction].
    destruct (String.eqb_spec t t2); [contradiction |].
    rewrite map_app, Hcs. reflexivity.
  - cbn [appendSpace].
    destruct (String.eqb_spec t t1); [contradiction |].
    destruct (String.eqb_spec t t2); [| contradiction].
    rewrite map_app, Hcs. reflexivity.
  - cbn [appendSpace].
    destruct (String.eqb_spec t t1); [contradiction |].
    destruct (String.eqb_spec t t2); [contradiction |].
    rewrite Hcs. reflexivity.
Qed.

Lemma appendSpaceBelow_swap (t1 t2 : string) (d : node) :
  appendSpaceBelow t1 (appendSpaceBelow t2 d)
  = appendSpaceBelow t2 (appendSpaceBelow t1 d).
Proof.
  destruct (String.eqb_spec t1 t2) as [-> | Hne]; [reflexivity |].
  destruct d as [x | x | t cs]; try reflexivity. simpl.
  rewrite !map_map. f_equal. apply map_ext. intros n.
  apply appendSpace_swap. exact Hne.
Qed.

Lemma passes_permutation (l l' : list string) (d : node) :
  Permutation l l' ->
  fold_left (fun d tag => appendSpaceBelow tag d) l d
  = fold_left (fun d tag => appendSpaceBelow tag d) l' d.
Proof.
  intros Hp. revert d.
  induction Hp as [| x l l' _ IH | x y l | l l' l'' _ IH1 _ IH2]; intros d; simpl.
  - reflexivity.
  - apply IH.
  - rewrite appendSpaceBelow_swap. reflexivity.
  - rewrite IH1. apply IH2.
Qed.

(** X11. The order in which the loop visits the four tags does not matter:
    run over any rearrangement of [blockTags], [stripHtml] returns the same
    text. *)
Theorem stripHtml_order_irrelevant (tags : list string) (html : string) :
  Permutation blockTags tags ->
  stripHtml_over tags html = stripHtml html.
Proof.
  intros Hp. unfold stripHtml_over, stripHtml.
  rewrite (passes_permutation blockTags tags _ Hp). reflexivity.
Qed.

End Stripping.

Lemma stripHtml_order_irrelevant_witness :
  Permutation blockTags ["li"; "br"; "div"; "p"]
  /\ @stripHtml_over Sample.engine ["li"; "br"; "div"; "p"] "<div><p>a</p><ul><li>b<br></li></ul></div>"
     = @stripHtml Sample.engine "<div><p>a</p><ul><li>b<br></li></ul></div>".
Proof.
  assert (Hp : Permutation blockTags ["li"; "br"; "div"; "p"]).
  { unfold blockTags.
    change ["li"; "br"; "div"; "p"] with (rev ["p"; "div"; "br"; "li"]).
    apply Permutation_rev. }
  split; [exact Hp |].
  apply (@stripHtml_order_irrelevant Sample.engine _ _ Hp).
Defined.

(** ** Loading, again *)

Section Reloading.

Context `{Engine}.

(** X12. [load] never changes the filter settings, and a missing entry
    leaves its part of the state alone: without [keySkills], or with one
    that is not an array, the skills are the empty list; without
    [resumeResults] the rows and the case id stay as they were. *)
Theorem load_missing_entries (ls : gmap string value) (s : state) :
  (searchQuery (load ls s) = searchQuery s
   /\ scoreRange (load ls s) = scoreRange s
   /\ experienceRange (load ls s) = experienceRange s
   /\ filterEmail (load ls s) = filterEmail s
   /\ filterPhone (load ls s) = filterPhone s)
  /\ (ls !! "keySkills" = None -> userKeySkills (load ls s) = [])
  /\ (forall v, ls !! "keySkills" = Some v -> (forall l, v <> VArr l) ->
      userKeySkills (load ls s) = [])
  /\ (ls !! "resumeResults" = None ->
      resumes (load ls s) = resumes s /\ caseId (load ls s) = caseId s).
Proof.
  split; [| split; [| split]].
  - repeat split; unfold load;
      (destruct (truthy _); [| reflexivity]);
      (destruct (get _ "result") as [[] |]; try reflexivity);
      destruct (map_from _ 0 items); reflexivity.
  - intros Hk. rewrite load_userKeySkills, Hk. reflexivity.
  - intros v Hk Hv. rewrite load_userKeySkills, Hk. simpl.
    destruct v; try reflexivity. exfalso. apply (Hv items). reflexivity.
  - intros Hr. unfold load. rewrite Hr. simpl. split; reflexivity.
Qed.

(** X13. One [null] among the cached items makes the mapping throw: the
    rows and the case id stay as they were, no row of the entry is shown,
    and the skills, which were set before, are loaded all the same. *)
Theorem load_null_item (ls : gmap string value) (s : state) (v : value)
    (items : list value) (i : nat) :
  ls !! "resumeResults" = Some v ->
  get v "result" = Some (VArr items) ->
  items !! i = Some VNull ->
  resumes (load ls s) = resumes s
  /\ caseId (load ls s) = caseId s
  /\ userKeySkills (load ls s)
     = match parsed_or (ls !! "keySkills") (VArr []) with
       | VArr l => l
       | _ => []
       end.
Proof.
  intros Hv Hres Hi.
  destruct (load_null ls s v items i Hv Hres Hi) as [Hrows Hid].
  split; [exact Hrows |]. split; [exact Hid | apply load_userKeySkills].
Qed.

(** X14. Loading twice is loading once: the effect can run again on the
    same storage without changing the state. *)
Theorem load_idempotent (ls : gmap string value) (s : state) :
  load ls (load ls s) = load ls s.
Proof.
  unfold load.
  destruct (truthy (parsed_or (ls !! "resumeResults") VNull)); [| reflexivity].
  destruct (get (parsed_or (ls !! "resumeResults") VNull) "result")
    as [[| | | | | items | |] |]; try reflexivity.
  destruct (map_from _ 0 items); reflexivity.
Qed.

End Reloading.

Lemma load_missing_entries_witness :
  (∅ : gmap string value) !! "keySkills" = None
  /\ userKeySkills (load ∅ Sample.loaded) = []
  /\ resumes (load ∅ Sample.loaded) = resumes Sample.loaded.
Proof.
  destruct (load_missing_entries ∅ Sample.loaded) as (_ & Hk & _ & Hr).
  split; [reflexivity |]. split; [apply Hk; reflexivity |].
  apply Hr. reflexivity.
Defined.

Lemma load_null_item_witness :
  let v := VObj [("id", VNum (num_of_nat 7));
                 ("result", VArr [VObj [("name", VStr "Ann")]; VNull])] in
  let ls : gmap string value := <["resumeResults" := v]> ∅ in
  ls !! "resumeResults" = Some v
  /\ resumes (load ls initialState) = []
  /\ caseId (load ls initialState) = VNull.
Proof.
  intros v ls. split; [reflexivity |].
  destruct (load_null_item ls initialState v
              [VObj [("name", VStr "Ann")]; VNull] 1 eq_refl eq_refl eq_refl)
    as (Hr & Hc & _).
  split; assumption.
Defined.

(** ** Rows and their display *)

Section Rows2.

Context `{Engine}.

(** X15. Every row made by the mapping has something to show: its name,
    email and phone are truthy and never "xxx", so the [||] fallbacks of
    the display never fire; and the experience cell reads "null" unless
    the upstream experience is a number other than 0. *)
Theorem mapped_row_display (p : value) (index : nat) (item : value) (r : resume) :
  mapItem p index item = Some r ->
  truthy (name r) = true
  /\ truthy (email r) = true /\ email r <> VStr "xxx"
  /\ truthy (phone r) = true /\ phone r <> VStr "xxx"
  /\ email_cell (renderRow r) = email r
  /\ phone_cell (renderRow r) = phone r
  /\ key (renderRow r) = index + 1
  /\ (forall e, experience_cell (renderRow r) = Years e <->
        get item "experience" = Some (VNum e) /\ num_truthy e = true).
Proof.
  intros Hr.
  destruct (mapItem_fields p index item r Hr)
    as (n & sc & j & ex & em & ph & Gn & Gsc & Gj & Gex & Gem & Gph
        & Fid & Fn & Fsc & Fj & Fex & Fem & Fph).
  assert (Hname : truthy (name r) = true).
  { rewrite Fn. unfold or_. destruct (truthy n) eqn:E; [exact E | reflexivity]. }
  assert (Hcontact : forall v placeholder,
            placeholder <> "xxx" -> placeholder <> "" ->
            let c := if str_eq v "xxx" || negb (truthy v) then VStr placeholder else v in
            truthy c = true /\ c <> VStr "xxx").
  { intros v placeholder Hx He. simpl.
    destruct (str_eq v "xxx") eqn:Ex; simpl.
    - split; [| congruence]. simpl. apply nonempty_true. exact He.
    - destruct (truthy v) eqn:Et; simpl.
      + split; [exact Et |]. intros Hv. apply str_eq_spec in Hv. congruence.
      + split; [| congruence]. simpl. apply nonempty_true. exact He. }
  destruct (Hcontact em "No email" ltac:(discriminate) ltac:(discriminate)) as [He1 He2].
  destruct (Hcontact ph "No phone" ltac:(discriminate) ltac:(discriminate)) as [Hp1 Hp2].
  rewrite <- Fem in He1, He2. rewrite <- Fph in Hp1, Hp2.
  split; [exact Hname |]. split; [exact He1 |]. split; [exact He2 |].
  split; [exact Hp1 |]. split; [exact Hp2 |].
  split; [simpl; unfold or_; rewrite He1; reflexivity |].
  split; [simpl; unfold or_; rewrite Hp1; reflexivity |].
  split; [exact Fid |].
  intros e. simpl. rewrite Fex, Gex. split.
  - destruct ex as [| | | x | | | |]; simpl;
      try discriminate.
    destruct (num_truthy x) eqn:Hx; [| discriminate].
    intros [= <-]. split; [reflexivity | exact Hx].
  - intros [[= ->] He]. rewrite He. reflexivity.
Qed.

(** The keys of mapped rows are consecutive. *)
Lemma map_from_keys (p : value) (k : nat) (items : list value)
    (rows : list resume) :
  map_from (mapItem p) k items = Some rows ->
  keys rows = seq (k + 1) (length items).
Proof.
  revert k rows. induction items as [| x rest IH]; intros k rows Hm; simpl in Hm.
  - injection Hm as <-. reflexivity.
  - destruct (mapItem p k x) as [r |] eqn:Hr; simpl in Hm; [| discriminate Hm].
    destruct (map_from (mapItem p) (S k) rest) as [rs |] eqn:Hrs; simpl in Hm;
      [| discriminate Hm].
    injection Hm as <-.
    destruct (mapItem_fields p k x r Hr) as (_ & _ & _ & _ & _ & _ & _ & _ & _ & _ & _ & _ & Fid & _).
    unfold keys in *. simpl. rewrite Fid, (IH (S k) rs Hrs).
    replace (S k + 1) with (S (k + 1)) by lia. reflexivity.
Qed.

Lemma load_keys (ls : gmap string value) (s : state) :
  NoDup (keys (resumes s)) -> NoDup (keys (resumes (load ls s))).
Proof.
  intros Hs. unfold load.
  destruct (truthy _); [| exact Hs].
  destruct (get _ "result") as [[| | | | | items | |] |]; try exact Hs.
  destruct (map_from _ 0 items) as [rows |] eqn:Hm; [| exact Hs].
  simpl. rewrite (map_from_keys _ _ _ _ Hm). apply NoDup_seq.
Qed.

Lemma update_keys (a : action) (s : state) :
  NoDup (keys (resumes s)) -> NoDup (keys (resumes (update a s))).
Proof. destruct a; simpl; try (intros Hs; exact Hs). apply load_keys. Qed.

(** A row whose email, phone or justification is an object makes React
    throw. *)
Lemma render_throws (s : state) (view : list resume) (r : resume) :
  r ∈ view ->
  (exists props, email r = VObj props \/ phone r = VObj props
                 \/ justification r = VObj props) ->
  render s view = None.
Proof.
  intros Hin [props Hobj]. unfold render.
  assert (Hex : exists v, v ∈ children s view /\ renders v = false).
  { assert (Hcell : exists v, v ∈ cells (renderRow r) /\ renders v = false).
    { unfold cells, renderRow. simpl.
      destruct Hobj as [Ho | [Ho | Ho]]; rewrite Ho; simpl.
      - exists (VObj props). split; [| reflexivity].
        do 3 right. left.
      - exists (VObj props). split; [| reflexivity].
        do 2 right. left.
      - exists (VObj props). split; [| reflexivity].
        do 4 right. left. }
    destruct Hcell as (v & Hv & Hr). exists v. split; [| exact Hr].
    unfold children. apply elem_of_app. right. right.
    apply list_elem_of_In, in_flat_map. exists r.
    split; apply list_elem_of_In; assumption. }
  destruct Hex as (v & Hv & Hr).
  destruct (forallb renders (children s view)) eqn:Hall; [| reflexivity].
  rewrite forallb_forall in Hall.
  rewrite (Hall v) in Hr; [discriminate Hr | apply list_elem_of_In; exact Hv].
Qed.

(** X16. The React keys are sound.  In every state the component reaches,
    the rows have pairwise distinct [candidateId]s, and the rows of the
    view are never more than the rows cached ("Showing N of M" has N at
    most M).  Whenever the render does not throw, the list shows
    "No resumes found." exactly when the view is empty, and otherwise one
    [li] per row of the view, with pairwise distinct keys.  The render
    throws, and nothing is shown, exactly when a key skill, the case id or
    a cell of a row of the view is an object that React cannot show; it
    does so when the mapping kept an object as the email, the phone or the
    justification of a row of the view. *)
Theorem rendered_keys_distinct (s : state) (m : memo) (view : list resume) :
  rendered s m -> memo_value m = Some view ->
  NoDup (keys (resumes s))
  /\ fst (showing view (resumes s)) <= snd (showing view (resumes s))
  /\ (forall scr : screen,
        render s view = Some scr ->
        stats scr = showing view (resumes s)
        /\ match resume_list scr with
           | NoResumesFound => view = []
           | Rows rows =>
               rows = map renderRow view /\ view <> [] /\ NoDup (map key rows)
           end)
  /\ (render s view = None <-> exists v, v ∈ children s view /\ renders v = false)
  /\ (forall r, r ∈ view ->
        (exists props, email r = VObj props \/ phone r = VObj props
                       \/ justification r = VObj props) ->
        render s view = None).
Proof.
  intros Hr Hview.
  assert (Hkeys : NoDup (keys (resumes s))).
  { clear Hview. induction Hr as [m Hm | s m a m' Hprev IH Hm].
    - constructor.
    - apply update_keys. exact IH. }
  destruct (memo_fresh s m Hr) as (_ & _ & Hv).
  rewrite Hv in Hview.
  destruct (filter__Some _ _ _ Hview) as [Hsub _].
  split; [exact Hkeys |].
  split; [simpl; apply sublist_length; exact Hsub |].
  split; [| split; [| intros r; apply render_throws]].
  - intros scr Hscr. unfold render in Hscr.
    destruct (forallb renders (children s view)); [| discriminate Hscr].
    injection Hscr as <-. simpl. split; [reflexivity |].
    unfold renderList. destruct view as [| r rest]; [reflexivity |].
    cbn [length Nat.eqb].
    split; [reflexivity |]. split; [discriminate |].
    rewrite map_map.
    apply (sublist_NoDup _ (keys (resumes s))); [exact Hkeys |].
    unfold keys. apply fmap_sublist. exact Hsub.
  - unfold render.
    destruct (forallb renders (children s view)) eqn:Hall.
    + split; [discriminate |]. intros (v & Hin & Hf).
      rewrite forallb_forall in Hall.
      rewrite (Hall v) in Hf; [discriminate Hf | apply list_elem_of_In; exact Hin].
    + split; [| reflexivity]. intros _.
      apply not_true_iff_false in Hall.
      destruct (existsb (fun v => negb (renders v)) (children s view)) eqn:Hex.
      * apply existsb_exists in Hex as (v & Hin & Hf).
        exists v. split; [apply list_elem_of_In; exact Hin |].
        apply negb_true_iff. exact Hf.
      * exfalso. apply Hall. apply forallb_forall. intros v Hin.
        destruct (renders v) eqn:Hv'; [reflexivity |].
        assert (Hcontra : existsb (fun v => negb (renders v)) (children s view) = true).
        { apply existsb_exists. exists v. split; [exact Hin |]. rewrite Hv'. reflexivity. }
        congruence.
Qed.

End Rows2.

Lemma mapped_row_display_witness :
  let item := VObj [("experience", VStr "five"); ("phone", VStr "555")] in
  exists r : resume,
    mapItem Sample.entry 1 item = Some r
    /\ truthy (name r) = true
    /\ phone_cell (renderRow r) = VStr "555"
    /\ email_cell (renderRow r) = VStr "No email"
    /\ experience_cell (renderRow r) = NullWord.
Proof.
  intros item. eexists. split; [reflexivity |].
  destruct (mapped_row_display Sample.entry 1 item _ eq_refl)
    as (Hn & _ & _ & _ & _ & He & Hp & _).
  split; [exact Hn |]. split; [exact Hp |]. split; [exact He |]. reflexivity.
Defined.

Lemma sample_rendered :
  @rendered Sample.engine
    (update (Mount (<["resumeResults" := Sample.entry]> ∅)) initialState)
    {| memo_deps := deps_of (update (Mount (<["resumeResults" := Sample.entry]> ∅)) initialState);
       memo_value := @filteredResumes Sample.engine
                       (update (Mount (<["resumeResults" := Sample.entry]> ∅)) initialState) |}.
Proof.
  eapply next_render.
  - apply first_render. apply memo_compute.
  - apply memo_compute.
Qed.

Lemma rendered_keys_distinct_witness :
  exists (view : list resume) (scr : screen),
    @filteredResumes Sample.engine Sample.loaded = Some view
    /\ render Sample.loaded view = Some scr
    /\ NoDup (keys (resumes Sample.loaded))
    /\ stats scr = (1, 2)
    /\ exists rows, resume_list scr = Rows rows /\ NoDup (map key rows).
Proof.
  eexists. eexists.
  split; [exact sample_filtered_view |].
  match goal with
  | |- ?R = Some ?scr /\ _ =>
      assert (Hscr : R = Some scr) by (vm_compute; reflexivity)
  end.
  destruct (@rendered_keys_distinct Sample.engine _ _ _ sample_rendered
              sample_filtered_view) as (Hk & _ & Hshown & _).
  destruct (Hshown _ Hscr) as [Hstats Hlist].
  split; [exact Hscr |]. split; [exact Hk |].
  split; [exact Hstats |].
  eexists. split; [reflexivity |]. apply Hlist.
Defined.

(** ** The filters, again *)

Section Filters2.

Context `{Engine}.

Lemma le_trans (a b c : number) : le a b -> le b c -> le a c.
Proof.
  intros Hab Hbc. destruct Hab as [x y Hxy | b Hb | a Ha].
  - inversion Hbc as [x' z Hyz | | c' Hc]; subst.
    + constructor. eapply Qle_trans; eassumption.
    + constructor. discriminate.
  - constructor. inversion Hbc; subst; try discriminate; congruence.
  - inversion Hbc as [| | c' Hc]; subst. constructor. exact Ha.
Qed.

Lemma within_narrower (x : number) (r1 r2 : number * number) :
  le (fst r1) (fst r2) -> le (snd r2) (snd r1) -> within x r2 -> within x r1.
Proof.
  intros Hlo Hhi [H1 H2]. split; eapply le_trans; eassumption.
Qed.

(** A stricter callback keeps a part of what a laxer one keeps. *)
Lemma filter__mono (f g : resume -> option bool) (l a b : list resume) :
  (forall r, r ∈ l -> f r = Some true -> g r = Some true) ->
  filter_ f l = Some a -> filter_ g l = Some b -> a `sublist_of` b.
Proof.
  revert a b. induction l as [| x rest IH]; intros a b Himp Hf Hg; simpl in *.
  - injection Hf as <-. injection Hg as <-. constructor.
  - destruct (f x) as [bf |] eqn:Hfx; simpl in Hf; [| discriminate Hf].
    destruct (filter_ f rest) as [fa |]; simpl in Hf; [| discriminate Hf].
    destruct (g x) as [bg |] eqn:Hgx; simpl in Hg; [| discriminate Hg].
    destruct (filter_ g rest) as [gb |]; simpl in Hg; [| discriminate Hg].
    injection Hf as <-. injection Hg as <-.
    assert (Hrest : fa `sublist_of` gb).
    { apply IH; [| reflexivity | reflexivity].
      intros r Hr. apply Himp. right. exact Hr. }
    destruct bf.
    + assert (Hbg : Some bg = Some true).
      { rewrite <- Hgx. apply Himp; [left | exact Hfx]. }
      injection Hbg as ->. constructor. exact Hrest.
    + destruct bg; [constructor |]; exact Hrest.
Qed.

(** X17. Ticking a check box or narrowing a slider only removes rows: on a
    typed list, the view under stricter filters is a subsequence of the
    view under laxer ones. *)
Theorem stricter_filters_shrink_view (s1 s2 : state) :
  narrower s1 s2 -> Forall typed (resumes s1) ->
  exists view1 view2,
    filteredResumes s1 = Some view1
    /\ filteredResumes s2 = Some view2
    /\ view2 `sublist_of` view1.
Proof.
  intros (Hres & Hq & He & Hp & Hs1 & Hs2 & He1 & He2) Hty.
  assert (Hty2 : Forall typed (resumes s2)) by (rewrite Hres; exact Hty).
  destruct (filteredResumes_typed s1 Hty) as [view1 Hv1].
  destruct (filteredResumes_typed s2 Hty2) as [view2 Hv2].
  exists view1, view2. split; [exact Hv1 |]. split; [exact Hv2 |].
  unfold filteredResumes in Hv1, Hv2. rewrite Hres in Hv2.
  apply (filter__mono (keep s2) (keep s1) (resumes s1)); [| exact Hv2 | exact Hv1].
  intros r Hin Hk2.
  pose proof (proj1 (Forall_forall _ _) Hty r Hin) as Hr.
  destruct (keep_typed s1 r Hr) as (b1 & Hb1 & Hpass1).
  destruct (keep_typed s2 r Hr) as (b2 & Hb2 & Hpass2).
  rewrite Hb1. f_equal. apply Hpass1.
  assert (Hp2 : passes s2 r) by (apply Hpass2; congruence).
  destruct Hp2 as (Htext & Hscore & Hexp & Hce & Hcp).
  unfold passes, matches_text, score_in_range, experience_in_range,
    contacts_present in *.
  rewrite Hq in Htext.
  split; [exact Htext |].
  split.
  { destruct Hscore as (x & Hx & Hw). exists x. split; [exact Hx |].
    apply (within_narrower _ _ (scoreRange s2)); assumption. }
  split; [apply (within_narrower _ _ (experienceRange s2)); assumption |].
  split; intros Hon; [apply Hce, He | apply Hcp, Hp]; exact Hon.
Qed.

(** A row whose score is 0 is in no view whose score range starts at 1 or
    above. *)
Lemma zero_score_filtered (st : state) (view : list resume) (r : resume) :
  le (num_of_nat 1) (fst (scoreRange st)) ->
  Rank r = VNum (num_of_nat 0) ->
  filteredResumes st = Some view ->
  r ∉ view.
Proof.
  intros Hlo Hrank Hview Hin.
  destruct (filter__Some _ _ _ Hview) as [_ Hmem].
  apply Hmem in Hin as [_ Hk].
  unfold keep, rank in Hk. rewrite Hrank in Hk. simpl in Hk.
  destruct (matchesSearch _ r) as [ms |]; simpl in Hk; [| discriminate Hk].
  injection Hk as Hk.
  rewrite !truthy_and_, !andb_true_iff in Hk.
  destruct Hk as [[[[_ Hscore] _] _] _]. simpl in Hscore.
  apply in_range_spec in Hscore as [Hle _].
  pose proof (le_trans _ _ _ Hlo Hle) as Habs.
  inversion Habs as [x y Hxy | |]; subst.
  apply Qle_bool_iff in Hxy. discriminate Hxy.
Qed.

(** The score range starts at 1 when the component mounts, and keeps
    starting at 1 or above under every state change but a [setScoreRange]
    to a lower value. *)
Lemma from_one_kept (a : action) (s : state) :
  from_one s -> keeps_from_one a -> from_one (update a s).
Proof.
  unfold from_one. intros Hs Ha. destruct a; simpl; try exact Hs.
  - rewrite (proj1 (proj2 (proj1 (load_ranges ls s)))). exact Hs.
  - exact Ha.
Qed.

(** X18. A candidate whose upstream score is missing or falsy gets the
    score 0 and is in no view computed while the score range starts at 1
    or above.  The range starts at 1 in the initial state, and it keeps
    starting at 1 or above under the effect that loads the storage, the
    check boxes, the experience slider, and every change of the score
    slider to values from 1 up, the least value the slider is given. *)
Theorem unscored_never_shown (p : value) (index : nat) (item sc : value)
    (r : resume) :
  mapItem p index item = Some r ->
  get item "score" = Some sc -> truthy sc = false ->
  Rank r = VNum (num_of_nat 0)
  /\ (forall (st : state) (view : list resume),
        from_one st -> filteredResumes st = Some view -> r ∉ view)
  /\ from_one initialState
  /\ (forall (a : action) (st : state),
        from_one st -> keeps_from_one a -> from_one (update a st)).
Proof.
  intros Hr Hsc Hfalsy.
  destruct (mapItem_fields p index item r Hr)
    as (n & sc' & j & ex & em & ph & Gn & Gsc & Gj & Gex & Gem & Gph
        & Fid & Fn & Fsc & Fj & Fex & Fem & Fph).
  assert (Hrank : Rank r = VNum (num_of_nat 0)).
  { rewrite Fsc. replace sc' with sc by congruence.
    unfold or_. rewrite Hfalsy. reflexivity. }
  split; [exact Hrank |]. split.
  - intros st view Hlo Hview.
    apply (zero_score_filtered st view r Hlo Hrank Hview).
  - split; [| exact from_one_kept].
    constructor. apply Qle_bool_iff. reflexivity.
Qed.

End Filters2.

Lemma sample_narrower : narrower Sample.loaded (update ToggleEmail Sample.loaded).
Proof.
  repeat split; try reflexivity; try discriminate;
    try (constructor; apply Qle_bool_iff; reflexivity).
Qed.

Lemma stricter_filters_shrink_view_witness :
  narrower Sample.loaded (update ToggleEmail Sample.loaded)
  /\ Forall typed (resumes Sample.loaded)
  /\ exists view1 view2,
       @filteredResumes Sample.engine Sample.loaded = Some view1
       /\ @filteredResumes Sample.engine (update ToggleEmail Sample.loaded) = Some view2
       /\ view2 `sublist_of` view1.
Proof.
  split; [exact sample_narrower |]. split; [exact sample_loaded_typed |].
  apply (@stricter_filters_shrink_view Sample.engine _ _ sample_narrower
           sample_loaded_typed).
Defined.

Lemma unscored_never_shown_witness :
  let item := VObj [("experience", VStr "five"); ("phone", VStr "555")] in
  exists (r : resume) (view : list resume),
    mapItem Sample.entry 1 item = Some r
    /\ get item "score" = Some VUndef
    /\ from_one Sample.loaded
    /\ @filteredResumes Sample.engine Sample.loaded = Some view
    /\ r ∈ resumes Sample.loaded
    /\ r ∉ view.
Proof.
  intros item.
  destruct (@unscored_never_shown Sample.engine Sample.entry 1 item VUndef _
              eq_refl eq_refl eq_refl) as (_ & Hout & Hinit & Hkept).
  assert (Hlo : from_one Sample.loaded).
  { apply (Hkept (Mount (<["resumeResults" := Sample.entry]> ∅)) initialState Hinit).
    exact I. }
  destruct (filteredResumes_typed (H := Sample.engine) Sample.loaded sample_loaded_typed)
    as [view Hview].
  eexists. exists view.
  split; [reflexivity |]. split; [reflexivity |]. split; [exact Hlo |].
  split; [exact Hview |].
  split; [vm_compute; right; left |].
  apply (Hout Sample.loaded view Hlo Hview).
Defined.

(** ** The key-skill chips *)

Section Chips.

Context `{Engine}.

Lemma occurs_false_cons (c a : ascii) (s : string) :
  occurs c (String a s) = false <-> Ascii.eqb a c = false /\ occurs c s = false.
Proof. simpl. apply orb_false_iff. Qed.

(** No piece of a split holds the separator. *)
Lemma split_pieces (sep : ascii) (s : string) :
  Forall (fun piece => occurs sep piece = false) (split sep s).
Proof.
  induction s as [| c r IH]; simpl; [repeat constructor |].
  destruct (Ascii.eqb c sep) eqn:Hc.
  - constructor; [reflexivity | exact IH].
  - pose proof (split_not_nil sep r) as Hnil.
    destruct (split sep r) as [| piece rest]; [contradiction |].
    inversion IH as [| x l Hpiece Hrest]; subst.
    constructor; [| exact Hrest].
    apply occurs_false_cons. split; assumption.
Qed.

(** X19. After a successful submission the key-skill area never shows the
    "No key skills available" placeholder: it shows one chip per piece of
    [requiredSkills], one more than there are commas, and no chip holds a
    comma. *)
Theorem chips_after_submission (f : formData) (net : fetch_outcome)
    (w : world) (result d : value) (s : state) :
  complete f -> succeeded net result -> get result "data" = Some d ->
  let chips := renderKeySkills
                 (userKeySkills (load (localStorage (snd (handleSubmit f net w))) s)) in
  chips = map Skill (map VStr (split "," (requiredSkills f)))
  /\ length chips = S (occurrences "," (requiredSkills f))
  /\ (NoKeySkills ∉ chips)
  /\ Forall (fun piece => occurs "," piece = false) (split "," (requiredSkills f)).
Proof.
  intros Hc Hs Hd chips.
  assert (Hread : userKeySkills (load (localStorage (snd (handleSubmit f net w))) s)
                  = map VStr (split "," (requiredSkills f))).
  { rewrite load_userKeySkills.
    rewrite (handleSubmit_succeeded f net w result d Hc Hs Hd). simpl.
    rewrite lookup_insert_eq. reflexivity. }
  assert (Hchips : chips = map Skill (map VStr (split "," (requiredSkills f)))).
  { subst chips. rewrite Hread. unfold renderKeySkills.
    pose proof (split_not_nil "," (requiredSkills f)) as Hnil.
    destruct (split "," (requiredSkills f)); [contradiction | reflexivity]. }
  split; [exact Hchips |]. split.
  - rewrite Hchips, !length_map. apply length_split.
  - split; [| apply split_pieces].
    rewrite Hchips. intros Hin. apply list_elem_of_fmap in Hin as (v & Hv & _).
    discriminate Hv.
Qed.

(** X20. The placeholder is shown exactly when there is no skill to show:
    the entry is missing, is not an array, or is the empty array. *)
Theorem placeholder_shown (ls : gmap string value) (s : state) :
  renderKeySkills (userKeySkills (load ls s)) = [NoKeySkills]
  <-> (forall v l, ls !! "keySkills" = Some v -> v = VArr l -> l = []).
Proof.
  rewrite load_userKeySkills. unfold renderKeySkills, parsed_or.
  destruct (ls !! "keySkills") as [v |] eqn:Hk.
  - destruct v as [| | | | | items | |];
      try (split; [intros _ v l [= <-] Hv; discriminate Hv | reflexivity]).
    destruct items as [| x rest]; simpl.
    + split; [intros _ v l [= <-] [= <-]; reflexivity | reflexivity].
    + split; [discriminate |]. intros Hall.
      specialize (Hall _ _ eq_refl eq_refl). discriminate Hall.
  - split; [intros _ v l Hv; discriminate Hv | reflexivity].
Qed.

End Chips.

Lemma chips_after_submission_witness :
  complete Sample.form
  /\ succeeded (Sample.respond Sample.wrapped) Sample.wrapped
  /\ length (renderKeySkills
               (userKeySkills
                  (load (localStorage
                           (snd (@handleSubmit Sample.engine Sample.form
                                   (Sample.respond Sample.wrapped) Sample.world)))
                        initialState)))
     = S (occurrences "," (requiredSkills Sample.form)).
Proof.
  split; [exact sample_form_complete |].
  split; [apply sample_succeeded |].
  apply (@chips_after_submission Sample.engine Sample.form
           (Sample.respond Sample.wrapped) Sample.world Sample.wrapped
           (VObj [("result", Sample.entry)]) initialState
           sample_form_complete (sample_succeeded Sample.wrapped) eq_refl).
Defined.

(** ** The label that is looked up *)

Section Label.

(** X21. The label looked up in [jobTypeMap] and the text [stripHtml]
    returns never begin or end with white space, and trimming them again
    changes nothing. *)
Theorem trimmed_results `{Engine} (jobtype : option string) (html : string) :
  (~ starts_white (jobTypeLabel jobtype) /\ ~ ends_white (jobTypeLabel jobtype)
   /\ trim (jobTypeLabel jobtype) = jobTypeLabel jobtype)
  /\ (~ starts_white (stripHtml html) /\ ~ ends_white (stripHtml html)
      /\ trim (stripHtml html) = stripHtml html).
Proof.
  split.
  - unfold jobTypeLabel.
    destruct (trim_clean (decodeSafe (param_or_empty jobtype))) as [Hs He].
    split; [exact Hs |]. split; [exact He | apply trim_idempotent].
  - unfold stripHtml.
    set (t := sor _ _).
    destruct (trim_clean t) as [Hs He].
    split; [exact Hs |]. split; [exact He | apply trim_idempotent].
Qed.

End Label.

(** ** When the view cannot be computed *)

Section Crashes.

Context `{Engine}.

(** X22. An upstream name that is truthy but not text (a number, say) is
    kept as it is by the mapping, and a single such row among the cached
    ones makes the filter callback throw: no view is computed, whatever
    the filter settings. *)
Theorem non_text_name_breaks_view (p : value) (index : nat) (item n : value)
    (r : resume) (st : state) :
  mapItem p index item = Some r ->
  get item "name" = Some n -> truthy n = true -> (forall s, n <> VStr s) ->
  r ∈ resumes st ->
  name r = n /\ filteredResumes st = None.
Proof.
  intros Hr Hn Ht Hnot Hin.
  destruct (mapItem_fields p index item r Hr)
    as (n' & sc & j & ex & em & ph & Gn & Gsc & Gj & Gex & Gem & Gph
        & Fid & Fn & Fsc & Fj & Fex & Fem & Fph).
  assert (Hname : name r = n).
  { rewrite Fn. replace n' with n by congruence. unfold or_. rewrite Ht. reflexivity. }
  split; [exact Hname |].
  apply (filter__throws (keep st) (resumes st) r Hin).
  apply keep_throws_without_name. rewrite Hname. exact Hnot.
Qed.

End Crashes.

Lemma non_text_name_breaks_view_witness :
  let item := VObj [("name", VNum (num_of_nat 42))] in
  let ls : gmap string value :=
    <["resumeResults" := VObj [("result", VArr [item])]]> ∅ in
  exists r : resume,
    mapItem (VObj [("result", VArr [item])]) 0 item = Some r
    /\ r ∈ resumes (load ls initialState)
    /\ @filteredResumes Sample.engine (load ls initialState) = None.
Proof.
  intros item ls. eexists. split; [reflexivity |].
  split; [vm_compute; left |].
  apply (@non_text_name_breaks_view Sample.engine
           (VObj [("result", VArr [item])]) 0 item (VNum (num_of_nat 42)) _
           (load ls initialState) eq_refl eq_refl eq_refl).
  - intros s. discriminate.
  - vm_compute. left.
Defined.

(** ** Malformed parameters *)

Section Malformed.

Lemma unescape_trailing_percent (n : nat) (s : string) :
  String.length s <= n -> unescape (String.append s "%") = None.
Proof.
  revert s. induction n as [| n IH]; intros s Hlen.
  - destruct s; [reflexivity | simpl in Hlen; lia].
  - destruct s as [| c r]; [reflexivity |].
    rewrite append_cons. cbn [unescape].
    destruct (Ascii.eqb c "%").
    + destruct r as [| h1 r]; [reflexivity |]. rewrite append_cons.
      destruct r as [| h2 r].
      * change (String.append EmptyString "%") with "%".
        destruct (hex_digit h1); reflexivity.
      * rewrite append_cons. rewrite (IH r) by (simpl in Hlen; lia).
        destruct (hex_digit h1); [destruct (hex_digit h2) |]; reflexivity.
    + rewrite (IH r) by (simpl in Hlen; lia). reflexivity.
Qed.

(** X23. A parameter that ends with a percent sign cannot be decoded, and
    [decodeSafe] blanks it: a job title or a description such as "100%"
    arrives empty in the form, and a job type so written is not
    recognised. *)
Theorem trailing_percent_blanks (s : string) :
  decodeURIComponent (String.append s "%") = None
  /\ decodeSafe (String.append s "%") = ""
  /\ mappedJobType (Some (String.append s "%")) = VStr "".
Proof.
  assert (Hd : decodeURIComponent (String.append s "%") = None).
  { unfold decodeURIComponent.
    rewrite (unescape_trailing_percent (String.length s) s (Nat.le_refl _)).
    reflexivity. }
  assert (Hs : decodeSafe (String.append s "%") = "").
  { unfold decodeSafe. rewrite Hd. reflexivity. }
  split; [exact Hd |]. split; [exact Hs |].
  unfold mappedJobType, jobTypeLabel, param_or_empty. rewrite Hs. reflexivity.
Qed.

End Malformed.

(** ** More sample runs *)

Lemma handleSubmit_storage_frame_witness :
  "orgId" <> "resumeResults" /\ "orgId" <> "keySkills"
  /\ localStorage (snd (@handleSubmit Sample.engine Sample.form
                          (Sample.respond Sample.wrapped) Sample.world)) !! "orgId"
     = localStorage Sample.world !! "orgId".
Proof.
  assert (H1 : "orgId" <> "resumeResults") by discriminate.
  assert (H2 : "orgId" <> "keySkills") by discriminate.
  split; [exact H1 |]. split; [exact H2 |].
  apply (@handleSubmit_storage_frame Sample.engine Sample.form
           (Sample.respond Sample.wrapped) Sample.world "orgId" H1 H2).
Defined.

Lemma handleSubmit_all_or_nothing_witness :
  existsb is_navigation
    (@emitted Sample.engine Sample.form (Sample.respond Sample.wrapped) Sample.world)
  = true
  /\ existsb is_navigation
       (@emitted Sample.engine Sample.form (Rejects "offline") Sample.world)
     = false
  /\ is_Some (localStorage
                (snd (@handleSubmit Sample.engine Sample.form
                        (Sample.respond Sample.wrapped) Sample.world))
              !! "resumeResults")
  /\ localStorage (snd (@handleSubmit Sample.engine Sample.form
                          (Rejects "offline") Sample.world))
     = localStorage Sample.world.
Proof.
  assert (Hnav : existsb is_navigation
                   (@emitted Sample.engine Sample.form
                      (Sample.respond Sample.wrapped) Sample.world) = true)
    by (vm_compute; reflexivity).
  assert (Hno : existsb is_navigation
                  (@emitted Sample.engine Sample.form (Rejects "offline") Sample.world)
                = false)
    by (vm_compute; reflexivity).
  split; [exact Hnav |]. split; [exact Hno |]. split.
  - apply (proj1 (@handleSubmit_all_or_nothing Sample.engine Sample.form
                    (Sample.respond Sample.wrapped) Sample.world) Hnav).
  - apply (proj2 (@handleSubmit_all_or_nothing Sample.engine Sample.form
                    (Rejects "offline") Sample.world) Hno).
Defined.

Lemma handleSubmit_null_body_witness :
  let r := {| status := 200; body := Some VNull |} in
  complete Sample.form /\ ok r = true
  /\ localStorage (snd (@handleSubmit Sample.engine Sample.form (Resolves r) Sample.world))
     = localStorage Sample.world.
Proof.
  intros r. split; [exact sample_form_complete |]. split; [reflexivity |].
  rewrite (@handleSubmit_null_body Sample.engine Sample.form r Sample.world
             sample_form_complete eq_refl eq_refl).
  reflexivity.
Defined.

Lemma handleSubmit_without_result_witness :
  let result := VObj [("data", VObj [("id", VNum (num_of_nat 7))])] in
  complete Sample.form /\ succeeded (Sample.respond result) result
  /\ localStorage (snd (@handleSubmit Sample.engine Sample.form
                          (Sample.respond result) Sample.world)) !! "resumeResults"
     = Some (VArr []).
Proof.
  intros result. split; [exact sample_form_complete |].
  split; [apply sample_succeeded |].
  apply (@handleSubmit_without_result Sample.engine Sample.form
           (Sample.respond result) Sample.world result
           (VObj [("id", VNum (num_of_nat 7))]) initialState
           sample_form_complete (sample_succeeded result) eq_refl eq_refl).
Defined.

